(** * Code Runner: the command resolution and execution pipeline

    A shallow embedding of [src/codeManager.ts] (class [CodeManager]) and the
    properties its specification states about it.

    Strings are [string]s of 8-bit code units (the ASCII / Latin-1 range of
    the code units of a JavaScript string).  The JavaScript built-ins the
    class relies on ([String.prototype.match], [replace], [trim],
    [toLowerCase], [indexOf], [substr]) are embedded first, over a small
    backtracking matcher for the regular expressions that occur in the
    source; the methods of the class follow, one definition per method,
    then the session as an explicit state with the editor, the process host
    and the file system as its environment. *)

From stdpp Require Import base gmap strings.
From Stdlib Require Import String Ascii List Bool Arith Lia.
Import ListNotations.
Open Scope string_scope.

#[global] Arguments String.append !_ _ / : simpl nomatch.

(** ** Strings *)

Module Str.

Definition len (s : string) : nat := String.length s.

(** [s.substr(0, n)] *)
Fixpoint take (n : nat) (s : string) : string :=
  match n, s with
  | S n', String a s' => String a (take n' s')
  | _, _ => EmptyString
  end.

Fixpoint drop (n : nat) (s : string) : string :=
  match n, s with
  | S n', String _ s' => drop n' s'
  | _, _ => s
  end.

(** [strip p s] is [Some rest] when [s = p ++ rest]. *)
Fixpoint strip (p s : string) : option string :=
  match p with
  | EmptyString => Some s
  | String a p' =>
      match s with
      | String b s' => if Ascii.eqb a b then strip p' s' else None
      | EmptyString => None
      end
  end.

Definition starts_with (s p : string) : bool :=
  match strip p s with Some _ => true | None => false end.

(** [s.indexOf(p) > -1] *)
Fixpoint contains (p s : string) : bool :=
  starts_with s p
  || match s with
     | String _ s' => contains p s'
     | EmptyString => false
     end.

Fixpoint all (f : ascii -> bool) (s : string) : bool :=
  match s with
  | EmptyString => true
  | String a s' => f a && all f s'
  end.

Fixpoint map (f : ascii -> ascii) (s : string) : string :=
  match s with
  | EmptyString => EmptyString
  | String a s' => String (f a) (map f s')
  end.

Fixpoint count (f : ascii -> bool) (s : string) : nat :=
  match s with
  | EmptyString => 0
  | String a s' => (if f a then 1 else 0) + count f s'
  end.

Definition snoc (s : string) (a : ascii) : string := s ++ String a EmptyString.

Definition is_empty (s : string) : bool :=
  match s with EmptyString => true | _ => false end.

End Str.

(** ** Regular expressions

    The fragment of ECMAScript regular expressions the source uses:
    character classes, greedy repetition of a class, sequence, one
    capturing group, a positive lookahead and the end-of-input assertion.
    The matcher is the backtracking matcher of the language definition, in
    continuation-passing style: a continuation that fails makes the matcher
    try its next alternative. *)

Module Regex.

Inductive cclass : Type :=
| CDot                                             (* the dot *)
| CLit (c : ascii)                                 (* a literal or escaped character *)
| CSet (neg : bool) (ranges : list (ascii * ascii)). (* a bracketed class, negated or not *)

Inductive regex : Type :=
| REmpty
| RChar (c : cclass)
| RStar (c : cclass)                               (* the greedy repetition of [c] *)
| RSeq (r1 r2 : regex)
| RGroup (n : nat) (r : regex)                     (* the [n]-th capturing group *)
| RAhead (r : regex)                               (* the lookahead for [r] *)
| REnd.                                            (* the end of the input *)

(** Line terminators in the 8-bit range: LF and CR. *)
Definition is_line_terminator (a : ascii) : bool :=
  Ascii.eqb a "010" || Ascii.eqb a "013".

Definition in_range (a : ascii) (r : ascii * ascii) : bool :=
  Ascii.leb (fst r) a && Ascii.leb a (snd r).

Definition cclass_match (c : cclass) (a : ascii) : bool :=
  match c with
  | CDot => negb (is_line_terminator a)
  | CLit b => Ascii.eqb a b
  | CSet neg rs => xorb neg (existsb (in_range a) rs)
  end.

(** Captured substrings, most recent first. *)
Definition captures : Type := list (nat * string).

Fixpoint capture (n : nat) (cp : captures) : option string :=
  match cp with
  | [] => None
  | (m, s) :: cp' => if Nat.eqb n m then Some s else capture n cp'
  end.

(** The text between two positions of one input, each position given by
    the input that remains there. *)
Definition consumed (s s' : string) : string :=
  Str.take (Str.len s - Str.len s') s.

Fixpoint star {R : Type} (c : cclass) (s : string) (k : string -> option R)
  : option R :=
  match s with
  | String a s' =>
      if cclass_match c a then
        match star c s' k with
        | Some x => Some x
        | None => k s
        end
      else k s
  | EmptyString => k s
  end.

Fixpoint exec {R : Type} (r : regex) (s : string) (cp : captures)
  (k : string -> captures -> option R) {struct r} : option R :=
  match r with
  | REmpty => k s cp
  | RChar c =>
      match s with
      | String a s' => if cclass_match c a then k s' cp else None
      | EmptyString => None
      end
  | RStar c => star c s (fun s' => k s' cp)
  | RSeq r1 r2 => exec r1 s cp (fun s' cp' => exec r2 s' cp' k)
  | RGroup n r1 => exec r1 s cp (fun s' cp' => k s' ((n, consumed s s') :: cp'))
  | RAhead r1 =>
      match exec r1 s cp (fun _ cp' => Some cp') with
      | Some cp' => k s cp'
      | None => None
      end
  | REnd =>
      match s with
      | EmptyString => k s cp
      | String _ _ => None
      end
  end.

(** A match: the text before it, the matched text, the text after it and
    the captures. *)
Record match_result : Type := MatchResult {
  m_before : string;
  m_text : string;
  m_after : string;
  m_caps : captures
}.

(** One attempt at the current position. *)
Definition match_here (r : regex) (before s : string) : option match_result :=
  exec r s [] (fun s' cp => Some (MatchResult before (consumed s s') s' cp)).

(** The first match at or after the current position ([lastIndex]). *)
Fixpoint search (r : regex) (before s : string) : option match_result :=
  match match_here r before s with
  | Some m => Some m
  | None =>
      match s with
      | String a s' => search r (Str.snoc before a) s'
      | EmptyString => None
      end
  end.

Fixpoint ngroups (r : regex) : nat :=
  match r with
  | RSeq r1 r2 => ngroups r1 + ngroups r2
  | RGroup _ r1 => S (ngroups r1)
  | RAhead r1 => ngroups r1
  | _ => 0
  end.

(** The array [s.match(r)] returns for a regular expression without the
    [g] flag: the matched text, then one entry per capturing group
    ([None] is [undefined]); [None] for the array is [null]. *)
Definition js_match (r : regex) (s : string) : option (list (option string)) :=
  match search r EmptyString s with
  | Some m => Some (Some (m_text m) :: List.map (fun n => capture n (m_caps m)) (seq 1 (ngroups r)))
  | None => None
  end.

(** A replacement is computed from the match. *)
Definition replaceFunction : Type := match_result -> string.

(** [s.replace(r, f)] with the [g] flag: matches are found from left to
    right, each search starting where the previous match ended (one
    position further after an empty match); the text between the matches
    is kept.  [skip] counts the characters of the current match still to
    pass. *)
Fixpoint replace_from (r : regex) (f : replaceFunction) (before s : string) (skip : nat)
  {struct s} : string :=
  match skip with
  | S skip' =>
      match s with
      | String a s' => replace_from r f (Str.snoc before a) s' skip'
      | EmptyString => EmptyString
      end
  | O =>
      match match_here r before s with
      | Some m =>
          f m ++
          match s with
          | String a s' =>
              let rest := replace_from r f (Str.snoc before a) s' (Str.len (m_text m) - 1) in
              if Str.is_empty (m_text m) then String a rest else rest
          | EmptyString => EmptyString
          end
      | None =>
          match s with
          | String a s' => String a (replace_from r f (Str.snoc before a) s' 0)
          | EmptyString => EmptyString
          end
      end
  end.

Definition replace_all (r : regex) (f : replaceFunction) (s : string) : string :=
  replace_from r f EmptyString s 0.

(** [s.replace(r, f)] without the [g] flag: the first match only. *)
Definition replace_first (r : regex) (f : replaceFunction) (s : string) : string :=
  match search r EmptyString s with
  | Some m => m_before m ++ f m ++ m_after m
  | None => s
  end.

(** The expansion of a replacement string for a pattern without capturing
    groups: [$$] is a dollar, [$&] the matched text, [$`] the text before
    the match, [$'] the text after it; a dollar before anything else
    stands for itself. *)
Fixpoint get_substitution (m : match_result) (tpl : string) : string :=
  match tpl with
  | EmptyString => EmptyString
  | String a t1 =>
      if Ascii.eqb a "$" then
        match t1 with
        | String b t2 =>
            if Ascii.eqb b "$" then String "$" (get_substitution m t2)
            else if Ascii.eqb b "&" then m_text m ++ get_substitution m t2
            else if Ascii.eqb b "`" then m_before m ++ get_substitution m t2
            else if Ascii.eqb b "'" then m_after m ++ get_substitution m t2
            else String a (get_substitution m t1)
        | EmptyString => String a EmptyString
        end
      else String a (get_substitution m t1)
  end.

(** The regular expression matching a literal text. *)
Fixpoint lit (p : string) : regex :=
  match p with
  | EmptyString => REmpty
  | String a p' => RSeq (RChar (CLit a)) (lit p')
  end.

(** [s.replace(/p/g, v)] for a literal [p] and a replacement string [v]. *)
Definition replace_all_lit (p v s : string) : string :=
  replace_all (lit p) (fun m => get_substitution m v) s.

(** [s.replace(p, v)] for a string [p]: the first occurrence. *)
Definition replace_first_lit (p v s : string) : string :=
  replace_first (lit p) (fun m => get_substitution m v) s.

End Regex.

(** ** JavaScript values and built-ins used by the class *)

Module Js.

(** A call either returns or throws the [TypeError] of reading a property
    of [null] or [undefined]. *)
Inductive completion (A : Type) : Type :=
| Return (a : A)
| ThrowTypeError.
Arguments Return {A} a.
Arguments ThrowTypeError {A}.

Definition bind {A B : Type} (c : completion A) (f : A -> completion B)
  : completion B :=
  match c with
  | Return a => f a
  | ThrowTypeError => ThrowTypeError
  end.

(** What a property of an object of the configuration reads as: [null],
    a string, or a member that every object inherits from
    [Object.prototype], found under its name; a key that is absent reads
    as [undefined], the [None] of a lookup.  The own properties of such an
    object are a finite map to strings and [null]. *)
Inductive json : Type :=
| JNull
| JString (s : string)
| JInherited (name : string).

Coercion JString : string >-> json.

(** The names of the members of [Object.prototype]. *)
Definition inheritedNames : list string :=
  [ "constructor"; "__defineGetter__"; "__defineSetter__"; "hasOwnProperty";
    "__lookupGetter__"; "__lookupSetter__"; "isPrototypeOf";
    "propertyIsEnumerable"; "toString"; "valueOf"; "__proto__";
    "toLocaleString" ].

Definition is_inherited (name : string) : bool :=
  existsb (String.eqb name) inheritedNames.

(** [object[key]]: the own property under [key], else the inherited
    member of that name, else [undefined]. *)
Definition member (object : gmap string json) (key : string) : option json :=
  match object !! key with
  | Some v => Some v
  | None => if is_inherited key then Some (JInherited key) else None
  end.

(** [v == null] *)
Definition is_nullish (v : option json) : bool :=
  match v with
  | None | Some JNull => true
  | Some (JString _) | Some (JInherited _) => false
  end.

(** Truthiness of a configuration value. *)
Definition truthy (v : option json) : bool :=
  match v with
  | Some (JString s) => negb (Str.is_empty s)
  | Some (JInherited _) => true
  | _ => false
  end.

(** [ToString] of an inherited member, as V8 prints it: the prototype
    itself under [__proto__], a native function under the other names. *)
Definition inherited_to_string (name : string) : string :=
  if String.eqb name "__proto__" then "[object Object]"
  else "function " ++ (if String.eqb name "constructor" then "Object" else name)
       ++ "() { [native code] }".

(** [ToString] of a property that may be [undefined]. *)
Definition to_string (v : option string) : string :=
  match v with
  | Some s => s
  | None => "undefined"
  end.

Definition json_to_string (v : option json) : string :=
  match v with
  | Some (JString s) => s
  | Some JNull => "null"
  | Some (JInherited name) => inherited_to_string name
  | None => "undefined"
  end.

(** Truthiness of a string property that may be [undefined]. *)
Definition truthy_string (v : option string) : bool :=
  match v with
  | Some s => negb (Str.is_empty s)
  | None => false
  end.

(** White space and line terminators in the 8-bit range. *)
Definition is_white_space (a : ascii) : bool :=
  let n := nat_of_ascii a in
  Nat.leb 9 n && Nat.leb n 13 || Nat.eqb n 32 || Nat.eqb n 160.

Fixpoint trim_start (s : string) : string :=
  match s with
  | String a s' => if is_white_space a then trim_start s' else s
  | EmptyString => EmptyString
  end.

Fixpoint trim_end (s : string) : string :=
  match s with
  | EmptyString => EmptyString
  | String a s' =>
      match trim_end s' with
      | EmptyString => if is_white_space a then EmptyString else String a EmptyString
      | String b t => String a (String b t)
      end
  end.

(** [s.trim()] *)
Definition trim (s : string) : string := trim_end (trim_start s).

(** [toLowerCase] on one code unit of the 8-bit range. *)
Definition lower (a : ascii) : ascii :=
  let n := nat_of_ascii a in
  if Nat.leb 65 n && Nat.leb n 90
     || Nat.leb 192 n && Nat.leb n 222 && negb (Nat.eqb n 215)
  then ascii_of_nat (n + 32)
  else a.

(** [s.toLowerCase()] *)
Definition toLowerCase (s : string) : string := Str.map lower s.

(** [s.lastIndexOf(".")] followed by [s.substr(index)]: the text from the
    last dot on, [None] when there is no dot. *)
Fixpoint from_last_dot (s : string) : option string :=
  match s with
  | EmptyString => None
  | String a s' =>
      match from_last_dot s' with
      | Some t => Some t
      | None => if Ascii.eqb a "." then Some s else None
      end
  end.

End Js.

#[global] Instance completion_ret : MRet Js.completion := @Js.Return.
#[global] Instance completion_bind : MBind Js.completion :=
  fun A B f c => Js.bind c f.

(** ** The methods of [CodeManager] that compute on strings *)

Module CodeManager.
Import Regex Js.

(** The class of the two separators, slash and backslash. *)
Definition separator : cclass := CSet false [("/"%char, "/"%char); ("\"%char, "\"%char)].

(** The pattern of [getCodeBaseFile]: a greedy run of dots, a separator,
    and group 1 around a greedy run of dots. *)
Definition baseFileRegex : regex :=
  RSeq (RStar CDot) (RSeq (RChar separator) (RGroup 1 (RStar CDot))).

(** The pattern of [getCodeFileWithoutDirAndExt]: a greedy run of dots, a
    separator, and group 1 around a greedy run of dots that a lookahead
    requires to be followed by a literal dot and a run of dots. *)
Definition withoutDirAndExtRegex : regex :=
  RSeq (RStar CDot)
    (RSeq (RChar separator)
       (RGroup 1 (RSeq (RStar CDot) (RAhead (RSeq (RChar (CLit ".")) (RStar CDot)))))).

(** The pattern of [getCodeFileDir]: group 1 around a greedy run of dots
    and a separator, then a greedy run of dots. *)
Definition dirRegex : regex :=
  RSeq (RGroup 1 (RSeq (RStar CDot) (RChar separator))) (RStar CDot).

(** The pattern of [getCodeFileDirWithoutTrailingSlash]: a separator at
    the end of the input. *)
Definition trailingSlashRegex : regex := RSeq (RChar separator) REnd.

(** [regexMatch.length ? regexMatch[1] : this._codeFile], where reading
    [length] of [null] throws. *)
Definition groupOrCodeFile (regexMatch : option (list (option string)))
  (codeFile : string) : completion string :=
  match regexMatch with
  | None => ThrowTypeError
  | Some arr =>
      Return (if Nat.eqb (List.length arr) 0 then codeFile
              else to_string (List.nth 1 arr None))
  end.

(** Gets the base name of the code file, that is without its directory. *)
Definition getCodeBaseFile (codeFile : string) : completion string :=
  groupOrCodeFile (js_match baseFileRegex codeFile) codeFile.

(** Gets the code file name without its directory and extension. *)
Definition getCodeFileWithoutDirAndExt (codeFile : string) : completion string :=
  groupOrCodeFile (js_match withoutDirAndExtRegex codeFile) codeFile.

(** Gets the directory of the code file. *)
Definition getCodeFileDir (codeFile : string) : completion string :=
  groupOrCodeFile (js_match dirRegex codeFile) codeFile.

(** Gets the directory of the code file without a trailing slash. *)
Definition getCodeFileDirWithoutTrailingSlash (codeFile : string) : completion string :=
  dir ← getCodeFileDir codeFile;
  Return (replace_first trailingSlashRegex (fun m => get_substitution m EmptyString) dir).

(** Includes double quotes around a given file name. *)
Definition quoteFileName (fileName : string) : string :=
  String "034" (fileName ++ String "034" EmptyString).

(** [vscode.workspace.rootPath ? vscode.workspace.rootPath : codeFileDir] *)
Definition getWorkspaceRoot (rootPath : option string) (codeFileDir : string) : string :=
  if truthy_string rootPath then to_string rootPath else codeFileDir.

Record placeholder : Type := Placeholder {
  regex_of : string;          (* the literal text of the global pattern *)
  replaceValue : string
}.

(** The array of placeholders, its entries evaluated in order. *)
Definition placeholders (rootPath : option string) (codeFile : string)
  : completion (list placeholder) :=
  codeFileDir ← getCodeFileDir codeFile;
  withoutExt ← getCodeFileWithoutDirAndExt codeFile;
  baseFile ← getCodeBaseFile codeFile;
  dirWithoutSlash ← getCodeFileDirWithoutTrailingSlash codeFile;
  Return
    [ Placeholder "$workspaceRoot" (getWorkspaceRoot rootPath codeFileDir);
      Placeholder "$fileNameWithoutExt" withoutExt;
      Placeholder "$fullFileName" (quoteFileName codeFile);
      Placeholder "$fileName" baseFile;
      Placeholder "$dirWithoutTrailingSlash" (quoteFileName dirWithoutSlash);
      Placeholder "$dir" (quoteFileName codeFileDir) ].

(** [cmd = cmd.replace(placeholder.regex, placeholder.replaceValue)] *)
Definition applyPlaceholder (cmd : string) (p : placeholder) : string :=
  replace_all_lit (regex_of p) (replaceValue p) cmd.

(** [placeholders.forEach(...)] *)
Definition applyPlaceholders (ps : list placeholder) (cmd : string) : string :=
  fold_left applyPlaceholder ps cmd.

(** Generates the complete command that allows the code file to be run;
    [codeFile] is the field [_codeFile], [None] while it is unset. *)
Definition getFinalCommandToRunCodeFile (rootPath : option string)
  (codeFile : option string) (executor : string) (appendFile : bool)
  : completion string :=
  cmd ← (if truthy_string codeFile
         then ps ← placeholders rootPath (to_string codeFile);
              Return (applyPlaceholders ps executor)
         else Return executor);
  Return (if negb (String.eqb cmd executor) then cmd
          else executor ++ (if appendFile
                            then " " ++ quoteFileName (to_string codeFile)
                            else EmptyString)).

(** [changeExecutorFromCmdToPs]; [windowsShell] is the setting
    [terminal.integrated.shell.windows], empty when it is not set. *)
Definition changeExecutorFromCmdToPs (platform windowsShell executor : string)
  : string :=
  if String.eqb platform "win32"
     && negb (Str.is_empty windowsShell)
     && Str.contains "powershell" (toLowerCase windowsShell)
     && Str.contains " && " executor
  then
    let replacement := "; if ($?) {" in
    let executor := replace_first_lit "&&" replacement executor in
    let replacement := "} " ++ replacement in
    let executor := replace_all_lit "&&" replacement executor in
    let executor :=
      replace_all_lit "$dir$fileNameWithoutExt" ".\$fileNameWithoutExt" executor in
    executor ++ " }"
  else executor.

(** The drive pattern: group 1 around a letter, then a colon and a
    backslash. *)
Definition driveRegex : regex :=
  RSeq (RGroup 1 (RChar (CSet false [("A"%char, "Z"%char); ("a"%char, "z"%char)])))
    (RSeq (RChar (CLit ":")) (RChar (CLit "\"))).

(** The pattern of one backslash. *)
Definition backslashRegex : regex := RChar (CLit "\").

(** The replacer function [(match, p1) => prefix + p1.toLowerCase() + "/"]. *)
Definition driveReplacer (prefix : string)   : replaceFunction :=
  fun m => prefix ++ toLowerCase (to_string (capture 1 (m_caps m))) ++ "/".

Definition replacer   : replaceFunction := driveReplacer "/mnt/".

(** [changeFilePathForBashOnWindows]; [terminalRoot] is the setting of
    that name, empty when it is not set. *)
Definition changeFilePathForBashOnWindows (platform windowsShell terminalRoot
  command : string) : string :=
  if String.eqb platform "win32" then
    if negb (Str.is_empty windowsShell) && negb (Str.is_empty terminalRoot) then
      replace_all backslashRegex (fun m => get_substitution m "/")
        (replace_all driveRegex (driveReplacer terminalRoot) command)
    else if negb (Str.is_empty windowsShell)
            && Str.contains "bash" (toLowerCase windowsShell)
            && Str.contains "windows" (toLowerCase windowsShell) then
      replace_all backslashRegex (fun m => get_substitution m "/")
        (replace_all driveRegex replacer command)
    else command
  else command.

(** The pattern of [rndName]: one or more characters outside a-z. *)
Definition notLowerAlpha : cclass := CSet true [("a"%char, "z"%char)].
Definition notLowerAlphaRegex : regex := RSeq (RChar notLowerAlpha) (RStar notLowerAlpha).

(** [rndName], as a function of [Math.random().toString(36)]. *)
Definition rndName (random36 : string) : string :=
  Str.take 10
    (replace_all notLowerAlphaRegex (fun m => get_substitution m EmptyString) random36).

(** The name [createRandomFile] gives the temporary file. *)
Definition fileTypeOf (languageIdToFileExtensionMap : gmap string json)
  (languageId : option string) (fileExtension : string) : string :=
  if truthy_string languageId
     && truthy (member languageIdToFileExtensionMap (to_string languageId))
  then json_to_string (member languageIdToFileExtensionMap (to_string languageId))
  else if negb (Str.is_empty fileExtension) then fileExtension
  else "." ++ to_string languageId.

Definition tmpFileName (languageIdToFileExtensionMap : gmap string json)
  (languageId : option string) (fileExtension random36 : string) : string :=
  "temp" ++ rndName random36
         ++ fileTypeOf languageIdToFileExtensionMap languageId fileExtension.

(** The text written for a selection or an untitled document. *)
Definition textToRun (languageId : option string) (text : string) : string :=
  match languageId with
  | Some l =>
      if String.eqb l "php" then
        let text := trim text in
        if negb (Str.starts_with text "<?php")
        then "<?php" ++ String "013" (String "010" text)
        else text
      else text
  | None => text
  end.

(** [getFileExtension] *)
Definition getFileExtension (fileName : string) : string :=
  match from_last_dot fileName with
  | Some ext => ext
  | None => EmptyString
  end.

(** [getExecutor]: the executor and the language id left in [_languageId]. *)
Definition getExecutor (executorMap executorMapByFileExtension : gmap string json)
  (defaultLanguage documentLanguageId : string)
  (languageId : option string) (fileExtension : string)
  : option json * string :=
  let languageId0 :=
    match languageId with
    | None => documentLanguageId
    | Some l => l
    end in
  let executor0 := member executorMap languageId0 in
  let '(executor1, languageId1) :=
    if is_nullish executor0 && negb (Str.is_empty fileExtension) then
      let executor := member executorMapByFileExtension fileExtension in
      (executor, if negb (is_nullish executor) then fileExtension else languageId0)
    else (executor0, languageId0) in
  if is_nullish executor1
  then (member executorMap defaultLanguage, defaultLanguage)
  else (executor1, languageId1).

(** [changeExecutorFromCmdToPs] on an executor that is not a string: it
    has no [indexOf], and calling it throws where the host is a
    PowerShell one. *)
Definition changeExecutorFromCmdToPsOf (platform windowsShell : string)
  (executor : json) : completion json :=
  match executor with
  | JString template =>
      Return (JString (changeExecutorFromCmdToPs platform windowsShell template))
  | _ =>
      if String.eqb platform "win32"
         && negb (Str.is_empty windowsShell)
         && Str.contains "powershell" (toLowerCase windowsShell)
      then ThrowTypeError
      else Return executor
  end.

(** [getFinalCommandToRunCodeFile] on an executor that is not a string:
    it has no [replace], and calling it throws once there is a code file
    and the placeholders are made; without code file the executor is
    joined to the text to append. *)
Definition getFinalCommandToRunCodeFileOf (rootPath : option string)
  (codeFile : option string) (executor : json) (appendFile : bool)
  : completion string :=
  match executor with
  | JString template => getFinalCommandToRunCodeFile rootPath codeFile template appendFile
  | _ =>
      if truthy_string codeFile
      then bind (placeholders rootPath (to_string codeFile)) (fun _ => ThrowTypeError)
      else Return (json_to_string (Some executor)
                   ++ (if appendFile
                       then " " ++ quoteFileName (to_string codeFile)
                       else EmptyString))
  end.

End CodeManager.

(** ** The session: the fields of the class and its environment *)

Module Session.
Import Regex Js CodeManager.

(** The settings of the [code-runner] section. *)
Record Config : Type := {
  executorMap : gmap string json;
  executorMapByFileExtension : gmap string json;
  languageIdToFileExtensionMap : gmap string json;
  defaultLanguage : string;
  customCommand : string;
  cwd : string;
  fileDirectoryAsCwd : bool;
  ignoreSelection : bool;
  saveAllFilesBeforeRun : bool;
  saveFileBeforeRun : bool;
  runInTerminal : bool;
  clearPreviousOutput : bool;
  showExecutionMessage : bool;
  terminalRoot : string
}.

(** The active text editor: its document and its selection. *)
Record Editor : Type := {
  fileName : string;
  isUntitled : bool;
  languageId : string;
  getText : string;               (* the text of the whole document *)
  selectionIsEmpty : bool;
  getSelectedText : string        (* the text of the selection *)
}.

(** What the class reads from its host and does not change. *)
Record Env : Type := {
  config : Config;
  activeTextEditor : option Editor;
  rootPath : option string;             (* [vscode.workspace.rootPath] *)
  platform : string;                    (* [os.platform()] *)
  windowsShell : string;                (* [terminal.integrated.shell.windows] *)
  TmpDir : string;                      (* [os.tmpdir()] *)
  dirname : string -> string;           (* of the module [path] *)
  join : string -> string -> string;    (* of the module [path] *)
  random36 : nat -> string;             (* the n-th [Math.random().toString(36)] *)
  unlinkNeedsCallback : bool            (* [fs.unlink] throws when it is given no
                                           callback: Node 10 and later *)
}.

(** The private fields of [CodeManager]; [None] is [undefined] or [null],
    a flag that is [undefined] reads as [false]. *)
Record State : Type := {
  _terminal : option nat;
  _isRunning : bool;
  _process : option nat;
  _codeFile : option string;
  _isTmpFile : bool;
  _languageId : option string;
  _cwd : option string;
  _config : option Config
}.

(** A child process started by [exec]: its command and working directory,
    and the [showExecutionMessage] its [close] handler has captured. *)
Record Child : Type := {
  childCommand : string;
  childCwd : option string;
  childShowsDone : bool
}.

(** What is left to do when a promise is fulfilled. *)
Inductive continuation : Type :=
| ThenExecuteCommand (executor : json) (appendFile : bool)    (* after a save *)
| ThenSendToTerminal (command : string)                       (* after the clear *)
| ThenRunPicked.                                              (* after the quick pick *)

Record World : Type := {
  this : State;
  notices : list string;                 (* [showInformationMessage] *)
  telemetry : list json;                 (* [sendEvent], the names as they are passed *)
  outputChannel : string;                (* the text of the channel *)
  terminalInput : list (nat * string);   (* [sendText], per terminal *)
  terminals : nat;                       (* terminals created so far *)
  files : gmap string string;            (* the file system *)
  children : gmap nat Child;             (* child processes not yet closed *)
  spawned : nat;                         (* children started so far *)
  killRequests : list nat;               (* [tree-kill] calls *)
  randomCalls : nat;                     (* [Math.random] calls so far *)
  pending : list continuation            (* promises not yet fulfilled *)
}.

Definition initialState : State :=
  {| _terminal := None; _isRunning := false; _process := None;
     _codeFile := None; _isTmpFile := false; _languageId := None;
     _cwd := None; _config := None |}.

Definition initialWorld (fs : gmap string string) : World :=
  {| this := initialState; notices := []; telemetry := [];
     outputChannel := EmptyString; terminalInput := []; terminals := 0;
     files := fs; children := ∅; spawned := 0; killRequests := [];
     randomCalls := 0; pending := [] |}.

(** *** Field updates *)

Definition withThis (f : State -> State) (w : World) : World :=
  {| this := f (this w); notices := notices w; telemetry := telemetry w;
     outputChannel := outputChannel w; terminalInput := terminalInput w;
     terminals := terminals w; files := files w; children := children w;
     spawned := spawned w; killRequests := killRequests w;
     randomCalls := randomCalls w; pending := pending w |}.

Definition set_terminal (v : option nat) (s : State) : State :=
  {| _terminal := v; _isRunning := _isRunning s; _process := _process s;
     _codeFile := _codeFile s; _isTmpFile := _isTmpFile s;
     _languageId := _languageId s; _cwd := _cwd s; _config := _config s |}.

Definition set_isRunning (v : bool) (s : State) : State :=
  {| _terminal := _terminal s; _isRunning := v; _process := _process s;
     _codeFile := _codeFile s; _isTmpFile := _isTmpFile s;
     _languageId := _languageId s; _cwd := _cwd s; _config := _config s |}.

Definition set_process (v : option nat) (s : State) : State :=
  {| _terminal := _terminal s; _isRunning := _isRunning s; _process := v;
     _codeFile := _codeFile s; _isTmpFile := _isTmpFile s;
     _languageId := _languageId s; _cwd := _cwd s; _config := _config s |}.

Definition set_codeFile (v : option string) (s : State) : State :=
  {| _terminal := _terminal s; _isRunning := _isRunning s; _process := _process s;
     _codeFile := v; _isTmpFile := _isTmpFile s;
     _languageId := _languageId s; _cwd := _cwd s; _config := _config s |}.

Definition set_isTmpFile (v : bool) (s : State) : State :=
  {| _terminal := _terminal s; _isRunning := _isRunning s; _process := _process s;
     _codeFile := _codeFile s; _isTmpFile := v;
     _languageId := _languageId s; _cwd := _cwd s; _config := _config s |}.

Definition set_languageId (v : option string) (s : State) : State :=
  {| _terminal := _terminal s; _isRunning := _isRunning s; _process := _process s;
     _codeFile := _codeFile s; _isTmpFile := _isTmpFile s;
     _languageId := v; _cwd := _cwd s; _config := _config s |}.

Definition set_cwd (v : option string) (s : State) : State :=
  {| _terminal := _terminal s; _isRunning := _isRunning s; _process := _process s;
     _codeFile := _codeFile s; _isTmpFile := _isTmpFile s;
     _languageId := _languageId s; _cwd := v; _config := _config s |}.

Definition set_config (v : option Config) (s : State) : State :=
  {| _terminal := _terminal s; _isRunning := _isRunning s; _process := _process s;
     _codeFile := _codeFile s; _isTmpFile := _isTmpFile s;
     _languageId := _languageId s; _cwd := _cwd s; _config := v |}.

(** *** The monad of a method: it changes the world and returns or throws;
    what it changed before it throws stays changed. *)

Definition M (A : Type) : Type := World -> completion A * World.

Definition ret {A : Type} (a : A) : M A := fun w => (Return a, w).

Definition throw {A : Type} : M A := fun w => (ThrowTypeError, w).

Definition bindM {A B : Type} (c : M A) (f : A -> M B) : M B :=
  fun w =>
    match c w with
    | (Return a, w') => f a w'
    | (ThrowTypeError, w') => (ThrowTypeError, w')
    end.

Definition get {A : Type} (f : State -> A) : M A := fun w => (Return (f (this w)), w).

Definition set (f : State -> State) : M unit := fun w => (Return tt, withThis f w).

Definition lift {A : Type} (c : completion A) : M A := fun w => (c, w).

Notation "'let*' x := c 'in' k" := (bindM c (fun x => k))
  (at level 10, x name, c at level 100, k at level 200).
Notation "c ;;; k" := (bindM c (fun _ => k))
  (at level 100, k at level 200, right associativity).

(** *** Collaborators *)

Definition showInformationMessage (message : string) : M unit :=
  fun w =>
    (Return tt,
     {| this := this w; notices := notices w ++ [message]; telemetry := telemetry w;
        outputChannel := outputChannel w; terminalInput := terminalInput w;
        terminals := terminals w; files := files w; children := children w;
        spawned := spawned w; killRequests := killRequests w;
        randomCalls := randomCalls w; pending := pending w |}).

Definition sendEvent (name : json) : M unit :=
  fun w =>
    (Return tt,
     {| this := this w; notices := notices w; telemetry := telemetry w ++ [name];
        outputChannel := outputChannel w; terminalInput := terminalInput w;
        terminals := terminals w; files := files w; children := children w;
        spawned := spawned w; killRequests := killRequests w;
        randomCalls := randomCalls w; pending := pending w |}).

Definition withOutput (f : string -> string) : M unit :=
  fun w =>
    (Return tt,
     {| this := this w; notices := notices w; telemetry := telemetry w;
        outputChannel := f (outputChannel w); terminalInput := terminalInput w;
        terminals := terminals w; files := files w; children := children w;
        spawned := spawned w; killRequests := killRequests w;
        randomCalls := randomCalls w; pending := pending w |}).

Definition outputClear : M unit := withOutput (fun _ => EmptyString).
Definition outputAppend (data : string) : M unit := withOutput (fun o => o ++ data).
Definition outputAppendLine (line : string) : M unit :=
  withOutput (fun o => o ++ line ++ String "010" EmptyString).

Definition withFiles (f : gmap string string -> gmap string string) : M unit :=
  fun w =>
    (Return tt,
     {| this := this w; notices := notices w; telemetry := telemetry w;
        outputChannel := outputChannel w; terminalInput := terminalInput w;
        terminals := terminals w; files := f (files w); children := children w;
        spawned := spawned w; killRequests := killRequests w;
        randomCalls := randomCalls w; pending := pending w |}).

(** [fs.writeFileSync(path, content)] *)
Definition writeFileSync (path content : string) : M unit :=
  withFiles (fun fs => <[path := content]> fs).

(** [fs.unlink(path)], called without callback: where the host requires
    the callback, the call throws and unlinks nothing. *)
Definition unlink (env : Env) (path : string) : M unit :=
  if unlinkNeedsCallback env then throw
  else withFiles (fun fs => delete path fs).

(** The call of an [async] method: its body runs up to its first [await]
    and the call returns a promise, also when the body throws, which
    rejects the promise; no caller of the class looks at the promise. *)
Definition async (body : M unit) : M unit :=
  fun w => (Return tt, snd (body w)).


(** [Math.random().toString(36)] *)
Definition nextRandom36 (env : Env) : M string :=
  fun w =>
    (Return (random36 env (randomCalls w)),
     {| this := this w; notices := notices w; telemetry := telemetry w;
        outputChannel := outputChannel w; terminalInput := terminalInput w;
        terminals := terminals w; files := files w; children := children w;
        spawned := spawned w; killRequests := killRequests w;
        randomCalls := S (randomCalls w); pending := pending w |}).

(** [vscode.window.createTerminal("Code")] *)
Definition createTerminal : M nat :=
  fun w =>
    (Return (terminals w),
     {| this := this w; notices := notices w; telemetry := telemetry w;
        outputChannel := outputChannel w; terminalInput := terminalInput w;
        terminals := S (terminals w); files := files w; children := children w;
        spawned := spawned w; killRequests := killRequests w;
        randomCalls := randomCalls w; pending := pending w |}).

(** [terminal.sendText(text)] *)
Definition sendText (terminal : nat) (text : string) : M unit :=
  fun w =>
    (Return tt,
     {| this := this w; notices := notices w; telemetry := telemetry w;
        outputChannel := outputChannel w;
        terminalInput := terminalInput w ++ [(terminal, text)];
        terminals := terminals w; files := files w; children := children w;
        spawned := spawned w; killRequests := killRequests w;
        randomCalls := randomCalls w; pending := pending w |}).

(** [require("child_process").exec(command, { cwd })]: the new child's pid. *)
Definition spawn (child : Child) : M nat :=
  fun w =>
    (Return (spawned w),
     {| this := this w; notices := notices w; telemetry := telemetry w;
        outputChannel := outputChannel w; terminalInput := terminalInput w;
        terminals := terminals w; files := files w;
        children := <[spawned w := child]> (children w);
        spawned := S (spawned w); killRequests := killRequests w;
        randomCalls := randomCalls w; pending := pending w |}).

(** The child has exited and its streams are closed. *)
Definition reap (pid : nat) : M unit :=
  fun w =>
    (Return tt,
     {| this := this w; notices := notices w; telemetry := telemetry w;
        outputChannel := outputChannel w; terminalInput := terminalInput w;
        terminals := terminals w; files := files w;
        children := delete pid (children w);
        spawned := spawned w; killRequests := killRequests w;
        randomCalls := randomCalls w; pending := pending w |}).

(** [require("tree-kill")(pid)]: the request to kill the process and its
    descendants; the processes end later. *)
Definition kill (pid : nat) : M unit :=
  fun w =>
    (Return tt,
     {| this := this w; notices := notices w; telemetry := telemetry w;
        outputChannel := outputChannel w; terminalInput := terminalInput w;
        terminals := terminals w; files := files w; children := children w;
        spawned := spawned w; killRequests := killRequests w ++ [pid];
        randomCalls := randomCalls w; pending := pending w |}).

(** [promise.then(k)] *)
Definition andThen (k : continuation) : M unit :=
  fun w =>
    (Return tt,
     {| this := this w; notices := notices w; telemetry := telemetry w;
        outputChannel := outputChannel w; terminalInput := terminalInput w;
        terminals := terminals w; files := files w; children := children w;
        spawned := spawned w; killRequests := killRequests w;
        randomCalls := randomCalls w; pending := pending w ++ [k] |}).

(** Takes the [i]-th pending continuation. *)
Definition takePending (i : nat) : M (option continuation) :=
  fun w =>
    (Return (nth_error (pending w) i),
     {| this := this w; notices := notices w; telemetry := telemetry w;
        outputChannel := outputChannel w; terminalInput := terminalInput w;
        terminals := terminals w; files := files w; children := children w;
        spawned := spawned w; killRequests := killRequests w;
        randomCalls := randomCalls w;
        pending := firstn i (pending w) ++ skipn (S i) (pending w) |}).

(** [this._config.get(...)]: reading a setting of an unset [_config] throws. *)
Definition setting {A : Type} (f : Config -> A) : M A :=
  let* c := get _config in
  match c with
  | Some c => ret (f c)
  | None => throw
  end.

(** *** The methods *)

Section Methods.
Variable env : Env.

Definition onDidCloseTerminal : M unit := set (set_terminal None).

Definition initialize (editor : option Editor) : M unit :=
  set (set_config (Some (config env))) ;;;
  let* cwd0 := setting cwd in
  set (set_cwd (Some cwd0)) ;;;
  if negb (Str.is_empty cwd0) then ret tt
  else
    let* fileDirectoryAsCwd := setting fileDirectoryAsCwd in
    (match editor with
     | Some e =>
         if (fileDirectoryAsCwd || negb (truthy_string (rootPath env)))
            && negb (isUntitled e)
         then set (set_cwd (Some (dirname env (fileName e))))
         else set (set_cwd (rootPath env))
     | None => set (set_cwd (rootPath env))
     end) ;;;
    let* cwd1 := get _cwd in
    if truthy_string cwd1 then ret tt
    else set (set_cwd (Some (TmpDir env))).

Definition createRandomFile (content : string) (folder : option string)
  (fileExtension : string) : M unit :=
  let* languageIdToFileExtensionMap := setting languageIdToFileExtensionMap in
  let* languageId := get _languageId in
  let* random := nextRandom36 env in
  let tmpFileName :=
    tmpFileName languageIdToFileExtensionMap languageId fileExtension random in
  match folder with
  | None => throw
  | Some folder =>
      let codeFile := join env folder tmpFileName in
      set (set_codeFile (Some codeFile)) ;;;
      writeFileSync codeFile content
  end.

Definition getExecutor (languageId : option string) (fileExtension : string)
  : M (option json) :=
  let* documentLanguageId :=
    match languageId with
    | Some _ => ret EmptyString
    | None =>
        match activeTextEditor env with
        | Some e => ret (Session.languageId e)
        | None => throw
        end
    end in
  set (set_languageId
         (Some (match languageId with Some l => l | None => documentLanguageId end))) ;;;
  let* executorMap := setting executorMap in
  let* executorMapByFileExtension := setting executorMapByFileExtension in
  let* defaultLanguage := setting defaultLanguage in
  let '(executor, effective) :=
    CodeManager.getExecutor executorMap executorMapByFileExtension
      defaultLanguage documentLanguageId languageId fileExtension in
  set (set_languageId (Some effective)) ;;;
  ret executor.

Definition getFinalCommandToRunCodeFile (executor : json) (appendFile : bool)
  : M string :=
  let* codeFile := get _codeFile in
  lift (CodeManager.getFinalCommandToRunCodeFileOf (rootPath env) codeFile
          executor appendFile).

Definition changeExecutorFromCmdToPs (executor : json) : M json :=
  lift (CodeManager.changeExecutorFromCmdToPsOf (platform env) (windowsShell env)
          executor).

Definition changeFilePathForBashOnWindows (command : string) : M string :=
  let* terminalRoot := setting terminalRoot in
  ret (CodeManager.changeFilePathForBashOnWindows (platform env) (windowsShell env)
         terminalRoot command).

(** The rest of [executeCommandInTerminal], from its [fileDirectoryAsCwd]
    test on. *)
Definition sendToTerminal (command : string) : M unit :=
  let* fileDirectoryAsCwd := setting fileDirectoryAsCwd in
  let* terminal := get _terminal in
  match terminal with
  | None => throw
  | Some t =>
      (if fileDirectoryAsCwd : bool then
         let* cwd0 := get _cwd in
         let* cwd1 := changeFilePathForBashOnWindows (to_string cwd0) in
         sendText t ("cd " ++ quoteFileName cwd1)
       else ret tt) ;;;
      sendText t command
  end.

(** [executeCommandInTerminal] is an [async] method: its body runs to its
    end, or up to the [await] of the clearing of the terminal, after
    which [sendToTerminal] is what is left of it. *)
Definition executeCommandInTerminal (executor : json) (appendFile : bool) : M unit :=
  async (
    let* terminal := get _terminal in
    let* isNewTerminal :=
      match terminal with
      | None => let* t := createTerminal in set (set_terminal (Some t)) ;;; ret true
      | Some _ => ret false
      end in
    let* executor := changeExecutorFromCmdToPs executor in
    sendEvent executor ;;;
    let* command := getFinalCommandToRunCodeFile executor appendFile in
    let* command := changeFilePathForBashOnWindows command in
    let* clearPreviousOutput := setting clearPreviousOutput in
    if clearPreviousOutput && negb isNewTerminal
    then andThen (ThenSendToTerminal command)
    else sendToTerminal command).

Definition executeCommandInOutputChannel (executor : json) (appendFile : bool)
  : M unit :=
  set (set_isRunning true) ;;;
  let* clearPreviousOutput := setting clearPreviousOutput in
  (if clearPreviousOutput : bool then outputClear else ret tt) ;;;
  let* showExecutionMessage := setting showExecutionMessage in
  let* command := getFinalCommandToRunCodeFile executor appendFile in
  (if showExecutionMessage : bool
   then outputAppendLine ("[Running] " ++ command) else ret tt) ;;;
  sendEvent executor ;;;
  let* cwd0 := get _cwd in
  let* pid := spawn {| childCommand := command; childCwd := cwd0;
                       childShowsDone := showExecutionMessage |} in
  set (set_process (Some pid)).

(** The handlers of the child's [stdout] and [stderr]. *)
Definition onData (pid : nat) (data : string) : M unit := outputAppend data.

(** The handler of the child's [close]; the exit code and the elapsed
    seconds come as they are printed. *)
Definition onClose (child : Child) (code elapsedTime : string) : M unit :=
  set (set_isRunning false) ;;;
  outputAppendLine EmptyString ;;;
  (if childShowsDone child then
     outputAppendLine ("[Done] exited with code=" ++ code ++ " in "
                         ++ elapsedTime ++ " seconds") ;;;
     outputAppendLine EmptyString
   else ret tt) ;;;
  let* isTmpFile := get _isTmpFile in
  if isTmpFile : bool then
    let* codeFile := get _codeFile in
    match codeFile with
    | Some f => unlink env f
    | None => throw
    end
  else ret tt.

Definition executeCommand (executor : json) (appendFile : bool) : M unit :=
  let* runInTerminal := setting runInTerminal in
  let* isTmpFile := get _isTmpFile in
  if runInTerminal && negb isTmpFile
  then executeCommandInTerminal executor appendFile
  else executeCommandInOutputChannel executor appendFile.

Definition getCodeFileAndExecute (editor : Editor) (fileExtension : string)
  (executor : json) (appendFile : bool) : M unit :=
  let* ignoreSelection := setting ignoreSelection in
  if (selectionIsEmpty editor || ignoreSelection) && negb (isUntitled editor) then
    set (set_isTmpFile false) ;;;
    set (set_codeFile (Some (fileName editor))) ;;;
    let* saveAllFilesBeforeRun := setting saveAllFilesBeforeRun in
    if saveAllFilesBeforeRun : bool
    then andThen (ThenExecuteCommand executor appendFile)
    else
      let* saveFileBeforeRun := setting saveFileBeforeRun in
      if saveFileBeforeRun : bool
      then andThen (ThenExecuteCommand executor appendFile)
      else executeCommand executor appendFile
  else
    let text :=
      if selectionIsEmpty editor || ignoreSelection
      then getText editor else getSelectedText editor in
    let* languageId := get _languageId in
    let text := textToRun languageId text in
    set (set_isTmpFile true) ;;;
    let* folder :=
      if isUntitled editor then get _cwd
      else ret (Some (dirname env (fileName editor))) in
    createRandomFile text folder fileExtension ;;;
    executeCommand executor appendFile.

Definition run (languageId : option string) : M unit :=
  let* isRunning := get _isRunning in
  if isRunning : bool then showInformationMessage "Code is already running!"
  else
    match activeTextEditor env with
    | None => showInformationMessage "No code found or selected."
    | Some editor =>
        initialize (Some editor) ;;;
        let fileExtension := getFileExtension (fileName editor) in
        let* executor := getExecutor languageId fileExtension in
        match executor with
        | None | Some JNull =>
            showInformationMessage "Code language not supported or defined."
        | Some executor => getCodeFileAndExecute editor fileExtension executor true
        end
    end.

Definition runCustomCommand : M unit :=
  let* isRunning := get _isRunning in
  if isRunning : bool then showInformationMessage "Code is already running!"
  else
    let editor := activeTextEditor env in
    initialize editor ;;;
    let* executor := setting customCommand in
    match editor with
    | Some editor =>
        let fileExtension := getFileExtension (fileName editor) in
        getCodeFileAndExecute editor fileExtension executor false
    | None => executeCommand executor false
    end.

Definition runByLanguage : M unit :=
  sendEvent "runByLanguage" ;;;
  andThen ThenRunPicked.

Definition stop : M unit :=
  sendEvent "stop" ;;;
  let* isRunning := get _isRunning in
  if isRunning : bool then
    set (set_isRunning false) ;;;
    let* process := get _process in
    match process with
    | Some pid => kill pid
    | None => throw
    end
  else ret tt.

(** *** The events the session reacts to *)

Inductive event : Type :=
| Run                                   (* the command [code-runner.run] *)
| RunCustomCommand
| RunByLanguage
| Stop
| TerminalClosed
| Fulfilled (i : nat) (value : option string)   (* the i-th pending promise *)
| ChildData (pid : nat) (data : string)
| ChildClosed (pid : nat) (code elapsedTime : string).

Definition resume (k : continuation) (value : option string) : M unit :=
  match k with
  | ThenExecuteCommand executor appendFile => executeCommand executor appendFile
  | ThenSendToTerminal command => sendToTerminal command
  | ThenRunPicked =>
      match value with
      | Some languageId => run (Some languageId)
      | None => ret tt
      end
  end.

Definition react (e : event) : M unit :=
  match e with
  | Run => run None
  | RunCustomCommand => runCustomCommand
  | RunByLanguage => runByLanguage
  | Stop => stop
  | TerminalClosed => onDidCloseTerminal
  | Fulfilled i value =>
      let* k := takePending i in
      match k with
      | Some k => resume k value
      | None => ret tt
      end
  | ChildData pid data =>
      fun w =>
        match children w !! pid with
        | Some _ => onData pid data w
        | None => (Return tt, w)
        end
  | ChildClosed pid code elapsedTime =>
      fun w =>
        match children w !! pid with
        | Some child => (reap pid ;;; onClose child code elapsedTime) w
        | None => (Return tt, w)
        end
  end.

(** The world after an event, whether its handler returned or threw. *)
Definition step (w : World) (e : event) : World := snd (react e w).

Definition steps (w : World) (es : list event) : World := fold_left step es w.

End Methods.

End Session.

(** ** Notions the properties are stated with *)

Module Notions.
Import Str Regex Js CodeManager.

(** A pattern is border free when none of its proper prefixes is also one
    of its suffixes: two occurrences of it never overlap. *)
Definition border_free (p : string) : bool :=
  forallb (fun k => negb (String.eqb (take k p) (drop (len p - k) p)))
          (seq 1 (len p - 1)).

(** A match seen from a longer input: [t] follows the input it was found in. *)
Definition followed_by (t : string) (m : match_result) : match_result :=
  MatchResult (m_before m) (m_text m) (m_after m ++ t) (m_caps m).

(** The six placeholders as the array lists them. *)
Definition sixPlaceholders (workspaceRoot withoutExt codeFile baseFile
  dirWithoutSlash codeFileDir : string) : list placeholder :=
  [ Placeholder "$workspaceRoot" workspaceRoot;
    Placeholder "$fileNameWithoutExt" withoutExt;
    Placeholder "$fullFileName" (quoteFileName codeFile);
    Placeholder "$fileName" baseFile;
    Placeholder "$dirWithoutTrailingSlash" (quoteFileName dirWithoutSlash);
    Placeholder "$dir" (quoteFileName codeFileDir) ].

(** The replacement a placeholder computes at a match. *)
Definition expansion (p : placeholder) : replaceFunction :=
  fun m => get_substitution m (replaceValue p).

(** C1, as the claim states it: any order of the placeholders gives the
    same command. *)
Definition order_independent : Prop :=
  forall (rootPath : option string) (codeFile executor : string)
         (ps ps' : list placeholder),
    placeholders rootPath codeFile = Return ps ->
    Permutation ps ps' ->
    applyPlaceholders ps' executor = applyPlaceholders ps executor.


(** What the matcher explores: [Matches r s cp s' cp'] when [r] can match
    from the input [s] with captures [cp] and leave the input [s'] with
    captures [cp']. *)
Inductive StarMatches (c : cclass) : string -> string -> Prop :=
| SM_stop (s : string) : StarMatches c s s
| SM_more (a : ascii) (s s' : string) :
    cclass_match c a = true -> StarMatches c s s' -> StarMatches c (String a s) s'.

Inductive Matches : regex -> string -> captures -> string -> captures -> Prop :=
| M_Empty (s : string) (cp : captures) : Matches REmpty s cp s cp
| M_Char (c : cclass) (a : ascii) (s : string) (cp : captures) :
    cclass_match c a = true -> Matches (RChar c) (String a s) cp s cp
| M_Star (c : cclass) (s s' : string) (cp : captures) :
    StarMatches c s s' -> Matches (RStar c) s cp s' cp
| M_Seq (r1 r2 : regex) (s s1 s2 : string) (cp cp1 cp2 : captures) :
    Matches r1 s cp s1 cp1 -> Matches r2 s1 cp1 s2 cp2 ->
    Matches (RSeq r1 r2) s cp s2 cp2
| M_Group (n : nat) (r : regex) (s s' : string) (cp cp' : captures) :
    Matches r s cp s' cp' ->
    Matches (RGroup n r) s cp s' ((n, consumed s s') :: cp')
| M_Ahead (r : regex) (s : string) (cp cp' : captures) :
    exec r s cp (fun _ c => Some c) = Some cp' -> Matches (RAhead r) s cp s cp'
| M_End (cp : captures) : Matches REnd EmptyString cp EmptyString cp.

(** [x] occurs in [s]. *)
Definition infix (x s : string) : Prop := exists a b, s = a ++ x ++ b.

Definition is_separator (a : ascii) : bool := Ascii.eqb a "/" || Ascii.eqb a "\".

Definition is_dollar (a : ascii) : bool := Ascii.eqb a "$".

(** No character of [s] satisfies [f]. *)
Definition none (f : ascii -> bool) (s : string) : bool :=
  Str.all (fun a => negb (f a)) s.

(** A separator of [s] is followed by a dot, with no line terminator
    between the two. *)
Definition separator_then_dot (s : string) : Prop :=
  exists a c b d,
    s = a ++ String c (b ++ String "." d)
    /\ is_separator c = true /\ none is_line_terminator b = true.



(** The texts of the six placeholders. *)
Definition placeholderNames : list string :=
  [ "$workspaceRoot"; "$fileNameWithoutExt"; "$fullFileName"; "$fileName";
    "$dirWithoutTrailingSlash"; "$dir" ].

(** C3, as the claim states it. *)
Definition append_rule : Prop :=
  forall (rootPath : option string) (codeFile executor : string),
    ((forall name, In name placeholderNames -> Str.contains name executor = false) ->
     getFinalCommandToRunCodeFile rootPath (Some codeFile) executor true
       = Return (executor ++ " " ++ quoteFileName codeFile)
     /\ getFinalCommandToRunCodeFile rootPath (Some codeFile) executor false
       = Return executor)
    /\ (Str.contains "$fileName" executor = true ->
        (forall name, In name placeholderNames -> name <> "$fileName" ->
                      Str.contains name executor = false) ->
        getFinalCommandToRunCodeFile rootPath (Some codeFile) executor true
        = getFinalCommandToRunCodeFile rootPath (Some codeFile) executor false).

(** *** The platform adapters, in the words of the specification *)

(** The conditional chain: the first [&&] becomes [; if ($?) {], every
    later one [} ; if ($?) {]; [first] tells whether none was met yet. *)
Fixpoint conditionalChain (first : bool) (s : string) : string :=
  match s with
  | EmptyString => EmptyString
  | String a s1 =>
      match s1 with
      | String b s2 =>
          if Ascii.eqb a "&" && Ascii.eqb b "&"
          then (if first then "; if ($?) {" else "} ; if ($?) {")
               ++ conditionalChain false s2
          else String a (conditionalChain first s1)
      | EmptyString => s
      end
  end.

(** The chain with its first [&&] converted only. *)
Fixpoint firstChain (s : string) : string :=
  match s with
  | EmptyString => EmptyString
  | String a s1 =>
      match s1 with
      | String b s2 =>
          if Ascii.eqb a "&" && Ascii.eqb b "&"
          then "; if ($?) {" ++ s2
          else String a (firstChain s1)
      | EmptyString => s
      end
  end.

Definition is_ampersand (a : ascii) : bool := Ascii.eqb a "&".

(** Every [$dir$fileNameWithoutExt] becomes the relative form. *)
Definition relativeForm (s : string) : string :=
  replace_all_lit "$dir$fileNameWithoutExt" ".\$fileNameWithoutExt" s.

(** C5, as the claim states it, the closing text taken as the code
    writes it: on a shell whose name contains [powershell], a command
    with an [&&] is converted. *)
Definition converts_every_chain : Prop :=
  forall windowsShell executor : string,
    Str.contains "powershell" windowsShell = true ->
    Str.contains "&&" executor = true ->
    changeExecutorFromCmdToPs "win32" windowsShell executor
    = relativeForm (conditionalChain true executor) ++ " }".

Definition slash (a : ascii) : ascii := if Ascii.eqb a "\" then "/"%char else a.

(** All backslashes become forward slashes. *)
Definition slashes (s : string) : string := Str.map slash s.

Definition is_letter (a : ascii) : bool :=
  in_range a ("A"%char, "Z"%char) || in_range a ("a"%char, "z"%char).

(** Every drive-letter prefix becomes the given prefix, the lower-case
    drive letter and a slash; every other backslash becomes a slash. *)
Fixpoint shellPath (prefix : string) (s : string) : string :=
  match s with
  | EmptyString => EmptyString
  | String a s1 =>
      match s1 with
      | String b (String c s3) =>
          if is_letter a && Ascii.eqb b ":" && Ascii.eqb c "\"
          then prefix ++ String (lower a) (String "/" (shellPath prefix s3))
          else String (slash a) (shellPath prefix s1)
      | _ => String (slash a) (shellPath prefix s1)
      end
  end.

(** C9, as the claim states its first branch: a configured terminal root
    alone selects the rewriting. *)
Definition terminal_root_rewrites : Prop :=
  forall windowsShell terminalRoot command : string,
    terminalRoot <> EmptyString ->
    changeFilePathForBashOnWindows "win32" windowsShell terminalRoot command
    = shellPath terminalRoot command.

(** *** The temporary file *)







End Notions.

(** ** Notions about the session *)

Module SessionNotions.
Import Regex Js CodeManager Session.

(** A method keeps a property of the world, whether it returns or throws. *)
Definition maintains {A : Type} (P : World -> Prop) (c : M A) : Prop :=
  forall w, P w -> P (snd (c w)).

Definition running (w : World) : Prop := _isRunning (this w) = true.

(** A method leaves an observation of the world as it is, whether it
    returns or throws. *)
Definition preserves {A X : Type} (obs : World -> X) (c : M A) : Prop :=
  forall w, obs (snd (c w)) = obs w.

(** The file system and the fields that name the code file. *)
Definition codeFileView (w : World) : gmap string string * option string * bool :=
  (files w, _codeFile (this w), _isTmpFile (this w)).

(** The child processes and the requests to kill some. *)
Definition processView (w : World) : gmap nat Child * nat * list nat :=
  (children w, spawned w, killRequests w).

(** C7, the invariant: at most one run of the output channel is in
    flight. *)
Definition oneRunAtMost (w : World) : Prop := size (children w) <= 1.

(** The language id a run is asked for: the one given, else the one of
    the active document. *)
Definition requestedLanguage (env : Env) (languageId : option string)
  : option string :=
  match languageId with
  | Some l => Some l
  | None =>
      match activeTextEditor env with
      | Some e => Some (Session.languageId e)
      | None => None
      end
  end.

(** [getExecutor] returns [executor] and leaves [effective] in
    [_languageId], the world otherwise as it was. *)
Definition resolves (env : Env) (w : World) (languageId : option string)
  (fileExtension : string) (executor : option json) (effective : string) : Prop :=
  Session.getExecutor env languageId fileExtension w
  = (Return executor, withThis (set_languageId (Some effective)) w).



(** A session with a saved Python file open and the settings at their
    defaults, but for the executor of Python. *)
Definition pythonConfig : Config :=
  {| executorMap := {[ "python" := JString "python -u" ]};
     executorMapByFileExtension := ∅;
     languageIdToFileExtensionMap := ∅;
     defaultLanguage := EmptyString;
     customCommand := "echo Hello";
     cwd := EmptyString;
     fileDirectoryAsCwd := false;
     ignoreSelection := false;
     saveAllFilesBeforeRun := false;
     saveFileBeforeRun := false;
     runInTerminal := false;
     clearPreviousOutput := false;
     showExecutionMessage := true;
     terminalRoot := EmptyString |}.

Definition pythonEditor : Editor :=
  {| fileName := "/home/u/a.py";
     isUntitled := false;
     languageId := "python";
     getText := "while True: pass";
     selectionIsEmpty := true;
     getSelectedText := EmptyString |}.

Definition pythonEnv (c : Config) : Env :=
  {| config := c;
     activeTextEditor := Some pythonEditor;
     rootPath := Some "/home/u";
     platform := "linux";
     windowsShell := EmptyString;
     TmpDir := "/tmp";
     dirname := fun _ => "/home/u";
     join := fun folder name => folder ++ "/" ++ name;
     random36 := fun _ => "0.4fzyo82mvyr";
     unlinkNeedsCallback := false |}.

(** A document of a language whose id is the name of an inherited
    member, with an executor configured for its extension only. *)
Definition constructorEditor : Editor :=
  {| fileName := "/home/u/a.rb";
     isUntitled := false;
     languageId := "constructor";
     getText := "puts 1";
     selectionIsEmpty := true;
     getSelectedText := EmptyString |}.

Definition rubyConfig : Config :=
  {| executorMap := {[ "python" := JString "python -u" ]};
     executorMapByFileExtension := {[ ".rb" := JString "ruby" ]};
     languageIdToFileExtensionMap := ∅;
     defaultLanguage := "python";
     customCommand := "echo Hello";
     cwd := EmptyString;
     fileDirectoryAsCwd := false;
     ignoreSelection := false;
     saveAllFilesBeforeRun := false;
     saveFileBeforeRun := false;
     runInTerminal := false;
     clearPreviousOutput := false;
     showExecutionMessage := true;
     terminalRoot := EmptyString |}.

Definition constructorEnv : Env :=
  {| config := rubyConfig;
     activeTextEditor := Some constructorEditor;
     rootPath := Some "/home/u";
     platform := "linux";
     windowsShell := EmptyString;
     TmpDir := "/tmp";
     dirname := fun _ => "/home/u";
     join := fun folder name => folder ++ "/" ++ name;
     random36 := fun _ => "0.4fzyo82mvyr";
     unlinkNeedsCallback := false |}.

(** A file without extension, run by [make]. *)
Definition makefileEditor : Editor :=
  {| fileName := "/home/u/Makefile";
     isUntitled := false;
     languageId := "makefile";
     getText := "all:";
     selectionIsEmpty := true;
     getSelectedText := EmptyString |}.

Definition makefileConfig : Config :=
  {| executorMap := {[ "makefile" := JString "make -f" ]};
     executorMapByFileExtension := ∅;
     languageIdToFileExtensionMap := ∅;
     defaultLanguage := EmptyString;
     customCommand := "echo Hello";
     cwd := EmptyString;
     fileDirectoryAsCwd := false;
     ignoreSelection := false;
     saveAllFilesBeforeRun := false;
     saveFileBeforeRun := false;
     runInTerminal := false;
     clearPreviousOutput := false;
     showExecutionMessage := true;
     terminalRoot := EmptyString |}.

Definition makefileEnv : Env :=
  {| config := makefileConfig;
     activeTextEditor := Some makefileEditor;
     rootPath := Some "/home/u";
     platform := "linux";
     windowsShell := EmptyString;
     TmpDir := "/tmp";
     dirname := fun _ => "/home/u";
     join := fun folder name => folder ++ "/" ++ name;
     random36 := fun _ => "0.4fzyo82mvyr";
     unlinkNeedsCallback := false |}.

(** The same settings with [saveFileBeforeRun] set. *)
Definition savingConfig : Config :=
  {| executorMap := executorMap pythonConfig;
     executorMapByFileExtension := ∅;
     languageIdToFileExtensionMap := ∅;
     defaultLanguage := EmptyString;
     customCommand := "echo Hello";
     cwd := EmptyString;
     fileDirectoryAsCwd := false;
     ignoreSelection := false;
     saveAllFilesBeforeRun := false;
     saveFileBeforeRun := true;
     runInTerminal := false;
     clearPreviousOutput := false;
     showExecutionMessage := true;
     terminalRoot := EmptyString |}.

(** An untitled [php] document with a selection. *)
Definition phpEditor : Editor :=
  {| fileName := "Untitled-1";
     isUntitled := true;
     languageId := "php";
     getText := "echo 1; echo 2;";
     selectionIsEmpty := false;
     getSelectedText := " echo 1; " |}.

Definition phpConfig : Config :=
  {| executorMap := {[ "php" := JString "php" ]};
     executorMapByFileExtension := ∅;
     languageIdToFileExtensionMap := ∅;
     defaultLanguage := EmptyString;
     customCommand := "echo Hello";
     cwd := EmptyString;
     fileDirectoryAsCwd := false;
     ignoreSelection := false;
     saveAllFilesBeforeRun := false;
     saveFileBeforeRun := false;
     runInTerminal := false;
     clearPreviousOutput := false;
     showExecutionMessage := true;
     terminalRoot := EmptyString |}.

Definition phpEnv : Env :=
  {| config := phpConfig;
     activeTextEditor := Some phpEditor;
     rootPath := Some "/home/u";
     platform := "linux";
     windowsShell := EmptyString;
     TmpDir := "/tmp";
     dirname := fun _ => "/home/u";
     join := fun folder name => folder ++ "/" ++ name;
     random36 := fun _ => "0.4fzyo82mvyr";
     unlinkNeedsCallback := false |}.

End SessionNotions.

(** ** Notions for the rest of the code *)

Module MoreNotions.
Import Str Regex Js CodeManager Notions Session SessionNotions.

(** [a] is the last separator of a path without line terminators: [d]
    comes before it and [b] after it. *)
Definition lastSeparatorSplit (codeFile d : string) (a : ascii) (b : string) : Prop :=
  codeFile = d ++ String a b
  /\ is_separator a = true
  /\ none is_separator b = true
  /\ none is_line_terminator codeFile = true.

Definition is_dot (a : ascii) : bool := Ascii.eqb a ".".

(** What a run in the terminal has no part in: the child processes,
    the file system, the output channel and the running flag. *)
Definition outputChannelView (w : World)
  : gmap nat Child * nat * list nat * gmap string string * string * bool * option nat :=
  (children w, spawned w, killRequests w, files w, outputChannel w,
   _isRunning (this w), _process (this w)).

(** All of the world but the fields of the class and the notices. *)
Definition hostView (w : World)
  : list json * string * list (nat * string) * nat * gmap string string
    * gmap nat Child * nat * list nat * nat * list continuation :=
  (telemetry w, outputChannel w, terminalInput w, terminals w, files w,
   children w, spawned w, killRequests w, randomCalls w, pending w).

(** The directory [initialize] chooses. *)
Definition workingDirectory (env : Env) (editor : option Editor) : string :=
  if negb (Str.is_empty (cwd (config env))) then cwd (config env)
  else
    let candidate :=
      match editor with
      | Some e =>
          if (fileDirectoryAsCwd (config env) || negb (truthy_string (rootPath env)))
             && negb (isUntitled e)
          then Some (dirname env (fileName e))
          else rootPath env
      | None => rootPath env
      end in
    if truthy_string candidate then to_string candidate else TmpDir env.

(** *** The output of a child *)

Definition newline : string := String "010" EmptyString.

(** What the handlers of [data] append for the chunks [ds]. *)
Definition concatData (ds : list string) : string :=
  fold_right String.append EmptyString ds.

(** What the handler of [close] appends. *)
Definition doneLines (showsDone : bool) (code elapsedTime : string) : string :=
  newline
  ++ (if showsDone
      then "[Done] exited with code=" ++ code ++ " in " ++ elapsedTime ++ " seconds"
           ++ newline ++ newline
      else EmptyString).

(** *** The terminal *)


(** *** Characters of the shells *)

Definition is_open_brace (a : ascii) : bool := Ascii.eqb a "{".
Definition is_close_brace (a : ascii) : bool := Ascii.eqb a "}".
Definition is_backslash (a : ascii) : bool := Ascii.eqb a "\".

(** *** The files a step touches *)

(** From [w] to [w'] one file was written, and [w'] tracks it as its
    temporary file. *)
Definition writesTemporary (w w' : World) : Prop :=
  exists f content,
    files w' = <[f := content]> (files w)
    /\ _codeFile (this w') = Some f
    /\ _isTmpFile (this w') = true.

(** From [w] to [w'] the file that [w] tracks as its temporary file was
    deleted. *)
Definition deletesTemporary (w w' : World) : Prop :=
  exists f,
    _codeFile (this w) = Some f
    /\ _isTmpFile (this w) = true
    /\ files w' = delete f (files w).

(** *** Examples *)

(** The settings of [pythonConfig] with [runInTerminal] and
    [clearPreviousOutput] set. *)
Definition terminalConfig : Config :=
  {| executorMap := executorMap pythonConfig;
     executorMapByFileExtension := ∅;
     languageIdToFileExtensionMap := ∅;
     defaultLanguage := EmptyString;
     customCommand := "echo $fileName";
     cwd := EmptyString;
     fileDirectoryAsCwd := false;
     ignoreSelection := false;
     saveAllFilesBeforeRun := false;
     saveFileBeforeRun := false;
     runInTerminal := true;
     clearPreviousOutput := true;
     showExecutionMessage := true;
     terminalRoot := EmptyString |}.

(** The host of [phpEnv] on a Node that requires the callback of
    [fs.unlink]. *)
Definition callbackPhpEnv : Env :=
  {| config := phpConfig;
     activeTextEditor := Some phpEditor;
     rootPath := Some "/home/u";
     platform := "linux";
     windowsShell := EmptyString;
     TmpDir := "/tmp";
     dirname := fun _ => "/home/u";
     join := fun folder name => folder ++ "/" ++ name;
     random36 := fun _ => "0.4fzyo82mvyr";
     unlinkNeedsCallback := true |}.

(** A host without active editor. *)
Definition noEditorEnv (c : Config) : Env :=
  {| config := c;
     activeTextEditor := None;
     rootPath := Some "/home/u";
     platform := "linux";
     windowsShell := EmptyString;
     TmpDir := "/tmp";
     dirname := fun _ => "/home/u";
     join := fun folder name => folder ++ "/" ++ name;
     random36 := fun _ => "0.4fzyo82mvyr";
     unlinkNeedsCallback := false |}.

End MoreNotions.

(** * Facts *)

(** ** Strings *)

Module StrFacts.
Import Str.

Lemma app_nil_r (s : string) : s ++ EmptyString = s.
Proof. induction s as [|a s IH]; simpl; [reflexivity | now rewrite IH]. Qed.

Lemma app_assoc (s t u : string) : (s ++ t) ++ u = s ++ (t ++ u).
Proof. induction s as [|a s IH]; simpl; [reflexivity | now rewrite IH]. Qed.

Lemma len_app (s t : string) : len (s ++ t) = len s + len t.
Proof. induction s as [|a s IH]; simpl; [reflexivity | unfold len in *; simpl; now rewrite IH]. Qed.

Lemma snoc_app (s t : string) (a : ascii) : snoc s a ++ t = s ++ String a t.
Proof. unfold snoc. now rewrite app_assoc. Qed.

Lemma app_inv_head (s t u : string) : s ++ t = s ++ u -> t = u.
Proof. induction s as [|a s IH]; simpl; intros H; [assumption | injection H; auto]. Qed.

Lemma strip_app (p s : string) : strip p (p ++ s) = Some s.
Proof.
  induction p as [|a p IH]; simpl; [reflexivity|].
  now rewrite Ascii.eqb_refl.
Qed.

Lemma strip_Some (p s s' : string) : strip p s = Some s' -> s = p ++ s'.
Proof.
  revert s; induction p as [|a p IH]; simpl; intros s H.
  - now injection H.
  - destruct s as [|b s]; [discriminate|].
    destruct (Ascii.eqb_spec a b) as [->|]; [|discriminate].
    now rewrite (IH _ H).
Qed.

Lemma strip_None (p s : string) : strip p s = None -> forall s', s <> p ++ s'.
Proof. intros H s' ->. now rewrite strip_app in H. Qed.

Lemma take_app (p s : string) : take (len p) (p ++ s) = p.
Proof. induction p as [|a p IH]; simpl; [now destruct s | now rewrite IH]. Qed.

Lemma drop_app (p s : string) : drop (len p) (p ++ s) = s.
Proof. induction p as [|a p IH]; simpl; [now destruct s | assumption]. Qed.

Lemma take_drop (n : nat) (s : string) : take n s ++ drop n s = s.
Proof.
  revert s; induction n as [|n IH]; intros [|a s]; simpl; try reflexivity.
  now rewrite IH.
Qed.

Lemma len_take (n : nat) (s : string) : n <= len s -> len (take n s) = n.
Proof.
  revert s; induction n as [|n IH]; intros [|a s]; unfold len; simpl; intros H;
    try reflexivity; try lia.
  f_equal. apply IH. unfold len. lia.
Qed.

Lemma starts_with_app (p s : string) : starts_with (p ++ s) p = true.
Proof. unfold starts_with. now rewrite strip_app. Qed.

Lemma starts_with_true (p s : string) :
  starts_with s p = true -> exists s', s = p ++ s'.
Proof.
  unfold starts_with. destruct (strip p s) as [s'|] eqn:E; [|discriminate].
  intros _. exists s'. now apply strip_Some.
Qed.

Lemma contains_app (p a b : string) : contains p (a ++ p ++ b) = true.
Proof.
  induction a as [|c a IH]; simpl.
  - destruct (p ++ b) eqn:E; simpl; rewrite <- E, starts_with_app; reflexivity.
  - rewrite IH. apply orb_true_r.
Qed.

Lemma contains_true (p s : string) :
  contains p s = true -> exists a b, s = a ++ p ++ b.
Proof.
  induction s as [|c s IH]; simpl; intros H.
  - rewrite orb_false_r in H. apply starts_with_true in H as [s' ->].
    exists EmptyString, s'. reflexivity.
  - apply orb_true_iff in H as [H|H].
    + apply starts_with_true in H as [s' ->]. exists EmptyString, s'. reflexivity.
    + destruct (IH H) as (a & b & ->). exists (String c a), b. reflexivity.
Qed.

Lemma contains_false_head (p s : string) :
  contains p s = false -> strip p s = None.
Proof.
  intros H. destruct s; simpl in H; apply orb_false_iff in H as [H _];
    unfold starts_with in H; now destruct (strip p _).
Qed.

Lemma contains_false_tail (p s : string) (a : ascii) :
  contains p (String a s) = false -> contains p s = false.
Proof. simpl. intros H. now apply orb_false_iff in H as [_ H]. Qed.

Lemma count_app (f : ascii -> bool) (s t : string) :
  count f (s ++ t) = count f s + count f t.
Proof. induction s as [|a s IH]; simpl; [reflexivity | rewrite IH; lia]. Qed.

Lemma map_app (f : ascii -> ascii) (s t : string) :
  map f (s ++ t) = map f s ++ map f t.
Proof. induction s as [|a s IH]; simpl; [reflexivity | now rewrite IH]. Qed.

Lemma all_app (f : ascii -> bool) (s t : string) :
  all f (s ++ t) = all f s && all f t.
Proof.
  induction s as [|a s IH]; simpl; [reflexivity|].
  rewrite IH. now rewrite andb_assoc.
Qed.

(** Two ways to split one string: the shorter first part is a prefix of
    the longer one. *)
Lemma app_eq_app (a y p z : string) :
  a ++ y = p ++ z -> len a <= len p -> exists x, p = a ++ x /\ y = x ++ z.
Proof.
  revert p; induction a as [|c a IH]; simpl; intros p H Hl.
  - exists p. split; [reflexivity | assumption].
  - destruct p as [|d p]; [unfold len in Hl; simpl in Hl; lia|].
    simpl in H. injection H as -> H.
    destruct (IH p H) as (x & -> & ->); [unfold len in *; simpl in Hl; lia|].
    exists x. split; reflexivity.
Qed.

End StrFacts.

(** ** The matcher on literal patterns *)

Module RegexFacts.
Import Str StrFacts Regex Notions.

Lemma consumed_app (p s : string) : consumed (p ++ s) s = p.
Proof.
  unfold consumed. rewrite len_app.
  replace (len p + len s - len s) with (len p) by lia.
  apply take_app.
Qed.

Lemma exec_lit {R : Type} (p s : string) (cp : captures)
  (k : string -> captures -> option R) :
  exec (lit p) s cp k =
  match strip p s with
  | Some s' => k s' cp
  | None => None
  end.
Proof.
  revert s; induction p as [|a p IH]; intros s; simpl; [reflexivity|].
  destruct s as [|b s]; [reflexivity|].
  rewrite (Ascii.eqb_sym b a).
  destruct (Ascii.eqb a b); [apply IH | reflexivity].
Qed.

Lemma match_here_lit (p before s : string) :
  match_here (lit p) before s =
  match strip p s with
  | Some s' => Some (MatchResult before p s' [])
  | None => None
  end.
Proof.
  unfold match_here. rewrite exec_lit.
  destruct (strip p s) as [s'|] eqn:E; [|reflexivity].
  apply strip_Some in E as ->. now rewrite consumed_app.
Qed.

Lemma replace_from_skip (r : regex) (f : replaceFunction) (before a s : string) :
  replace_from r f before (a ++ s) (len a) = replace_from r f (before ++ a) s 0.
Proof.
  revert before; induction a as [|c a IH]; intros before; simpl.
  - rewrite app_nil_r. destruct s; reflexivity.
  - rewrite IH, snoc_app. reflexivity.
Qed.

(** One step of a global replacement of a literal pattern. *)
Lemma replace_from_lit (p : string) (f : replaceFunction) (before s : string) :
  p <> EmptyString ->
  replace_from (lit p) f before s 0 =
  match strip p s with
  | Some s' => f (MatchResult before p s' []) ++ replace_from (lit p) f (before ++ p) s' 0
  | None =>
      match s with
      | String a s1 => String a (replace_from (lit p) f (snoc before a) s1 0)
      | EmptyString => EmptyString
      end
  end.
Proof.
  intros Hp. destruct s as [|a s1].
  - simpl. rewrite match_here_lit.
    destruct p as [|c p]; [contradiction|]. reflexivity.
  - cbn [replace_from]. rewrite match_here_lit.
    destruct (strip p (String a s1)) as [s'|] eqn:E; [|reflexivity].
    cbn [m_text]. destruct p as [|c p]; [contradiction|].
    apply strip_Some in E. simpl in E. injection E as <- ->.
    cbn [is_empty]. f_equal.
    replace (len (String a p) - 1) with (len p) by (unfold len; simpl; lia).
    rewrite replace_from_skip, snoc_app. reflexivity.
Qed.

Lemma border_free_spec (p x y : string) :
  border_free p = true -> p = x ++ y -> x <> EmptyString -> y <> EmptyString ->
  forall z, p <> y ++ z.
Proof.
  intros Hb -> Hx Hy z Hz.
  unfold border_free in Hb. rewrite forallb_forall in Hb.
  assert (Hlen : len x = len z).
  { apply (f_equal len) in Hz. rewrite !len_app in Hz. lia. }
  assert (Hyl : 0 < len y) by (destruct y; [contradiction | unfold len; simpl; lia]).
  assert (Hxl : 0 < len x) by (destruct x; [contradiction | unfold len; simpl; lia]).
  specialize (Hb (len y)).
  assert (Hin : In (len y) (seq 1 (len (x ++ y) - 1))).
  { apply in_seq. rewrite len_app. lia. }
  specialize (Hb Hin). apply negb_true_iff, String.eqb_neq in Hb. apply Hb.
  rewrite Hz at 1. rewrite take_app.
  rewrite len_app. replace (len x + len y - len y) with (len x) by lia.
  now rewrite drop_app.
Qed.

(** Global replacement reaches every occurrence of a border-free pattern:
    at an occurrence, the result is the replacement of the text before
    it, the replacement computed for this occurrence, and the
    replacement of the text after it. *)
Lemma replace_from_occurrence (p : string) (f : replaceFunction) :
  p <> EmptyString -> border_free p = true ->
  forall a before b,
    replace_from (lit p) f before (a ++ p ++ b) 0 =
    replace_from (lit p) (fun m => f (followed_by (p ++ b) m)) before a 0
    ++ f (MatchResult (before ++ a) p b [])
    ++ replace_from (lit p) f (before ++ a ++ p) b 0.
Proof.
  intros Hp Hb a.
  remember (len a) as n eqn:Hn.
  revert a Hn. induction (lt_wf n) as [n _ IH]. intros a Hn before b.
  rewrite (replace_from_lit p f before (a ++ p ++ b) Hp).
  destruct a as [|c a].
  - change (EmptyString ++ p ++ b) with (p ++ b).
    rewrite strip_app, app_nil_r.
    rewrite (replace_from_lit p _ before EmptyString Hp).
    destruct p; [contradiction|]. reflexivity.
  - rewrite (replace_from_lit p _ before (String c a) Hp).
    destruct (strip p (String c a ++ p ++ b)) as [s'|] eqn:E.
    + apply strip_Some in E.
      destruct (le_lt_dec (len p) (len (String c a))) as [Hle|Hlt].
      * symmetry in E. destruct (app_eq_app _ _ _ _ E Hle) as (x & Hx & Hs').
        rewrite Hx, strip_app. subst s'.
        assert (Hxl : len x < n).
        { subst n. rewrite Hx, len_app.
          destruct p; [contradiction | unfold len; simpl; lia]. }
        rewrite (IH (len x) Hxl x eq_refl (before ++ p) b).
        unfold followed_by at 2. cbn [m_before m_text m_after m_caps].
        rewrite !app_assoc. reflexivity.
      * exfalso.
        assert (Hle : len (String c a) <= len p) by lia.
        destruct (app_eq_app _ _ _ _ E Hle) as (x & Hx & Hs').
        assert (Hxne : x <> EmptyString).
        { intros ->. rewrite app_nil_r in Hx. subst p. lia. }
        assert (Hxlen : len x < len p).
        { pose proof (f_equal len Hx) as Hx'. rewrite len_app in Hx'.
          unfold len in *; simpl in *; lia. }
        assert (Hxp : exists z, p = x ++ z).
        { symmetry in Hs'. destruct (app_eq_app x s' p b Hs') as (z & Hz & _); [lia|].
          now exists z. }
        destruct Hxp as (z & Hz).
        exact (border_free_spec p (String c a) x Hb Hx ltac:(discriminate) Hxne z Hz).
    + destruct (strip p (String c a)) as [s''|] eqn:E'.
      { apply strip_Some in E'. rewrite E' in E.
        rewrite app_assoc, strip_app in E. discriminate. }
      simpl. f_equal.
      assert (Hal : len a < n) by (subst n; unfold len; simpl; lia).
      rewrite (IH (len a) Hal a eq_refl (snoc before c) b).
      rewrite !snoc_app. reflexivity.
Qed.

(** Where the pattern does not occur, nothing is replaced. *)
Lemma replace_from_absent (p : string) (f : replaceFunction) (s : string) :
  p <> EmptyString -> contains p s = false ->
  forall before, replace_from (lit p) f before s 0 = s.
Proof.
  intros Hp. induction s as [|a s IH]; intros H before;
    rewrite (replace_from_lit p f before _ Hp), (contains_false_head _ _ H).
  - reflexivity.
  - f_equal. apply IH. now apply contains_false_tail in H.
Qed.

(** A replacement that does not look at the match does not depend on
    what surrounds the text it is applied to. *)
Lemma replace_from_constant (p v : string) (f g : replaceFunction) :
  p <> EmptyString -> (forall m, f m = v) -> (forall m, g m = v) ->
  forall n s before before', len s <= n ->
    replace_from (lit p) f before s 0 = replace_from (lit p) g before' s 0.
Proof.
  intros Hp Hf Hg. induction n as [|n IH]; intros s before before' Hn;
    rewrite (replace_from_lit p f before s Hp),
            (replace_from_lit p g before' s Hp).
  - destruct s; [|unfold len in Hn; simpl in Hn; lia].
    destruct p; [contradiction | reflexivity].
  - destruct (strip p s) as [s'|] eqn:E.
    + apply strip_Some in E as ->.
      assert (Hl : len s' <= n).
      { rewrite len_app in Hn. destruct p; [contradiction|].
        unfold len in *; simpl in *; lia. }
      rewrite Hf, Hg, (IH s' (before ++ p) (before' ++ p) Hl). reflexivity.
    + destruct s as [|a s]; [reflexivity|].
      assert (Hl : len s <= n) by (unfold len in *; simpl in *; lia).
      rewrite (IH s (snoc before a) (snoc before' a) Hl). reflexivity.
Qed.

End RegexFacts.

(** ** The command builder *)

Module BuilderFacts.
Import Str StrFacts Regex RegexFacts Js CodeManager Notions.

Lemma placeholders_Return (rootPath : option string) (codeFile : string)
  (ps : list placeholder) :
  placeholders rootPath codeFile = Return ps ->
  exists codeFileDir withoutExt baseFile dirWithoutSlash,
    getCodeFileDir codeFile = Return codeFileDir
    /\ getCodeFileWithoutDirAndExt codeFile = Return withoutExt
    /\ getCodeBaseFile codeFile = Return baseFile
    /\ getCodeFileDirWithoutTrailingSlash codeFile = Return dirWithoutSlash
    /\ ps = sixPlaceholders (getWorkspaceRoot rootPath codeFileDir) withoutExt
              codeFile baseFile dirWithoutSlash codeFileDir.
Proof.
  unfold placeholders, mbind, completion_bind.
  destruct (getCodeFileDir codeFile) as [d|] eqn:Ed; [|discriminate]. cbn [bind].
  destruct (getCodeFileWithoutDirAndExt codeFile) as [e|] eqn:Ee; [|discriminate].
  cbn [bind].
  destruct (getCodeBaseFile codeFile) as [b|] eqn:Eb; [|discriminate]. cbn [bind].
  destruct (getCodeFileDirWithoutTrailingSlash codeFile) as [t|] eqn:Et;
    [|discriminate]. cbn [bind].
  intros H. injection H as <-. now exists d, e, b, t.
Qed.

(** C1 fails as stated: on [/home/u/a.py] the template
    [run $fileNameWithoutExt] becomes [run a] in the order of the array
    and [run a.pyWithoutExt] in the reverse order, where [$fileName] is
    applied before [$fileNameWithoutExt]. *)
Lemma placeholders_order_matters : ~ order_independent.
Proof.
  intros H.
  specialize (H None "/home/u/a.py" "run $fileNameWithoutExt"
                (sixPlaceholders "/home/u/" "a" "/home/u/a.py" "a.py" "/home/u" "/home/u/")
                (rev (sixPlaceholders "/home/u/" "a" "/home/u/a.py" "a.py" "/home/u" "/home/u/"))
                eq_refl (Permutation_rev _)).
  vm_compute in H. discriminate H.
Qed.

Lemma get_substitution_literal (m : match_result) (v : string) :
  none is_dollar v = true -> get_substitution m v = v.
Proof.
  induction v as [|a v IH]; [reflexivity|].
  unfold none. simpl. intros H. apply andb_true_iff in H as [Ha Hv].
  unfold is_dollar in Ha. apply negb_true_iff in Ha. rewrite Ha.
  now rewrite (IH Hv).
Qed.

(** C1, amended: each placeholder is replaced globally, that is at every
    occurrence in the command it is applied to (for a replacement value
    without a dollar: the command around an occurrence is replaced part
    by part, the value standing for the occurrence), and the six are
    applied one after the other in the order of the array. *)
Theorem placeholders_global_in_array_order (rootPath : option string)
  (codeFile : string) (ps : list placeholder) :
  placeholders rootPath codeFile = Return ps ->
  (forall p, In p ps ->
     forall a before b,
       replace_from (lit (regex_of p)) (expansion p) before (a ++ regex_of p ++ b) 0 =
       replace_from (lit (regex_of p))
         (fun m => expansion p (followed_by (regex_of p ++ b) m)) before a 0
       ++ expansion p (MatchResult (before ++ a) (regex_of p) b [])
       ++ replace_from (lit (regex_of p)) (expansion p) (before ++ a ++ regex_of p) b 0)
  /\ (forall p, In p ps -> none is_dollar (replaceValue p) = true ->
        forall a b,
          applyPlaceholder (a ++ regex_of p ++ b) p
          = applyPlaceholder a p ++ replaceValue p ++ applyPlaceholder b p)
  /\ List.map regex_of ps =
       [ "$workspaceRoot"; "$fileNameWithoutExt"; "$fullFileName"; "$fileName";
         "$dirWithoutTrailingSlash"; "$dir" ]
  /\ (forall executor p1 p2 p3 p4 p5 p6,
        ps = [p1; p2; p3; p4; p5; p6] ->
        applyPlaceholders ps executor =
        applyPlaceholder
          (applyPlaceholder
             (applyPlaceholder
                (applyPlaceholder
                   (applyPlaceholder (applyPlaceholder executor p1) p2) p3) p4) p5) p6).
Proof.
  intros H. apply placeholders_Return in H as (d & e & b & t & _ & _ & _ & _ & ->).
  assert (Hglobal : forall p,
             In p (sixPlaceholders (getWorkspaceRoot rootPath d) e codeFile b t d) ->
             regex_of p <> EmptyString /\ border_free (regex_of p) = true).
  { intros p Hin.
    repeat (destruct Hin as [<-|Hin]; [split; [discriminate | reflexivity]|]).
    destruct Hin. }
  split; [|split; [|split]].
  - intros p Hin a before b0. destruct (Hglobal p Hin) as [Hp Hb].
    now apply replace_from_occurrence.
  - intros p Hin Hv a b0. destruct (Hglobal p Hin) as [Hp Hb].
    unfold applyPlaceholder, replace_all_lit, replace_all.
    rewrite (replace_from_occurrence _ _ Hp Hb a EmptyString b0).
    rewrite (get_substitution_literal _ _ Hv).
    f_equal; [|f_equal].
    + apply (replace_from_constant _ (replaceValue p) _ _ Hp) with (n := len a);
        [intros m; apply (get_substitution_literal _ _ Hv)
        |intros m; apply (get_substitution_literal _ _ Hv) | lia].
    + apply (replace_from_constant _ (replaceValue p) _ _ Hp) with (n := len b0);
        [intros m; apply (get_substitution_literal _ _ Hv)
        |intros m; apply (get_substitution_literal _ _ Hv) | lia].
  - reflexivity.
  - intros executor p1 p2 p3 p4 p5 p6 E. injection E as <- <- <- <- <- <-.
    reflexivity.
Qed.

Lemma placeholders_global_in_array_order_witness :
  placeholders None "/home/u/a.py" =
    Return (sixPlaceholders "/home/u/" "a" "/home/u/a.py" "a.py" "/home/u" "/home/u/")
  /\ applyPlaceholders
       (sixPlaceholders "/home/u/" "a" "/home/u/a.py" "a.py" "/home/u" "/home/u/")
       "cd $dir && python $fileName" =
     "cd " ++ quoteFileName "/home/u/" ++ " && python a.py".
Proof.
  split; [reflexivity|].
  destruct (placeholders_global_in_array_order None "/home/u/a.py" _ eq_refl)
    as (_ & _ & _ & H).
  rewrite (H _ _ _ _ _ _ _ eq_refl). reflexivity.
Defined.

End BuilderFacts.

(** ** The matcher against what it explores *)

Module MatcherFacts.
Import Str StrFacts Regex RegexFacts Notions.

Lemma star_None {R : Type} (c : cclass) (s : string) (k : string -> option R) :
  star c s k = None <-> (forall s', StarMatches c s s' -> k s' = None).
Proof.
  induction s as [|a s IH]; simpl.
  - split.
    + intros H s' Hm. inversion Hm; subst. assumption.
    + intros H. apply H. constructor.
  - destruct (cclass_match c a) eqn:Ea.
    + destruct (star c s k) as [x|] eqn:Es.
      * split; [discriminate|]. intros H.
        destruct IH as [_ IH]. apply IH.
        intros s' Hm. apply H. now constructor.
      * destruct IH as [IH _]. specialize (IH eq_refl). split.
        -- intros H s' Hm. inversion Hm; subst; auto.
        -- intros H. apply H. constructor.
    + split.
      * intros H s' Hm. inversion Hm; subst; [assumption | congruence].
      * intros H. apply H. constructor.
Qed.

Lemma star_Some {R : Type} (c : cclass) (s : string) (k : string -> option R) (x : R) :
  star c s k = Some x -> exists s', StarMatches c s s' /\ k s' = Some x.
Proof.
  induction s as [|a s IH]; simpl.
  - intros H. exists EmptyString. split; [constructor | assumption].
  - destruct (cclass_match c a) eqn:Ea.
    + destruct (star c s k) as [y|] eqn:Es.
      * intros H. injection H as ->. destruct (IH eq_refl) as (s' & Hm & Hk).
        exists s'. split; [now constructor | assumption].
      * intros H. exists (String a s). split; [constructor | assumption].
    + intros H. exists (String a s). split; [constructor | assumption].
Qed.

Lemma Matches_Empty_inv (s : string) (cp : captures) (s' : string) (cp' : captures) :
  Matches REmpty s cp s' cp' -> s' = s /\ cp' = cp.
Proof. inversion 1; subst; auto. Qed.

Lemma Matches_Char_inv (c : cclass) (s : string) (cp : captures) (s' : string)
  (cp' : captures) :
  Matches (RChar c) s cp s' cp' ->
  exists a, s = String a s' /\ cclass_match c a = true /\ cp' = cp.
Proof. inversion 1; subst; eauto. Qed.

Lemma Matches_Star_inv (c : cclass) (s : string) (cp : captures) (s' : string)
  (cp' : captures) :
  Matches (RStar c) s cp s' cp' -> StarMatches c s s' /\ cp' = cp.
Proof. inversion 1; subst; auto. Qed.

Lemma Matches_Seq_inv (r1 r2 : regex) (s : string) (cp : captures) (s2 : string)
  (cp2 : captures) :
  Matches (RSeq r1 r2) s cp s2 cp2 ->
  exists s1 cp1, Matches r1 s cp s1 cp1 /\ Matches r2 s1 cp1 s2 cp2.
Proof. inversion 1; subst; eauto. Qed.

Lemma Matches_Group_inv (n : nat) (r : regex) (s : string) (cp : captures)
  (s' : string) (cp2 : captures) :
  Matches (RGroup n r) s cp s' cp2 ->
  exists cp', Matches r s cp s' cp' /\ cp2 = (n, consumed s s') :: cp'.
Proof. inversion 1; subst; eauto. Qed.

Lemma Matches_Ahead_inv (r : regex) (s : string) (cp : captures) (s' : string)
  (cp' : captures) :
  Matches (RAhead r) s cp s' cp' ->
  s' = s /\ exec r s cp (fun _ c => Some c) = Some cp'.
Proof. inversion 1; subst; auto. Qed.

Lemma Matches_End_inv (s : string) (cp : captures) (s' : string) (cp' : captures) :
  Matches REnd s cp s' cp' -> s = EmptyString /\ s' = EmptyString /\ cp' = cp.
Proof. inversion 1; subst; auto. Qed.

Lemma exec_None (r : regex) :
  forall (R : Type) (s : string) (cp : captures) (k : string -> captures -> option R),
    exec r s cp k = None <->
    (forall s' cp', Matches r s cp s' cp' -> k s' cp' = None).
Proof.
  induction r as [|c|c|r1 IH1 r2 IH2|n r IH|r IH|]; intros R s cp k; simpl.
  - split.
    + intros H s' cp' Hm. apply Matches_Empty_inv in Hm as [-> ->]. assumption.
    + intros H. apply H. constructor.
  - destruct s as [|a s].
    + split; [|reflexivity]. intros _ s' cp' Hm.
      apply Matches_Char_inv in Hm as (a & E & _). discriminate.
    + destruct (cclass_match c a) eqn:Ea.
      * split.
        -- intros H s' cp' Hm. apply Matches_Char_inv in Hm as (b & E & _ & ->).
           injection E as _ <-. assumption.
        -- intros H. apply H. now constructor.
      * split; [|reflexivity]. intros _ s' cp' Hm.
        apply Matches_Char_inv in Hm as (b & E & Hb & _).
        injection E as <- _. congruence.
  - rewrite star_None. split.
    + intros H s' cp' Hm. apply Matches_Star_inv in Hm as [Hm ->]. auto.
    + intros H s' Hm. apply H. now constructor.
  - rewrite IH1. split.
    + intros H s' cp' Hm. apply Matches_Seq_inv in Hm as (s1 & cp1 & Hm1 & Hm2).
      specialize (H _ _ Hm1). rewrite IH2 in H. auto.
    + intros H s1 cp1 Hm1. rewrite IH2. intros s2 cp2 Hm2. apply H.
      econstructor; eassumption.
  - rewrite IH. split.
    + intros H s' cp' Hm. apply Matches_Group_inv in Hm as (cp1 & Hm & ->). auto.
    + intros H s' cp' Hm. apply H. now constructor.
  - destruct (exec r s cp (fun _ c => Some c)) as [cp1|] eqn:E.
    + split.
      * intros H s' cp' Hm. apply Matches_Ahead_inv in Hm as [-> E'].
        rewrite E in E'. injection E' as <-. assumption.
      * intros H. apply H. now constructor.
    + split; [|reflexivity]. intros _ s' cp' Hm.
      apply Matches_Ahead_inv in Hm as [-> E']. congruence.
  - destruct s as [|a s].
    + split.
      * intros H s' cp' Hm. apply Matches_End_inv in Hm as (_ & -> & ->). assumption.
      * intros H. apply H. constructor.
    + split; [|reflexivity]. intros _ s' cp' Hm.
      apply Matches_End_inv in Hm as (E & _). discriminate.
Qed.

Lemma exec_Some (r : regex) :
  forall (R : Type) (s : string) (cp : captures) (k : string -> captures -> option R)
         (x : R),
    exec r s cp k = Some x ->
    exists s' cp', Matches r s cp s' cp' /\ k s' cp' = Some x.
Proof.
  induction r as [|c|c|r1 IH1 r2 IH2|n r IH|r IH|]; intros R s cp k x; simpl.
  - intros H. exists s, cp. split; [constructor | assumption].
  - destruct s as [|a s]; [discriminate|].
    destruct (cclass_match c a) eqn:Ea; [|discriminate].
    intros H. exists s, cp. split; [now constructor | assumption].
  - intros H. apply star_Some in H as (s' & Hm & Hk).
    exists s', cp. split; [now constructor | assumption].
  - intros H. apply IH1 in H as (s1 & cp1 & Hm1 & H).
    apply IH2 in H as (s2 & cp2 & Hm2 & H).
    exists s2, cp2. split; [econstructor; eassumption | assumption].
  - intros H. apply IH in H as (s' & cp' & Hm & H).
    exists s', ((n, consumed s s') :: cp'). split; [now constructor | assumption].
  - destruct (exec r s cp (fun _ c => Some c)) as [cp1|] eqn:E; [|discriminate].
    intros H. exists s, cp1. split; [now constructor | assumption].
  - destruct s as [|a s]; [|discriminate].
    intros H. exists EmptyString, cp. split; [constructor | assumption].
Qed.

Lemma StarMatches_suffix (c : cclass) (s s' : string) :
  StarMatches c s s' <-> exists x, s = x ++ s' /\ all (cclass_match c) x = true.
Proof.
  split.
  - induction 1 as [s|a s s' Ha _ (x & -> & Hx)].
    + exists EmptyString. split; reflexivity.
    + exists (String a x). split; [reflexivity|]. simpl. now rewrite Ha.
  - intros (x & -> & Hx). induction x as [|a x IH]; simpl in *.
    + constructor.
    + apply andb_true_iff in Hx as [Ha Hx]. constructor; auto.
Qed.

(** A match consumes a prefix of its input, and what it captures occurs
    in the whole input. *)
Lemma Matches_within (r : regex) :
  forall (s : string) (cp : captures) (s' : string) (cp' : captures),
    Matches r s cp s' cp' ->
    (exists x, s = x ++ s')
    /\ (forall whole pre, whole = pre ++ s ->
        (forall n y, In (n, y) cp -> infix y whole) ->
        forall n y, In (n, y) cp' -> infix y whole).
Proof.
  induction r as [|c|c|r1 IH1 r2 IH2|n r IH|r IH|]; intros s cp s' cp' Hm.
  - apply Matches_Empty_inv in Hm as [-> ->].
    split; [now exists EmptyString | auto].
  - apply Matches_Char_inv in Hm as (a & -> & _ & ->).
    split; [now exists (String a EmptyString) | auto].
  - apply Matches_Star_inv in Hm as [Hm ->].
    split; [|auto]. apply StarMatches_suffix in Hm as (x & -> & _). now exists x.
  - apply Matches_Seq_inv in Hm as (s1 & cp1 & Hm1 & Hm2).
    destruct (IH1 _ _ _ _ Hm1) as ((x1 & ->) & Hc1).
    destruct (IH2 _ _ _ _ Hm2) as ((x2 & ->) & Hc2).
    split; [exists (x1 ++ x2); now rewrite app_assoc|].
    intros whole pre -> Hcp. apply (Hc2 _ (pre ++ x1)).
    + now rewrite app_assoc.
    + now apply (Hc1 _ pre).
  - apply Matches_Group_inv in Hm as (cp1 & Hm & ->).
    destruct (IH _ _ _ _ Hm) as ((x & ->) & Hc).
    split; [now exists x|].
    intros whole pre -> Hcp m y [E|Hin].
    + injection E as <- <-. rewrite consumed_app. now exists pre, s'.
    + now apply (Hc _ pre eq_refl Hcp m).
  - apply Matches_Ahead_inv in Hm as [-> E].
    split; [now exists EmptyString|].
    apply exec_Some in E as (s1 & cp1 & Hm1 & E). injection E as ->.
    destruct (IH _ _ _ _ Hm1) as (_ & Hc). exact Hc.
  - apply Matches_End_inv in Hm as (-> & -> & ->).
    split; [now exists EmptyString | auto].
Qed.

Lemma match_here_Some (r : regex) (before s : string) (m : match_result) :
  match_here r before s = Some m ->
  exists x s' cp, Matches r s [] s' cp /\ s = x ++ s'
                  /\ m = MatchResult before x s' cp.
Proof.
  unfold match_here. intros H.
  apply exec_Some in H as (s' & cp & Hm & E). injection E as <-.
  destruct (Matches_within _ _ _ _ _ Hm) as ((x & ->) & _).
  exists x, s', cp. rewrite consumed_app. auto.
Qed.

Lemma match_here_None (r : regex) (before s : string) :
  match_here r before s = None <-> (forall s' cp, ~ Matches r s [] s' cp).
Proof.
  unfold match_here. rewrite exec_None. split.
  - intros H s' cp Hm. specialize (H _ _ Hm). discriminate.
  - intros H s' cp Hm. exfalso. eapply H; eassumption.
Qed.

Lemma match_here_parts (r : regex) (before s : string) (m : match_result) :
  match_here r before s = Some m ->
  before ++ s = m_before m ++ m_text m ++ m_after m
  /\ (forall n y, In (n, y) (m_caps m) -> infix y (before ++ s)).
Proof.
  intros H. apply match_here_Some in H as (x & s' & cp & Hm & Hs & Em).
  subst m. cbn [m_before m_text m_after m_caps]. split.
  - now rewrite Hs.
  - destruct (Matches_within _ _ _ _ _ Hm) as (_ & Hc).
    intros n y. apply (Hc _ before eq_refl). intros ? ? [].
Qed.

(** The parts of the match a search finds make up the input. *)
Lemma search_Some (r : regex) (s : string) :
  forall before m,
    search r before s = Some m ->
    before ++ s = m_before m ++ m_text m ++ m_after m
    /\ (forall n y, In (n, y) (m_caps m) -> infix y (before ++ s)).
Proof.
  induction s as [|a s IH]; intros before m; cbn [search];
    destruct (match_here r before _) as [m'|] eqn:E.
  - intros H. injection H as ->. now apply (match_here_parts r).
  - discriminate.
  - intros H. injection H as ->. now apply (match_here_parts r).
  - intros H. apply IH in H. rewrite snoc_app in H. exact H.
Qed.

(** A search fails exactly when no position of the input has a match. *)
Lemma search_None (r : regex) (s : string) :
  forall before,
    search r before s = None <->
    (forall pre post s' cp, s = pre ++ post -> ~ Matches r post [] s' cp).
Proof.
  induction s as [|a s IH]; intros before; simpl;
    destruct (match_here r before _) as [m'|] eqn:E.
  - split; [discriminate|]. intros H. exfalso.
    apply match_here_Some in E as (x & s' & cp & Hm & _ & _).
    exact (H EmptyString EmptyString s' cp eq_refl Hm).
  - split; [|reflexivity]. intros _ pre post s' cp Hs.
    destruct pre; [|discriminate]. simpl in Hs. subst post.
    rewrite match_here_None in E. apply E.
  - split; [discriminate|]. intros H. exfalso.
    apply match_here_Some in E as (x & s' & cp & Hm & _ & _).
    exact (H EmptyString (String a s) s' cp eq_refl Hm).
  - rewrite IH. rewrite match_here_None in E. split.
    + intros H pre post s' cp Hs. destruct pre as [|b pre].
      * simpl in Hs. subst post. apply E.
      * simpl in Hs. injection Hs as -> ->. now apply (H pre).
    + intros H pre post s' cp ->. now apply (H (String a pre)).
Qed.

End MatcherFacts.

(** ** The path helpers *)

Module PathFacts.
Import Str StrFacts Regex RegexFacts MatcherFacts Js CodeManager Notions.

Lemma in_range_single (a c : ascii) : in_range a (c, c) = Ascii.eqb a c.
Proof.
  unfold in_range, Ascii.leb, Ascii.compare. simpl.
  destruct (Ascii.eqb_spec a c) as [->|Hne].
  - rewrite N.compare_refl. reflexivity.
  - destruct (N.compare_spec (N_of_ascii c) (N_of_ascii a)) as [E|L|L].
    + exfalso. apply Hne. rewrite <- (ascii_N_embedding a), <- (ascii_N_embedding c).
      now rewrite E.
    + rewrite N.compare_antisym.
      apply N.compare_lt_iff in L. rewrite L. reflexivity.
    + reflexivity.
Qed.

Lemma separator_match (a : ascii) : cclass_match separator a = is_separator a.
Proof.
  unfold separator, is_separator. cbn [cclass_match existsb xorb].
  rewrite !in_range_single. now rewrite orb_false_r.
Qed.

Lemma none_app (f : ascii -> bool) (s t : string) :
  none f (s ++ t) = none f s && none f t.
Proof. apply all_app. Qed.

Lemma none_false (f : ascii -> bool) (s : string) :
  none f s = false -> exists pre a post, s = pre ++ String a post /\ f a = true.
Proof.
  induction s as [|a s IH]; [discriminate|].
  unfold none. simpl. destruct (f a) eqn:Ea; simpl.
  - intros _. exists EmptyString, a, s. auto.
  - intros H. destruct (IH H) as (pre & b & post & -> & Hb).
    exists (String a pre), b, post. auto.
Qed.

Lemma none_true_app (f : ascii -> bool) (pre post : string) (a : ascii) :
  none f (pre ++ String a post) = true -> f a = false.
Proof.
  rewrite none_app. unfold none at 2. simpl. intros H.
  apply andb_true_iff in H as [_ H]. apply andb_true_iff in H as [H _].
  now apply negb_true_iff in H.
Qed.


Lemma groupOrCodeFile_throws (m : option (list (option string))) (codeFile : string) :
  groupOrCodeFile m codeFile = ThrowTypeError <-> m = None.
Proof. destruct m; simpl; split; congruence. Qed.

Lemma js_match_None (r : regex) (s : string) :
  js_match r s = None <->
  (forall pre post s' cp, s = pre ++ post -> ~ Matches r post [] s' cp).
Proof.
  unfold js_match. rewrite <- (search_None r s EmptyString).
  destruct (search r EmptyString s); split; congruence.
Qed.

(** A match of any of the three patterns passes a separator. *)
Lemma baseFileRegex_separator (post s' : string) (cp : captures) :
  Matches baseFileRegex post [] s' cp ->
  exists x a y, post = x ++ String a y /\ is_separator a = true.
Proof.
  intros H. apply Matches_Seq_inv in H as (s1 & cp1 & H1 & H).
  apply Matches_Star_inv in H1 as [H1 ->].
  apply StarMatches_suffix in H1 as (x & -> & _).
  apply Matches_Seq_inv in H as (s2 & cp2 & H2 & _).
  apply Matches_Char_inv in H2 as (a & -> & Ha & _).
  rewrite separator_match in Ha. now exists x, a, s2.
Qed.

Lemma withoutDirAndExtRegex_parts (post s' : string) (cp : captures) :
  Matches withoutDirAndExtRegex post [] s' cp ->
  exists x a b d, post = x ++ String a (b ++ String "." d)
                  /\ is_separator a = true /\ none is_line_terminator b = true.
Proof.
  intros H. apply Matches_Seq_inv in H as (s1 & cp1 & H1 & H).
  apply Matches_Star_inv in H1 as [H1 ->].
  apply StarMatches_suffix in H1 as (x & -> & _).
  apply Matches_Seq_inv in H as (s2 & cp2 & H2 & H).
  apply Matches_Char_inv in H2 as (a & -> & Ha & ->).
  rewrite separator_match in Ha.
  apply Matches_Group_inv in H as (cp3 & H & _).
  apply Matches_Seq_inv in H as (s3 & cp4 & H3 & H).
  apply Matches_Star_inv in H3 as [H3 ->].
  apply StarMatches_suffix in H3 as (b & -> & Hb).
  apply Matches_Ahead_inv in H as [-> H].
  apply exec_Some in H as (s4 & cp5 & H & _).
  apply Matches_Seq_inv in H as (s5 & cp6 & H5 & _).
  apply Matches_Char_inv in H5 as (c & -> & Hc & _).
  simpl in Hc. apply Ascii.eqb_eq in Hc as ->.
  now exists x, a, b, s5.
Qed.

Lemma dirRegex_separator (post s' : string) (cp : captures) :
  Matches dirRegex post [] s' cp ->
  exists x a y, post = x ++ String a y /\ is_separator a = true.
Proof.
  intros H. apply Matches_Seq_inv in H as (s1 & cp1 & H & _).
  apply Matches_Group_inv in H as (cp2 & H & _).
  apply Matches_Seq_inv in H as (s2 & cp3 & H2 & H).
  apply Matches_Star_inv in H2 as [H2 ->].
  apply StarMatches_suffix in H2 as (x & -> & _).
  apply Matches_Char_inv in H as (a & -> & Ha & _).
  rewrite separator_match in Ha. now exists x, a, s1.
Qed.

Lemma getCodeBaseFile_throws (codeFile : string) :
  getCodeBaseFile codeFile = ThrowTypeError <-> none is_separator codeFile = true.
Proof.
  unfold getCodeBaseFile. rewrite groupOrCodeFile_throws, js_match_None. split.
  - intros H. destruct (none is_separator codeFile) eqn:E; [reflexivity|].
    exfalso. apply none_false in E as (pre & a & post & -> & Ha).
    apply (H pre (String a post) post [(1, consumed post post)] eq_refl).
    eapply M_Seq; [apply M_Star, SM_stop|].
    eapply M_Seq; [apply M_Char; now rewrite separator_match|].
    apply M_Group, M_Star, SM_stop.
  - intros Hn pre post s' cp -> Hm.
    apply baseFileRegex_separator in Hm as (x & a & y & -> & Ha).
    rewrite <- app_assoc in Hn. apply none_true_app in Hn. congruence.
Qed.

Lemma getCodeFileDir_throws (codeFile : string) :
  getCodeFileDir codeFile = ThrowTypeError <-> none is_separator codeFile = true.
Proof.
  unfold getCodeFileDir. rewrite groupOrCodeFile_throws, js_match_None. split.
  - intros H. destruct (none is_separator codeFile) eqn:E; [reflexivity|].
    exfalso. apply none_false in E as (pre & a & post & -> & Ha).
    apply (H pre (String a post) post
             [(1, consumed (String a post) post)] eq_refl).
    eapply M_Seq; [|apply M_Star, SM_stop].
    apply M_Group. eapply M_Seq; [apply M_Star, SM_stop|].
    apply M_Char. now rewrite separator_match.
  - intros Hn pre post s' cp -> Hm.
    apply dirRegex_separator in Hm as (x & a & y & -> & Ha).
    rewrite <- app_assoc in Hn. apply none_true_app in Hn. congruence.
Qed.

Lemma getCodeFileWithoutDirAndExt_throws (codeFile : string) :
  getCodeFileWithoutDirAndExt codeFile = ThrowTypeError <->
  ~ separator_then_dot codeFile.
Proof.
  unfold getCodeFileWithoutDirAndExt.
  rewrite groupOrCodeFile_throws, js_match_None. split.
  - intros H (a & c & b & d & -> & Hc & Hb).
    set (rest := String "." d).
    destruct (exec (RSeq (RChar (CLit ".")) (RStar CDot)) rest []
                (fun _ cp => Some cp)) as [cp|] eqn:E.
    + apply (H a (String c (b ++ rest)) rest
               ((1, consumed (b ++ rest) rest) :: cp) eq_refl).
      eapply M_Seq; [apply M_Star, SM_stop|].
      eapply M_Seq; [apply M_Char; now rewrite separator_match|].
      apply M_Group. eapply M_Seq.
      * apply M_Star, StarMatches_suffix. exists b. split; [reflexivity | exact Hb].
      * now apply M_Ahead.
    + rewrite exec_None in E.
      specialize (E d [] ltac:(eapply M_Seq;
        [apply M_Char; apply Ascii.eqb_refl | apply M_Star, SM_stop])).
      discriminate.
  - intros Hn pre post s' cp -> Hm. apply Hn.
    apply withoutDirAndExtRegex_parts in Hm as (x & a & b & d & -> & Ha & Hb).
    exists (pre ++ x), a, b, d. rewrite app_assoc. auto.
Qed.




End PathFacts.

(** ** The append rule of the command builder *)

Module AppendFacts.
Import Str StrFacts Regex RegexFacts MatcherFacts Js CodeManager Notions.
Import PathFacts BuilderFacts.

Lemma none_count (f : ascii -> bool) (s : string) :
  none f s = true <-> count f s = 0.
Proof.
  induction s as [|a s IH]; simpl; [split; reflexivity|].
  unfold none in *. simpl. destruct (f a); simpl.
  - split; [discriminate | lia].
  - exact IH.
Qed.

Lemma none_infix (f : ascii -> bool) (x s : string) :
  infix x s -> none f s = true -> none f x = true.
Proof.
  intros (a & b & ->). rewrite !none_app. intros H.
  apply andb_true_iff in H as [_ H]. now apply andb_true_iff in H as [H _].
Qed.

(** A global replacement of a pattern with a dollar by a text without
    one does not add dollars, and removes one where the pattern occurs. *)
Lemma replace_lit_dollars (p : string) (f : replaceFunction) :
  p <> EmptyString -> (forall m, count is_dollar (f m) = 0) ->
  forall n s before, len s <= n ->
    count is_dollar (replace_from (lit p) f before s 0) <= count is_dollar s
    /\ (0 < count is_dollar p -> contains p s = true ->
        count is_dollar (replace_from (lit p) f before s 0) < count is_dollar s).
Proof.
  intros Hp Hf. induction n as [|n IH]; intros s before Hn;
    rewrite (replace_from_lit p f before s Hp).
  - destruct s; [|unfold len in Hn; simpl in Hn; lia].
    destruct p as [|c p]; [contradiction|]. simpl. split; [lia|].
    intros _ H. unfold starts_with in H. simpl in H. discriminate.
  - destruct (strip p s) as [s'|] eqn:E.
    + apply strip_Some in E as ->.
      assert (Hl : len s' <= n).
      { rewrite len_app in Hn. destruct p; [contradiction|].
        unfold len in *; simpl in *; lia. }
      destruct (IH s' (before ++ p) Hl) as [Hle _].
      rewrite !count_app, Hf. split; lia.
    + destruct s as [|a s]; [split; [simpl; lia|]|].
      * intros _ H. simpl in H. rewrite orb_false_r in H.
        unfold starts_with in H. rewrite E in H. discriminate.
      * assert (Hl : len s <= n) by (unfold len in *; simpl in *; lia).
        destruct (IH s (snoc before a) Hl) as [Hle Hlt].
        simpl. split; [lia|]. intros Hd H.
        unfold starts_with in H. rewrite E in H. simpl in H.
        specialize (Hlt Hd H). lia.
Qed.

Lemma applyPlaceholder_absent (cmd : string) (p : placeholder) :
  regex_of p <> EmptyString -> contains (regex_of p) cmd = false ->
  applyPlaceholder cmd p = cmd.
Proof.
  intros Hp H. unfold applyPlaceholder, replace_all_lit, replace_all.
  now apply replace_from_absent.
Qed.

Lemma applyPlaceholder_dollars (cmd : string) (p : placeholder) :
  regex_of p <> EmptyString -> none is_dollar (replaceValue p) = true ->
  count is_dollar (applyPlaceholder cmd p) <= count is_dollar cmd
  /\ (0 < count is_dollar (regex_of p) -> contains (regex_of p) cmd = true ->
      count is_dollar (applyPlaceholder cmd p) < count is_dollar cmd).
Proof.
  intros Hp Hv. unfold applyPlaceholder, replace_all_lit, replace_all.
  apply (replace_lit_dollars _ _ Hp) with (n := len cmd); [|lia].
  intros m. rewrite (get_substitution_literal m _ Hv). now apply none_count.
Qed.

Lemma capture_In (n : nat) (cp : captures) (y : string) :
  capture n cp = Some y -> In (n, y) cp.
Proof.
  induction cp as [|[m s] cp IH]; simpl; [discriminate|].
  destruct (Nat.eqb_spec n m) as [->|_].
  - intros H. injection H as ->. now left.
  - intros H. right. auto.
Qed.

(** What a helper returns has no dollar when the path has none. *)
Lemma groupOrCodeFile_plain (r : regex) (codeFile g : string) :
  groupOrCodeFile (js_match r codeFile) codeFile = Return g ->
  none is_dollar codeFile = true -> none is_dollar g = true.
Proof.
  unfold groupOrCodeFile, js_match.
  destruct (search r EmptyString codeFile) as [m|] eqn:E; [|discriminate].
  apply search_Some in E as [_ Hc]. simpl in Hc.
  cbn [List.length Nat.eqb]. intros H Hn. injection H as <-.
  destruct (ngroups r) as [|k]; [reflexivity|].
  cbn [seq List.map nth].
  destruct (capture 1 (m_caps m)) as [y|] eqn:Ey; [|reflexivity].
  apply capture_In, Hc in Ey. cbn [to_string]. now apply (none_infix _ _ _ Ey).
Qed.

Lemma quoteFileName_plain (s : string) :
  none is_dollar s = true -> none is_dollar (quoteFileName s) = true.
Proof.
  intros H. unfold quoteFileName.
  change (String "034" (s ++ String "034" EmptyString))
    with (String "034" EmptyString ++ s ++ String "034" EmptyString).
  rewrite !none_app, H. reflexivity.
Qed.

Lemma getCodeFileDirWithoutTrailingSlash_plain (codeFile g : string) :
  getCodeFileDirWithoutTrailingSlash codeFile = Return g ->
  none is_dollar codeFile = true -> none is_dollar g = true.
Proof.
  unfold getCodeFileDirWithoutTrailingSlash, mbind, completion_bind.
  destruct (getCodeFileDir codeFile) as [d|] eqn:Ed; [|discriminate].
  cbn [bind]. intros H Hn. injection H as <-.
  apply (groupOrCodeFile_plain dirRegex) in Ed; [|assumption].
  unfold replace_first.
  destruct (search trailingSlashRegex EmptyString d) as [m|] eqn:E; [|assumption].
  apply search_Some in E as [E _]. simpl in E. rewrite E in Ed.
  rewrite !none_app in Ed. apply andb_true_iff in Ed as [H1 H2].
  apply andb_true_iff in H2 as [_ H2].
  cbn [get_substitution]. change (EmptyString ++ m_after m) with (m_after m).
  now rewrite none_app, H1, H2.
Qed.

Lemma getFinalCommand_Return (rootPath : option string) (codeFile executor : string)
  (appendFile : bool) (ps : list placeholder) :
  placeholders rootPath codeFile = Return ps ->
  getFinalCommandToRunCodeFile rootPath (Some codeFile) executor appendFile =
  Return (if negb (String.eqb (applyPlaceholders ps executor) executor)
          then applyPlaceholders ps executor
          else executor ++ (if appendFile then " " ++ quoteFileName codeFile
                            else EmptyString)).
Proof.
  intros H. unfold getFinalCommandToRunCodeFile.
  assert (Ht : truthy_string (Some codeFile) = true).
  { destruct codeFile; [|reflexivity]. vm_compute in H. discriminate. }
  rewrite Ht. cbn [to_string]. rewrite H. reflexivity.
Qed.

(** The append rule fails as it is stated: on the file [/a.b/$fileName]
    the template [$fileName] is replaced by itself, the command builder
    takes it for a template without placeholder and appends the file when
    asked to. *)
Lemma append_rule_fails : ~ append_rule.
Proof.
  intros H.
  destruct (H None "/a.b/$fileName" "$fileName") as [_ H2].
  assert (E : getFinalCommandToRunCodeFile None (Some "/a.b/$fileName") "$fileName" true
              = getFinalCommandToRunCodeFile None (Some "/a.b/$fileName") "$fileName" false).
  { apply H2; [reflexivity|].
    intros name Hin Hne.
    repeat (destruct Hin as [<-|Hin]; [try reflexivity; now elim Hne|]).
    destruct Hin. }
  vm_compute in E. discriminate E.
Qed.

(** Where the path helpers return and the path has no dollar, the
    append rule holds: a template with none of the six placeholders gets
    the quoted file appended after one space when [appendFile] is set and
    is returned unchanged when it is not; and a template with [$fileName]
    and no other placeholder becomes the same substituted command,
    different from the template, whatever [appendFile] is. *)
Lemma final_command_append_rule (rootPath : option string)
  (codeFile executor : string) (ps : list placeholder) :
  placeholders rootPath codeFile = Return ps ->
  ((forall name, In name placeholderNames -> contains name executor = false) ->
   getFinalCommandToRunCodeFile rootPath (Some codeFile) executor true
     = Return (executor ++ " " ++ quoteFileName codeFile)
   /\ getFinalCommandToRunCodeFile rootPath (Some codeFile) executor false
     = Return executor)
  /\ (contains "$fileName" executor = true ->
      (forall name, In name placeholderNames -> name <> "$fileName" ->
                    contains name executor = false) ->
      none is_dollar codeFile = true ->
      applyPlaceholders ps executor <> executor
      /\ getFinalCommandToRunCodeFile rootPath (Some codeFile) executor true
         = Return (applyPlaceholders ps executor)
      /\ getFinalCommandToRunCodeFile rootPath (Some codeFile) executor false
         = Return (applyPlaceholders ps executor)).
Proof.
  intros Hps.
  rewrite !(getFinalCommand_Return _ _ _ _ _ Hps).
  apply placeholders_Return in Hps as (d & e & b & t & Hd & He & Hb & Ht & ->).
  split.
  - intros Hnone.
    assert (E : applyPlaceholders
                  (sixPlaceholders (getWorkspaceRoot rootPath d) e codeFile b t d)
                  executor = executor).
    { unfold applyPlaceholders, sixPlaceholders. cbn [fold_left].
      repeat (rewrite (applyPlaceholder_absent executor);
              [|discriminate|apply Hnone; cbn; tauto]).
      reflexivity. }
    rewrite E, String.eqb_refl. cbn [negb]. rewrite app_nil_r. auto.
  - intros Hin Hother Hplain.
    assert (Hne : applyPlaceholders
                    (sixPlaceholders (getWorkspaceRoot rootPath d) e codeFile b t d)
                    executor <> executor).
    { unfold applyPlaceholders, sixPlaceholders. cbn [fold_left].
      rewrite (applyPlaceholder_absent executor); [|discriminate|].
      2:{ apply Hother; [cbn; tauto | discriminate]. }
      rewrite (applyPlaceholder_absent executor); [|discriminate|].
      2:{ apply Hother; [cbn; tauto | discriminate]. }
      rewrite (applyPlaceholder_absent executor); [|discriminate|].
      2:{ apply Hother; [cbn; tauto | discriminate]. }
      intros E. apply (f_equal (count is_dollar)) in E.
      set (c4 := applyPlaceholder executor (Placeholder "$fileName" b)) in *.
      set (c5 := applyPlaceholder c4 _) in *.
      assert (H4 : count is_dollar c4 < count is_dollar executor).
      { apply applyPlaceholder_dollars; [discriminate | | cbn; lia | exact Hin].
        apply (groupOrCodeFile_plain baseFileRegex codeFile); assumption. }
      assert (H5 : count is_dollar c5 <= count is_dollar c4).
      { apply applyPlaceholder_dollars; [discriminate|].
        apply quoteFileName_plain.
        now apply (getCodeFileDirWithoutTrailingSlash_plain codeFile). }
      assert (H6 : count is_dollar (applyPlaceholder c5 (Placeholder "$dir" (quoteFileName d)))
                   <= count is_dollar c5).
      { apply applyPlaceholder_dollars; [discriminate|].
        apply quoteFileName_plain.
        now apply (groupOrCodeFile_plain dirRegex codeFile). }
      lia. }
    apply String.eqb_neq in Hne as Hb'. rewrite Hb'. cbn [negb]. auto.
Qed.

Lemma final_command_append_rule_witness :
  getFinalCommandToRunCodeFile None (Some "/home/u/a.py") "python" true
    = Return ("python " ++ quoteFileName "/home/u/a.py")
  /\ getFinalCommandToRunCodeFile None (Some "/home/u/a.py") "python $fileName" true
    = Return "python a.py"
  /\ getFinalCommandToRunCodeFile None (Some "/home/u/a.py") "python $fileName" false
    = Return "python a.py".
Proof.
  split.
  - destruct (final_command_append_rule None "/home/u/a.py" "python" _ eq_refl)
      as [H _].
    apply H. intros name Hin.
    repeat (destruct Hin as [<-|Hin]; [reflexivity|]). destruct Hin.
  - destruct (final_command_append_rule None "/home/u/a.py" "python $fileName" _ eq_refl)
      as [_ H].
    destruct H as (_ & H1 & H2); [reflexivity | | reflexivity | split; assumption].
    intros name Hin Hne.
    repeat (destruct Hin as [<-|Hin]; [try reflexivity; now elim Hne|]).
    destruct Hin.
Defined.

(** C3 is broken by the code: the builder tells that no placeholder was
    there by comparing the substituted command with the template.  On the
    file [/a.b/$fileName] the template [$fileName] has a placeholder and
    is replaced by itself: the file is appended when [appendFile] is
    set, and the two results differ.  And on the file [/home/u/Makefile]
    a template without placeholder gets nothing appended: the builder
    throws. *)
Theorem appends_after_a_placeholder :
  getFinalCommandToRunCodeFile None (Some "/a.b/$fileName") "$fileName" true
  = Return ("$fileName " ++ quoteFileName "/a.b/$fileName")
  /\ getFinalCommandToRunCodeFile None (Some "/a.b/$fileName") "$fileName" false
     = Return "$fileName"
  /\ contains "$fileName" "$fileName" = true
  /\ getFinalCommandToRunCodeFile (Some "/home/u") (Some "/home/u/Makefile")
       "make -f" true
     = ThrowTypeError
  /\ (forall name, In name placeholderNames -> contains name "make -f" = false).
Proof.
  repeat split; try (vm_compute; reflexivity).
  intros name Hin.
  repeat (destruct Hin as [<-|Hin]; [vm_compute; reflexivity|]).
  destruct Hin.
Qed.

End AppendFacts.

(** ** The platform adapters *)

Module AdapterFacts.
Import Str StrFacts Regex RegexFacts MatcherFacts Js CodeManager Notions.

(** *** The PowerShell chain *)

Lemma strip_ampersands (s : string) :
  strip "&&" s =
  match s with
  | String a (String b s2) =>
      if Ascii.eqb a "&" && Ascii.eqb b "&" then Some s2 else None
  | _ => None
  end.
Proof.
  destruct s as [|a [|b s2]]; cbn [strip]; try reflexivity.
  - now destruct (Ascii.eqb "&" a).
  - rewrite (Ascii.eqb_sym a), (Ascii.eqb_sym b).
    destruct (Ascii.eqb "&" a), (Ascii.eqb "&" b); reflexivity.
Qed.

Lemma search_ampersands (v : string) (s : string) :
  (forall m, get_substitution m v = "; if ($?) {") ->
  forall before,
    match search (lit "&&") before s with
    | Some m => m_before m ++ get_substitution m v ++ m_after m
    | None => before ++ s
    end = before ++ firstChain s.
Proof.
  intros Hv. induction s as [|a s1 IH]; intros before.
  - reflexivity.
  - cbn [search]. rewrite match_here_lit, strip_ampersands.
    destruct s1 as [|b s2].
    + cbn [search]. rewrite match_here_lit. reflexivity.
    + destruct (Ascii.eqb a "&" && Ascii.eqb b "&") eqn:E.
      * cbn [m_before m_after firstChain]. now rewrite Hv, E.
      * cbv iota. rewrite <- (snoc_app before (String b s2) a).
        rewrite (IH (snoc before a)), snoc_app.
        change (firstChain (String a (String b s2)))
          with (if Ascii.eqb a "&" && Ascii.eqb b "&"
                then "; if ($?) {" ++ s2
                else String a (firstChain (String b s2))).
        now rewrite E.
Qed.

Lemma replace_first_ampersands (s : string) :
  replace_first_lit "&&" "; if ($?) {" s = firstChain s.
Proof.
  unfold replace_first_lit, replace_first.
  pose proof (search_ampersands "; if ($?) {" s (fun _ => eq_refl) EmptyString) as H.
  destruct (search (lit "&&") EmptyString s); exact H.
Qed.

Lemma replace_later_ampersands (f : replaceFunction) :
  (forall m, f m = "} ; if ($?) {") ->
  forall n s before, len s <= n ->
    replace_from (lit "&&") f before s 0 = conditionalChain false s.
Proof.
  intros Hf. induction n as [|n IH]; intros s before Hn;
    rewrite (replace_from_lit "&&" f before s ltac:(discriminate)), strip_ampersands.
  - destruct s; [reflexivity | unfold len in Hn; simpl in Hn; lia].
  - destruct s as [|a [|b s2]]; [reflexivity| |].
    + rewrite IH; [reflexivity | unfold len; simpl; lia].
    + cbn [conditionalChain].
      destruct (Ascii.eqb a "&" && Ascii.eqb b "&").
      * rewrite Hf, IH; [reflexivity | unfold len in *; simpl in *; lia].
      * rewrite IH; [reflexivity | unfold len in *; simpl in *; lia].
Qed.

(** A text without ampersand is passed as it is. *)
Lemma replace_ampersands_plain (f : replaceFunction) (x s : string) :
  none is_ampersand x = true ->
  (forall a t, s = String a t -> is_ampersand a = true -> x = EmptyString) ->
  forall before,
    replace_from (lit "&&") f before (x ++ s) 0
    = x ++ replace_from (lit "&&") f (before ++ x) s 0.
Proof.
  induction x as [|a x IH]; intros Hx Hs before.
  - simpl. now rewrite app_nil_r.
  - unfold none in Hx. simpl in Hx. apply andb_true_iff in Hx as [Ha Hx].
    apply negb_true_iff in Ha. unfold is_ampersand in Ha.
    change (String a x ++ s) with (String a (x ++ s)).
    rewrite (replace_from_lit "&&" f before _ ltac:(discriminate)), strip_ampersands.
    assert (E : match x ++ s with
                | String b s2 => if Ascii.eqb a "&" && Ascii.eqb b "&" then Some s2 else None
                | EmptyString => None
                end = None).
    { rewrite Ha. now destruct (x ++ s). }
    rewrite E. rewrite IH; [|exact Hx|].
    + rewrite snoc_app. reflexivity.
    + intros b t Es Hb. specialize (Hs b t Es Hb). discriminate.
Qed.

Lemma firstChain_head (b : ascii) (s : string) :
  Ascii.eqb b "&" = false -> exists t, firstChain (String b s) = String b t.
Proof.
  intros Hb. destruct s as [|c s]; simpl.
  - now exists EmptyString.
  - rewrite Hb. simpl. now eexists.
Qed.

Lemma firstChain_cons (a b : ascii) (s2 : string) :
  firstChain (String a (String b s2))
  = if Ascii.eqb a "&" && Ascii.eqb b "&"
    then "; if ($?) {" ++ s2
    else String a (firstChain (String b s2)).
Proof. reflexivity. Qed.

Lemma conditionalChain_cons (first : bool) (a b : ascii) (s2 : string) :
  conditionalChain first (String a (String b s2))
  = if Ascii.eqb a "&" && Ascii.eqb b "&"
    then (if first then "; if ($?) {" else "} ; if ($?) {")
         ++ conditionalChain false s2
    else String a (conditionalChain first (String b s2)).
Proof. reflexivity. Qed.

Lemma replace_chain (f : replaceFunction) :
  (forall m, f m = "} ; if ($?) {") ->
  forall s before,
    replace_from (lit "&&") f before (firstChain s) 0 = conditionalChain true s.
Proof.
  intros Hf. induction s as [|a s1 IH]; intros before.
  - reflexivity.
  - destruct s1 as [|b s2].
    + cbn [firstChain conditionalChain].
      rewrite (replace_from_lit "&&" f before _ ltac:(discriminate)), strip_ampersands.
      reflexivity.
    + rewrite firstChain_cons, conditionalChain_cons.
      destruct (Ascii.eqb a "&" && Ascii.eqb b "&") eqn:E.
      * assert (Hp := replace_ampersands_plain f "; if ($?) " (String "{" s2)
                        eq_refl ltac:(intros ? ? [= <- _] [=]) before).
        change ("; if ($?) {" ++ s2) with ("; if ($?) " ++ String "{" s2).
        rewrite Hp.
        rewrite (replace_from_lit "&&" f _ (String "{" s2) ltac:(discriminate)),
          strip_ampersands.
        assert (E' : match s2 with
                     | String b0 s3 =>
                         if Ascii.eqb "{" "&" && Ascii.eqb b0 "&" then Some s3 else None
                     | EmptyString => None
                     end = None) by (now destruct s2).
        rewrite E'.
        rewrite (replace_later_ampersands f Hf (len s2) s2 _ (le_n _)).
        reflexivity.
      * rewrite (replace_from_lit "&&" f before _ ltac:(discriminate)), strip_ampersands.
        assert (E' : match firstChain (String b s2) with
                     | String b0 s3 =>
                         if Ascii.eqb a "&" && Ascii.eqb b0 "&" then Some s3 else None
                     | EmptyString => None
                     end = None).
        { destruct (Ascii.eqb b "&") eqn:Eb.
          - rewrite andb_true_r in E. rewrite E. now destruct (firstChain _).
          - destruct (firstChain_head b s2 Eb) as (t & ->). rewrite Eb.
            now rewrite andb_false_r. }
        rewrite E', IH. reflexivity.
Qed.

Lemma powershell_named (windowsShell : string) :
  contains "powershell" (toLowerCase windowsShell) = true ->
  is_empty windowsShell = false.
Proof. destruct windowsShell; [discriminate | reflexivity]. Qed.

(** C5 fails as stated: [a&&b] has an [&&] and comes back unchanged,
    because the adapter looks for [&&] between two spaces. *)
Lemma chain_without_spaces_unchanged : ~ converts_every_chain.
Proof.
  intros H. specialize (H "powershell.exe" "a&&b" eq_refl eq_refl).
  vm_compute in H. discriminate H.
Qed.

(** C5, amended: on a Windows host whose shell name contains
    [powershell] in any letter case, a command containing [&&] between
    two spaces has its first [&&] replaced by [; if ($?) {], every later
    one by [} ; if ($?) {], every [$dir$fileNameWithoutExt] rewritten to
    the relative form, and a space and a closing brace appended; any other
    command, on any other host or shell, is returned unchanged. *)
Theorem powershell_chain (platform windowsShell executor : string) :
  (platform = "win32" ->
   contains "powershell" (toLowerCase windowsShell) = true ->
   contains " && " executor = true ->
   changeExecutorFromCmdToPs platform windowsShell executor
   = relativeForm (conditionalChain true executor) ++ " }")
  /\ (platform <> "win32"
      \/ contains "powershell" (toLowerCase windowsShell) = false
      \/ contains " && " executor = false ->
      changeExecutorFromCmdToPs platform windowsShell executor = executor)
  /\ (forall a before b,
        let p := "$dir$fileNameWithoutExt" in
        let f := fun m => get_substitution m ".\$fileNameWithoutExt" in
        replace_from (lit p) f before (a ++ p ++ b) 0
        = replace_from (lit p) (fun m => f (followed_by (p ++ b) m)) before a 0
          ++ ".\$fileNameWithoutExt"
          ++ replace_from (lit p) f (before ++ a ++ p) b 0).
Proof.
  split; [|split].
  - intros -> Hs He. unfold changeExecutorFromCmdToPs.
    rewrite (powershell_named _ Hs), Hs, He.
    change (String.eqb "win32" "win32" && negb false && true && true) with true.
    cbv iota. rewrite replace_first_ampersands.
    unfold relativeForm. f_equal. f_equal.
    unfold replace_all_lit at 1. unfold replace_all.
    apply replace_chain. reflexivity.
  - intros H. unfold changeExecutorFromCmdToPs.
    destruct H as [H|[H|H]].
    + apply String.eqb_neq in H. now rewrite H.
    + rewrite H. now rewrite !andb_false_r.
    + rewrite H. now rewrite !andb_false_r.
  - intros a before b p f.
    apply (replace_from_occurrence p f ltac:(discriminate) eq_refl a before b).
Qed.

Lemma powershell_chain_witness :
  changeExecutorFromCmdToPs "win32" "C:\WindowsPowerShell\PowerShell.exe"
    "cd $dir && gcc $fileName -o $dir$fileNameWithoutExt && $dir$fileNameWithoutExt"
  = "cd $dir ; if ($?) { gcc $fileName -o .\$fileNameWithoutExt } ; if ($?) { .\$fileNameWithoutExt }"
  /\ changeExecutorFromCmdToPs "linux" "C:\WindowsPowerShell\PowerShell.exe" "a && b"
     = "a && b".
Proof.
  split.
  - destruct (powershell_chain "win32" "C:\WindowsPowerShell\PowerShell.exe"
      "cd $dir && gcc $fileName -o $dir$fileNameWithoutExt && $dir$fileNameWithoutExt")
      as (H & _ & _).
    rewrite (H eq_refl eq_refl eq_refl). reflexivity.
  - destruct (powershell_chain "linux" "C:\WindowsPowerShell\PowerShell.exe" "a && b")
      as (_ & H & _).
    apply H. left. discriminate.
Defined.

End AdapterFacts.

(** *** The path adapter *)

Module PathAdapterFacts.
Import Str StrFacts Regex RegexFacts MatcherFacts Js CodeManager Notions.

Lemma consumed_cons (a : ascii) (s : string) :
  consumed (String a s) s = String a EmptyString.
Proof. apply (consumed_app (String a EmptyString) s). Qed.

Lemma match_here_backslash (before : string) (a : ascii) (s : string) :
  match_here backslashRegex before (String a s)
  = if Ascii.eqb a "\" then Some (MatchResult before (String a EmptyString) s [])
    else None.
Proof.
  unfold match_here, backslashRegex. cbn [exec cclass_match].
  destruct (Ascii.eqb a "\"); [|reflexivity]. now rewrite consumed_cons.
Qed.

(** The second pass turns every backslash into a slash. *)
Lemma replace_backslashes (s : string) :
  forall before,
    replace_from backslashRegex (fun m => get_substitution m "/") before s 0
    = slashes s.
Proof.
  induction s as [|a s IH]; intros before; [reflexivity|].
  cbn [replace_from]. rewrite match_here_backslash.
  unfold slashes. cbn [map]. unfold slash at 1.
  destruct (Ascii.eqb a "\").
  - cbn [m_text is_empty len String.length Nat.sub get_substitution].
    simpl. f_equal. apply IH.
  - f_equal. apply IH.
Qed.

Lemma letters_match (a : ascii) :
  cclass_match (CSet false [("A"%char, "Z"%char); ("a"%char, "z"%char)]) a
  = is_letter a.
Proof. unfold is_letter. cbn [cclass_match existsb xorb]. now rewrite orb_false_r. Qed.

Lemma match_here_drive (before s : string) :
  match_here driveRegex before s
  = match s with
    | String a (String b (String c s3)) =>
        if is_letter a && Ascii.eqb b ":" && Ascii.eqb c "\"
        then Some (MatchResult before (String a (String b (String c EmptyString))) s3
                     [(1, String a EmptyString)])
        else None
    | _ => None
    end.
Proof.
  unfold match_here, driveRegex.
  destruct s as [|a [|b [|c s3]]]; cbn [exec]; rewrite ?letters_match.
  - reflexivity.
  - now destruct (is_letter a).
  - destruct (is_letter a); [|reflexivity]. cbn [cclass_match].
    now destruct (Ascii.eqb b ":").
  - destruct (is_letter a); [|reflexivity]. cbn [cclass_match andb].
    destruct (Ascii.eqb b ":"); [|reflexivity].
    destruct (Ascii.eqb c "\"); [|reflexivity].
    rewrite consumed_cons.
    change (String a (String b (String c s3)))
      with (String a (String b (String c EmptyString)) ++ s3).
    now rewrite consumed_app.
Qed.

Lemma lower_letter_slash (a : ascii) : is_letter a = true -> slash (lower a) = lower a.
Proof.
  destruct a as [[] [] [] [] [] [] [] []]; vm_compute; intros H;
    (reflexivity || discriminate H).
Qed.

(** The two passes together are one pass of [shellPath]. *)
Lemma replace_drives (prefix : string) :
  forall n s before, len s <= n ->
    slashes (replace_from driveRegex (driveReplacer prefix) before s 0)
    = shellPath (slashes prefix) s.
Proof.
  induction n as [|n IH]; intros s before Hn.
  - destruct s; [reflexivity | unfold len in Hn; simpl in Hn; lia].
  - destruct s as [|a s1]; [reflexivity|].
    cbn [replace_from]. rewrite match_here_drive.
    assert (Hs1 : len s1 <= n) by (unfold len in *; simpl in *; lia).
    assert (Hplain : slashes (String a (replace_from driveRegex (driveReplacer prefix)
                                          (snoc before a) s1 0))
                     = String (slash a) (shellPath (slashes prefix) s1)).
    { unfold slashes at 1. cbn [map]. f_equal. apply (IH s1 _ Hs1). }
    destruct s1 as [|b [|c s3]]; try exact Hplain.
    cbn [shellPath].
    destruct (is_letter a && Ascii.eqb b ":" && Ascii.eqb c "\") eqn:E;
      [|exact Hplain].
    cbn [m_text is_empty len String.length Nat.sub].
    rewrite (replace_from_skip driveRegex _ (snoc before a)
               (String b (String c EmptyString)) s3).
    unfold driveReplacer at 1. cbn [m_caps capture Nat.eqb to_string toLowerCase map].
    unfold slashes at 1. rewrite !map_app. cbn [map].
    apply andb_true_iff in E as [E _]. apply andb_true_iff in E as [E _].
    rewrite (lower_letter_slash a E).
    change (slash "/") with "/"%char.
    rewrite !app_assoc. cbn [String.append].
    unfold slashes at 1. f_equal. f_equal. f_equal.
    apply IH. unfold len in *; simpl in *; lia.
Qed.

Lemma slashes_plain (s : string) :
  none (fun a => Ascii.eqb a "\") s = true -> slashes s = s.
Proof.
  induction s as [|a s IH]; [reflexivity|].
  unfold none. simpl. intros H. apply andb_true_iff in H as [Ha Hs].
  apply negb_true_iff in Ha. unfold slashes, slash. simpl. rewrite Ha.
  f_equal. now apply IH.
Qed.

(** C9 fails as stated: with a terminal root and no shell name
    configured, the command is not rewritten. *)
Lemma terminal_root_needs_shell : ~ terminal_root_rewrites.
Proof.
  intros H. specialize (H EmptyString "/mnt/" "C:\a" ltac:(discriminate)).
  vm_compute in H. discriminate H.
Qed.

(** The path adapter, case by case. *)
Lemma path_adapter_rewrite (platform windowsShell terminalRoot command : string) :
  (platform <> "win32" ->
   changeFilePathForBashOnWindows platform windowsShell terminalRoot command = command)
  /\ (platform = "win32" -> windowsShell <> EmptyString ->
      terminalRoot <> EmptyString ->
      changeFilePathForBashOnWindows platform windowsShell terminalRoot command
      = shellPath (slashes terminalRoot) command
      /\ (none (fun a => Ascii.eqb a "\") terminalRoot = true ->
          changeFilePathForBashOnWindows platform windowsShell terminalRoot command
          = shellPath terminalRoot command))
  /\ (platform = "win32" -> windowsShell <> EmptyString ->
      terminalRoot = EmptyString ->
      contains "bash" (toLowerCase windowsShell)
      && contains "windows" (toLowerCase windowsShell) = true ->
      changeFilePathForBashOnWindows platform windowsShell terminalRoot command
      = shellPath "/mnt/" command)
  /\ (platform = "win32" ->
      windowsShell = EmptyString
      \/ (terminalRoot = EmptyString
          /\ contains "bash" (toLowerCase windowsShell)
             && contains "windows" (toLowerCase windowsShell) = false) ->
      changeFilePathForBashOnWindows platform windowsShell terminalRoot command
      = command).
Proof.
  unfold changeFilePathForBashOnWindows.
  split; [|split; [|split]].
  - intros H. apply String.eqb_neq in H. now rewrite H.
  - intros -> Hs Hr. rewrite String.eqb_refl.
    destruct windowsShell; [contradiction|]. destruct terminalRoot; [contradiction|].
    cbn [is_empty negb andb]. unfold replace_all.
    rewrite replace_backslashes.
    rewrite (replace_drives _ (len command) command _ (le_n _)).
    split; [reflexivity|]. intros Hp. now rewrite (slashes_plain _ Hp).
  - intros -> Hs -> Hb. rewrite String.eqb_refl.
    destruct windowsShell as [|c w]; [contradiction|].
    cbn [is_empty negb andb]. rewrite Hb. unfold replace_all.
    rewrite replace_backslashes.
    apply (replace_drives "/mnt/" (len command) command _ (le_n _)).
  - intros -> [->|[-> Hb]]; rewrite String.eqb_refl.
    + reflexivity.
    + destruct windowsShell; [reflexivity|]. cbn [is_empty negb andb].
      now rewrite Hb.
Qed.

End PathAdapterFacts.

(** ** The temporary file: its name and its text *)

Module TmpFileFacts.
Import Str StrFacts Regex RegexFacts MatcherFacts Js CodeManager Notions.


Lemma len_consumed_cons (a : ascii) (s s' : string) (x : string) :
  s = x ++ s' -> is_empty (consumed (String a s) s') = false.
Proof.
  intros ->. change (String a (x ++ s')) with (String a x ++ s').
  now rewrite consumed_app.
Qed.




Lemma len_take_le (n : nat) (s : string) : len (take n s) <= n.
Proof.
  revert s; induction n as [|n IH]; intros [|a s]; unfold len; simpl; try lia.
  specialize (IH s). unfold len in IH. lia.
Qed.










(** An id that names no inherited member reads as the own property. *)
Lemma member_own (object : gmap string json) (key : string) :
  is_inherited key = false -> member object key = object !! key.
Proof. intros H. unfold member. rewrite H. now destruct (object !! key). Qed.



(** For a language id that names an inherited member and has no entry
    of its own, the extension is the text of that member. *)
Lemma inherited_member_as_extension :
  fileTypeOf ∅ (Some "constructor") ".py" = "function Object() { [native code] }".
Proof. reflexivity. Qed.

(** *** The text of a [php] selection *)













End TmpFileFacts.

(** ** The session *)

Module SessionFacts.
Import Str StrFacts Regex Js CodeManager Notions Session SessionNotions.

Section Preservation.
Context {X : Type} (obs : World -> X).

Lemma preserves_ret {A : Type} (a : A) : preserves obs (ret a).
Proof. intros w. reflexivity. Qed.

Lemma preserves_throw {A : Type} : preserves obs (@throw A).
Proof. intros w. reflexivity. Qed.

Lemma preserves_lift {A : Type} (c : completion A) : preserves obs (lift c).
Proof. intros w. reflexivity. Qed.

Lemma preserves_bind {A B : Type} (c : M A) (f : A -> M B) :
  preserves obs c -> (forall a, preserves obs (f a)) -> preserves obs (bindM c f).
Proof.
  intros Hc Hf w. unfold bindM. specialize (Hc w).
  destruct (c w) as [[a|] w']; simpl in *.
  - now rewrite Hf.
  - exact Hc.
Qed.

Lemma preserves_async (body : M unit) :
  preserves obs body -> preserves obs (async body).
Proof. intros H w. exact (H w). Qed.

Lemma preserves_if {A : Type} (b : bool) (c1 c2 : M A) :
  preserves obs c1 -> preserves obs c2 -> preserves obs (if b then c1 else c2).
Proof. now destruct b. Qed.

Lemma preserves_get {A : Type} (f : State -> A) : preserves obs (get f).
Proof. intros w. reflexivity. Qed.

Lemma preserves_setting {A : Type} (f : Config -> A) : preserves obs (setting f).
Proof.
  apply preserves_bind; [apply preserves_get|].
  intros [c|]; [apply preserves_ret | apply preserves_throw].
Qed.

End Preservation.

End SessionFacts.

Module ResolverFacts.
Import Str StrFacts Regex Js CodeManager Notions Session SessionNotions SessionFacts.

Lemma getExecutor_run (env : Env) (w : World) (c : Config)
  (languageId : option string) (fileExtension lang : string) :
  _config (this w) = Some c ->
  requestedLanguage env languageId = Some lang ->
  Session.getExecutor env languageId fileExtension w
  = let '(executor, effective) :=
      CodeManager.getExecutor (executorMap c) (executorMapByFileExtension c)
        (defaultLanguage c) lang (Some lang) fileExtension in
    (Return executor, withThis (set_languageId (Some effective)) w).
Proof.
  intros Hc Hl. unfold Session.getExecutor, bindM, setting, get, ret, set.
  unfold requestedLanguage in Hl.
  destruct languageId as [l|].
  - injection Hl as ->. repeat (progress (rewrite ?Hc; cbn)).
    change (CodeManager.getExecutor (executorMap c) (executorMapByFileExtension c)
              (defaultLanguage c) EmptyString (Some lang) fileExtension)
      with (CodeManager.getExecutor (executorMap c) (executorMapByFileExtension c)
              (defaultLanguage c) lang (Some lang) fileExtension).
    now destruct (CodeManager.getExecutor _ _ _ _ _ _).
  - destruct (activeTextEditor env) as [e|]; [|discriminate].
    injection Hl as <-. repeat (progress (rewrite ?Hc; cbn)).
    change (CodeManager.getExecutor (executorMap c) (executorMapByFileExtension c)
              (defaultLanguage c) (languageId e) None fileExtension)
      with (CodeManager.getExecutor (executorMap c) (executorMapByFileExtension c)
              (defaultLanguage c) (languageId e) (Some (languageId e)) fileExtension).
    now destruct (CodeManager.getExecutor _ _ _ _ _ _).
Qed.

(** Where the ids looked up name no inherited member, the resolution is
    the fall-back of the three lookups: an id configured in [executorMap]
    resolves to its template; an id without an entry there (or with
    [null]) and a non-empty extension found in the extension map resolve
    to that entry, the extension becoming the effective language id; when
    both miss, the entry of the default language is returned, the default
    language becoming the effective id; and this is [null] or [undefined]
    when the default language has no entry either. *)
Lemma executor_resolution (env : Env) (w : World) (c : Config)
  (languageId : option string) (fileExtension lang : string) :
  _config (this w) = Some c ->
  requestedLanguage env languageId = Some lang ->
  is_inherited lang = false ->
  is_inherited fileExtension = false ->
  is_inherited (defaultLanguage c) = false ->
  (forall template,
     executorMap c !! lang = Some (JString template) ->
     resolves env w languageId fileExtension (Some (JString template)) lang)
  /\ (forall template,
        is_nullish (executorMap c !! lang) = true ->
        fileExtension <> EmptyString ->
        executorMapByFileExtension c !! fileExtension = Some (JString template) ->
        resolves env w languageId fileExtension (Some (JString template)) fileExtension)
  /\ (is_nullish (executorMap c !! lang) = true ->
      fileExtension = EmptyString
      \/ is_nullish (executorMapByFileExtension c !! fileExtension) = true ->
      resolves env w languageId fileExtension
        (executorMap c !! defaultLanguage c) (defaultLanguage c)
      /\ (is_nullish (executorMap c !! defaultLanguage c) = true ->
          exists executor,
            resolves env w languageId fileExtension executor (defaultLanguage c)
            /\ is_nullish executor = true)).
Proof.
  intros Hc Hl Hil Hie Hid. unfold resolves.
  rewrite (getExecutor_run env w c languageId fileExtension lang Hc Hl).
  unfold CodeManager.getExecutor.
  rewrite !(TmpFileFacts.member_own _ _ Hil), !(TmpFileFacts.member_own _ _ Hie),
    !(TmpFileFacts.member_own _ _ Hid).
  split; [|split].
  - intros template Ht. rewrite Ht. reflexivity.
  - intros template Hn He Ht. rewrite Hn, Ht.
    destruct fileExtension; [contradiction | reflexivity].
  - intros Hn Hm. rewrite Hn.
    assert (E : (let '(executor1, languageId1) :=
                   if true && negb (is_empty fileExtension)
                   then (executorMapByFileExtension c !! fileExtension,
                         if negb (is_nullish (executorMapByFileExtension c !! fileExtension))
                         then fileExtension else lang)
                   else (executorMap c !! lang, lang) in
                 if is_nullish executor1
                 then (executorMap c !! defaultLanguage c, defaultLanguage c)
                 else (executor1, languageId1))
                = (executorMap c !! defaultLanguage c, defaultLanguage c)).
    { destruct Hm as [->|Hm].
      - cbn. now rewrite Hn.
      - destruct (is_empty fileExtension); cbn; [now rewrite Hn | now rewrite Hm]. }
    rewrite E. split; [reflexivity|].
    intros Hd. exists (executorMap c !! defaultLanguage c). auto.
Qed.

(** C2 is broken by the code: the resolver reads [executorMap] by member
    access, and an id that names a member every object inherits finds
    that member.  For the language id [constructor] and a file [a.rb]
    whose extension has an executor, the resolver returns the inherited
    function and never consults the extension map; for a language
    without executor and the default language [constructor], it returns
    the function where all three lookups miss; and the run of such a
    document shows no notice and throws in the command builder with the
    running flag set. *)
Theorem inherited_member_stops_fallback :
  CodeManager.getExecutor {[ "python" := JString "python -u" ]}
    {[ ".rb" := JString "ruby" ]} "python" "constructor" None ".rb"
  = (Some (JInherited "constructor"), "constructor")
  /\ CodeManager.getExecutor {[ "python" := JString "python -u" ]} ∅
       "constructor" "cobol" None EmptyString
     = (Some (JInherited "constructor"), "constructor")
  /\ (let w := snd (run constructorEnv None (initialWorld ∅)) in
      fst (run constructorEnv None (initialWorld ∅)) = ThrowTypeError
      /\ notices w = []
      /\ _languageId (this w) = Some "constructor"
      /\ _isRunning (this w) = true
      /\ children w = ∅).
Proof. vm_compute. repeat split; reflexivity. Qed.

End ResolverFacts.

Module RunnerFacts.
Import Str StrFacts Regex Js CodeManager Notions Session SessionNotions SessionFacts.
Import TmpFileFacts.

Ltac preserved :=
  repeat first
    [ apply preserves_bind; [|intros ?]
    | apply preserves_ret
    | apply preserves_throw
    | apply preserves_lift
    | match goal with
      | |- preserves _ (async _) => apply preserves_async
      end
    | apply preserves_get
    | apply preserves_setting
    | apply preserves_if
    | match goal with
      | |- preserves _ (match ?x with _ => _ end) => destruct x
      end
    | (intros ?; reflexivity) ].

(** *** What the two ways to execute leave as it is *)

Lemma getFinalCommand_preserves {X : Type} (obs : World -> X)
  (env : Env) (executor : json) (appendFile : bool) :
  preserves obs (Session.getFinalCommandToRunCodeFile env executor appendFile).
Proof. unfold Session.getFinalCommandToRunCodeFile. preserved. Qed.

Lemma changeFilePath_preserves {X : Type} (obs : World -> X)
  (env : Env) (command : string) :
  preserves obs (Session.changeFilePathForBashOnWindows env command).
Proof. unfold Session.changeFilePathForBashOnWindows. preserved. Qed.

Lemma sendToTerminal_codeFile (env : Env) (command : string) :
  preserves codeFileView (sendToTerminal env command).
Proof.
  unfold sendToTerminal. preserved; try apply changeFilePath_preserves; preserved.
Qed.

Lemma executeCommandInTerminal_codeFile (env : Env) (executor : json)
  (appendFile : bool) :
  preserves codeFileView (executeCommandInTerminal env executor appendFile).
Proof.
  unfold executeCommandInTerminal.
  preserved;
    try apply getFinalCommand_preserves;
    try apply changeFilePath_preserves;
    try apply sendToTerminal_codeFile; preserved.
Qed.

Lemma executeCommandInOutputChannel_codeFile (env : Env) (executor : json)
  (appendFile : bool) :
  preserves codeFileView (executeCommandInOutputChannel env executor appendFile).
Proof.
  unfold executeCommandInOutputChannel.
  preserved; try apply getFinalCommand_preserves; preserved.
Qed.

Lemma executeCommand_codeFile (env : Env) (executor : json) (appendFile : bool) :
  preserves codeFileView (executeCommand env executor appendFile).
Proof.
  unfold executeCommand.
  preserved;
    first [apply executeCommandInTerminal_codeFile
          |apply executeCommandInOutputChannel_codeFile].
Qed.

Lemma setting_run {A : Type} (f : Config -> A) (w : World) (c : Config) :
  _config (this w) = Some c -> setting f w = (Return (f c), w).
Proof. intros H. unfold setting, bindM, get. cbn. now rewrite H. Qed.

Lemma bindM_run {A B : Type} (m : M A) (f : A -> M B) (w w' : World) (a : A) :
  m w = (Return a, w') -> bindM m f w = f a w'.
Proof. intros H. unfold bindM. now rewrite H. Qed.

(** *** Writing the temporary file *)

Lemma createRandomFile_run (env : Env) (w : World) (c : Config)
  (content folder fileExtension : string) :
  _config (this w) = Some c ->
  let codeFile :=
    join env folder
      (tmpFileName (languageIdToFileExtensionMap c) (_languageId (this w))
         fileExtension (random36 env (randomCalls w))) in
  let w' := snd (createRandomFile env content (Some folder) fileExtension w) in
  fst (createRandomFile env content (Some folder) fileExtension w) = Return tt
  /\ _codeFile (this w') = Some codeFile
  /\ files w' = <[codeFile := content]> (files w)
  /\ _isTmpFile (this w') = _isTmpFile (this w).
Proof.
  intros Hc. unfold createRandomFile.
  rewrite (bindM_run _ _ _ _ _ (setting_run _ w c Hc)).
  unfold bindM, get, nextRandom36, set, writeFileSync, withFiles. cbn.
  auto.
Qed.



(** *** Stopping *)

(** [stop] goes by the flag: with the flag set and a process tracked, it
    clears the flag at once and asks for the tracked process and its
    descendants to be killed, the child still being there; with the flag
    clear, and so on a second [stop] right after a first, it only
    reports its telemetry event. *)
Lemma stop_kills_or_does_nothing (w : World) :
  (forall pid,
     _isRunning (this w) = true -> _process (this w) = Some pid ->
     let w' := snd (stop w) in
     fst (stop w) = Return tt
     /\ _isRunning (this w') = false
     /\ killRequests w' = (killRequests w ++ [pid])%list
     /\ children w' = children w
     /\ codeFileView w' = codeFileView w)
  /\ (_isRunning (this w) = false -> stop w = sendEvent "stop" w)
  /\ (let w1 := snd (stop w) in stop w1 = sendEvent "stop" w1).
Proof.
  assert (Hidle : forall w0, _isRunning (this w0) = false -> stop w0 = sendEvent "stop" w0).
  { intros w0 Hr. unfold stop, bindM, sendEvent, get, ret. cbn. now rewrite Hr. }
  split; [|split].
  - intros pid Hr Hp. unfold stop, bindM, sendEvent, get, set, kill. cbn.
    rewrite Hr. cbn. rewrite Hp. cbn. auto.
  - apply Hidle.
  - cbv zeta. apply Hidle.
    unfold stop, bindM, sendEvent, get, set, kill, ret, throw. cbn.
    destruct (_isRunning (this w)) eqn:Hr; cbn; [|assumption].
    now destruct (_process (this w)).
Qed.

Lemma stop_kills_or_does_nothing_witness :
  let w := steps (pythonEnv pythonConfig) (initialWorld ∅) [Run] in
  _isRunning (this w) = true
  /\ _isRunning (this (snd (stop w))) = false
  /\ killRequests (snd (stop w)) = [0]
  /\ children (snd (stop w)) = children w.
Proof.
  intros w.
  destruct (stop_kills_or_does_nothing w) as (H & _).
  destruct (H 0 eq_refl eq_refl) as (_ & H1 & H2 & H3 & _).
  split; [reflexivity|]. split; [exact H1|]. split; [exact H2 | exact H3].
Defined.

(** C8 is broken by the code: [stop] goes by the flag and not by the
    process.  After a stop and a new run, the close of the stopped child
    clears the flag of the new run: the second child is tracked and
    running, and [stop] asks for no kill and leaves it running.  And
    after a run whose command builder has thrown, the flag is set with
    no process tracked: no process is running, and [stop] throws instead
    of doing nothing. *)
Theorem stop_misses_running_child :
  (let env := pythonEnv pythonConfig in
   let w := steps env (initialWorld ∅) [Run; Stop; Run; ChildClosed 0 "null" "0.012"] in
   List.map fst (map_to_list (children w)) = [1]
   /\ _process (this w) = Some 1
   /\ _isRunning (this w) = false
   /\ killRequests w = [0]
   /\ killRequests (step env w Stop) = [0]
   /\ List.map fst (map_to_list (children (step env w Stop))) = [1])
  /\ (let w := step makefileEnv (initialWorld ∅) Run in
      children w = ∅
      /\ _process (this w) = None
      /\ _isRunning (this w) = true
      /\ fst (stop w) = ThrowTypeError
      /\ killRequests (snd (stop w)) = []).
Proof.
  split; cbv zeta; repeat split; vm_compute; reflexivity.
Qed.

(** *** One run at a time *)

Lemma run_while_running (env : Env) (languageId : option string) (w : World) :
  running w -> run env languageId w = showInformationMessage "Code is already running!" w.
Proof. intros H. unfold run, bindM, get. cbn. now rewrite H. Qed.

Lemma runCustomCommand_while_running (env : Env) (w : World) :
  running w ->
  runCustomCommand env w = showInformationMessage "Code is already running!" w.
Proof. intros H. unfold runCustomCommand, bindM, get. cbn. now rewrite H. Qed.

(** C7 is broken by the code: after a stop and a new run, the close of
    the stopped child clears the flag of the new run, and a third run
    starts while the second is in flight; and with [saveFileBeforeRun]
    two runs pass the guard before either has set the flag. *)
Theorem two_runs_in_flight :
  (let w := steps (pythonEnv pythonConfig) (initialWorld ∅)
              [Run; Stop; Run; ChildClosed 0 "null" "0.012"; Run] in
   List.map fst (map_to_list (children w)) = [2; 1]
   /\ killRequests w = [0]
   /\ ~ oneRunAtMost w)
  /\ (let w := steps (pythonEnv savingConfig) (initialWorld ∅)
                 [Run; Run; Fulfilled 0 None; Fulfilled 0 None] in
      List.map fst (map_to_list (children w)) = [1; 0]
      /\ killRequests w = []
      /\ notices w = []
      /\ ~ oneRunAtMost w).
Proof.
  split.
  - cbv zeta. split; [vm_compute; reflexivity|]. split; [vm_compute; reflexivity|].
    unfold oneRunAtMost.
    assert (E : size (children (steps (pythonEnv pythonConfig) (initialWorld ∅)
                  [Run; Stop; Run; ChildClosed 0 "null" "0.012"; Run])) = 2)
      by (vm_compute; reflexivity).
    rewrite E. lia.
  - cbv zeta. split; [vm_compute; reflexivity|]. split; [vm_compute; reflexivity|].
    split; [vm_compute; reflexivity|].
    unfold oneRunAtMost.
    assert (E : size (children (steps (pythonEnv savingConfig) (initialWorld ∅)
                  [Run; Run; Fulfilled 0 None; Fulfilled 0 None])) = 2)
      by (vm_compute; reflexivity).
    rewrite E. lia.
Qed.

End RunnerFacts.

Module PipelineFacts.
Import Str StrFacts Regex Js CodeManager Notions Session SessionNotions SessionFacts.
Import TmpFileFacts PathAdapterFacts RunnerFacts.

(** *** The running flag *)

Lemma maintains_bind {A B : Type} (P : World -> Prop) (c : M A) (f : A -> M B) :
  maintains P c -> (forall a, maintains P (f a)) -> maintains P (bindM c f).
Proof.
  intros Hc Hf w Hw. unfold bindM. specialize (Hc w Hw).
  destruct (c w) as [[a|] w']; cbn [snd] in *; [now apply Hf | assumption].
Qed.

Lemma preserves_maintains {A : Type} (c : M A) :
  preserves (fun w => _isRunning (this w)) c -> maintains running c.
Proof. intros H w Hw. unfold running. now rewrite H. Qed.

Lemma sendToTerminal_flag (env : Env) (command : string) :
  preserves (fun w => _isRunning (this w)) (sendToTerminal env command).
Proof.
  unfold sendToTerminal. preserved; try apply changeFilePath_preserves; preserved.
Qed.

Lemma executeCommandInTerminal_flag (env : Env) (executor : json) (appendFile : bool) :
  preserves (fun w => _isRunning (this w))
    (executeCommandInTerminal env executor appendFile).
Proof.
  unfold executeCommandInTerminal.
  preserved;
    try apply getFinalCommand_preserves;
    try apply changeFilePath_preserves;
    try apply sendToTerminal_flag; preserved.
Qed.

(** The output channel sets the flag and leaves it set, even when the
    command builder throws. *)
Lemma executeCommandInOutputChannel_sets_flag (env : Env) (executor : json)
  (appendFile : bool) (w : World) :
  running (snd (executeCommandInOutputChannel env executor appendFile w)).
Proof.
  unfold executeCommandInOutputChannel.
  match goal with
  | |- running (snd (bindM ?c ?f w)) =>
      change (bindM c f w) with (f tt (withThis (set_isRunning true) w))
  end.
  assert (Hw : running (withThis (set_isRunning true) w)) by reflexivity.
  revert Hw. generalize (withThis (set_isRunning true) w). intros w1 Hw.
  match goal with
  | |- running (snd (?c w1)) => assert (Hp : preserves (fun w => _isRunning (this w)) c)
  end.
  { preserved; try apply getFinalCommand_preserves; preserved. }
  unfold running. now rewrite Hp.
Qed.

Lemma executeCommand_running (env : Env) (executor : json) (appendFile : bool) :
  maintains running (executeCommand env executor appendFile).
Proof.
  unfold executeCommand.
  apply maintains_bind; [apply preserves_maintains, preserves_setting|]. intros r.
  apply maintains_bind; [apply preserves_maintains, preserves_get|]. intros t.
  destruct (r && negb t).
  - apply preserves_maintains, executeCommandInTerminal_flag.
  - intros w _. apply executeCommandInOutputChannel_sets_flag.
Qed.

(** While the flag is set, only [stop] and the close of a child clear
    it; the two entry points that start a run are rejected with the
    notice and change nothing else. *)
Lemma flag_cleared_only_by_stop_or_close (env : Env) (w : World) (e : event) :
  running w -> ~ running (step env w e) ->
  e = Stop \/ exists pid code elapsedTime, e = ChildClosed pid code elapsedTime.
Proof.
  intros Hw Hn. destruct e as [| | | | |i value|pid data|pid code t];
    try (left; reflexivity); try (right; eauto; fail); exfalso; apply Hn;
    unfold step, react.
  - now rewrite run_while_running.
  - now rewrite runCustomCommand_while_running.
  - exact Hw.
  - exact Hw.
  - clear Hn. revert w Hw.
    apply maintains_bind; [apply preserves_maintains; intros ?; reflexivity|].
    intros [k|]; [|apply preserves_maintains, preserves_ret].
    destruct k as [executor appendFile|command|]; cbn [resume].
    + apply executeCommand_running.
    + apply preserves_maintains, sendToTerminal_flag.
    + destruct value as [l|]; [|apply preserves_maintains, preserves_ret].
      intros w Hw. now rewrite run_while_running.
  - destruct (children w !! pid); exact Hw.
Qed.

Lemma run_rejected (env : Env) (languageId : option string) (w : World) :
  running w ->
  let w' := snd (run env languageId w) in
  notices w' = (notices w ++ ["Code is already running!"])%list
  /\ processView w' = processView w /\ this w' = this w.
Proof. intros H. rewrite run_while_running by assumption. cbn. auto. Qed.

Lemma runCustomCommand_rejected (env : Env) (w : World) :
  running w ->
  let w' := snd (runCustomCommand env w) in
  notices w' = (notices w ++ ["Code is already running!"])%list
  /\ processView w' = processView w /\ this w' = this w.
Proof. intros H. rewrite runCustomCommand_while_running by assumption. cbn. auto. Qed.

(** *** Which commands the path adapter reaches *)

Lemma output_channel_command (env : Env) (w : World) (c : Config)
  (executor command : string) (appendFile : bool) :
  _config (this w) = Some c ->
  CodeManager.getFinalCommandToRunCodeFile (rootPath env) (_codeFile (this w))
    executor appendFile = Return command ->
  children (snd (executeCommandInOutputChannel env executor appendFile w)) !! spawned w
  = Some {| childCommand := command; childCwd := _cwd (this w);
            childShowsDone := showExecutionMessage c |}.
Proof.
  intros Hc Hf. unfold executeCommandInOutputChannel.
  unfold bindM, set, setting, get, Session.getFinalCommandToRunCodeFile, lift,
    outputClear, outputAppendLine, withOutput, sendEvent, spawn, ret.
  cbn. rewrite Hc. cbn.
  destruct (clearPreviousOutput c); cbn; rewrite ?Hc; cbn; rewrite Hf; cbn;
    destruct (showExecutionMessage c); cbn; apply lookup_insert_eq.
Qed.

Lemma terminal_command (env : Env) (w : World) (c : Config)
  (executor command : string) (appendFile : bool) :
  _config (this w) = Some c -> _terminal (this w) = None ->
  fileDirectoryAsCwd c = false ->
  CodeManager.getFinalCommandToRunCodeFile (rootPath env) (_codeFile (this w))
    (CodeManager.changeExecutorFromCmdToPs (platform env) (windowsShell env) executor)
    appendFile = Return command ->
  terminalInput (snd (executeCommandInTerminal env executor appendFile w))
  = (terminalInput w
     ++ [(terminals w,
          CodeManager.changeFilePathForBashOnWindows (platform env) (windowsShell env)
            (terminalRoot c) command)])%list.
Proof.
  intros Hc Ht Hd Hf.
  destruct w as [[t r p cf tmp l cw cfg] ns tel out tin tn fs ch sp kr rc pd].
  cbn in Hc, Ht, Hf. subst cfg t.
  unfold executeCommandInTerminal, sendToTerminal,
    Session.getFinalCommandToRunCodeFile, Session.changeFilePathForBashOnWindows,
    Session.changeExecutorFromCmdToPs, setting, bindM, get, set, lift, ret,
    createTerminal, sendEvent, sendText, andThen.
  cbn. rewrite Hf. cbn. rewrite andb_false_r. cbn. rewrite Hd. reflexivity.
Qed.

(** C9, amended: the path adapter rewrites what is sent to the terminal
    and not the command of the output channel.  On a host other than
    Windows the command is returned as it is; on Windows with a shell
    name and a terminal root configured, every drive-letter prefix
    becomes the terminal root (its own backslashes turned into slashes),
    the lower-case drive letter and a slash, and every other backslash a
    slash; else, with a shell name that contains both [bash] and
    [windows] in any letter case, the same with the prefix [/mnt/]; in
    every other case, a terminal root without a shell name among them,
    the command is returned as it is. *)
Theorem path_adapter (platform windowsShell terminalRoot command : string) :
  (platform <> "win32" ->
   CodeManager.changeFilePathForBashOnWindows platform windowsShell terminalRoot command
   = command)
  /\ (platform = "win32" -> windowsShell <> EmptyString ->
      terminalRoot <> EmptyString ->
      CodeManager.changeFilePathForBashOnWindows platform windowsShell terminalRoot command
      = shellPath (slashes terminalRoot) command
      /\ (none (fun a => Ascii.eqb a "\") terminalRoot = true ->
          CodeManager.changeFilePathForBashOnWindows platform windowsShell terminalRoot
            command
          = shellPath terminalRoot command))
  /\ (platform = "win32" -> windowsShell <> EmptyString ->
      terminalRoot = EmptyString ->
      contains "bash" (toLowerCase windowsShell)
      && contains "windows" (toLowerCase windowsShell) = true ->
      CodeManager.changeFilePathForBashOnWindows platform windowsShell terminalRoot command
      = shellPath "/mnt/" command)
  /\ (platform = "win32" ->
      windowsShell = EmptyString
      \/ (terminalRoot = EmptyString
          /\ contains "bash" (toLowerCase windowsShell)
             && contains "windows" (toLowerCase windowsShell) = false) ->
      CodeManager.changeFilePathForBashOnWindows platform windowsShell terminalRoot command
      = command)
  /\ (forall env w c executor final appendFile,
        _config (this w) = Some c ->
        CodeManager.getFinalCommandToRunCodeFile (rootPath env) (_codeFile (this w))
          executor appendFile = Return final ->
        children (snd (executeCommandInOutputChannel env executor appendFile w))
          !! spawned w
        = Some {| childCommand := final; childCwd := _cwd (this w);
                  childShowsDone := showExecutionMessage c |})
  /\ (forall env w c executor final appendFile,
        _config (this w) = Some c -> _terminal (this w) = None ->
        fileDirectoryAsCwd c = false ->
        CodeManager.getFinalCommandToRunCodeFile (rootPath env) (_codeFile (this w))
          (CodeManager.changeExecutorFromCmdToPs (Session.platform env)
             (Session.windowsShell env) executor)
          appendFile = Return final ->
        terminalInput (snd (executeCommandInTerminal env executor appendFile w))
        = (terminalInput w
           ++ [(terminals w,
                CodeManager.changeFilePathForBashOnWindows (Session.platform env)
                  (Session.windowsShell env) (Session.terminalRoot c) final)])%list).
Proof.
  destruct (path_adapter_rewrite platform windowsShell terminalRoot command)
    as (H1 & H2 & H3 & H4).
  split; [exact H1|]. split; [exact H2|]. split; [exact H3|]. split; [exact H4|].
  split.
  - intros env w c executor final appendFile. apply output_channel_command.
  - intros env w c executor final appendFile. apply terminal_command.
Qed.

Lemma path_adapter_witness :
  CodeManager.changeFilePathForBashOnWindows "win32"
    "C:\Program Files\Git\bin\bash.exe" "/" "cd C:\Users\me && D:\x\y.exe"
  = "cd /c/Users/me && /d/x/y.exe"
  /\ CodeManager.changeFilePathForBashOnWindows "win32" "C:\Windows\System32\bash.exe"
       EmptyString "cd C:\Users\me"
     = "cd /mnt/c/Users/me"
  /\ CodeManager.changeFilePathForBashOnWindows "linux" "/bin/bash" "/" "cd C:\Users\me"
     = "cd C:\Users\me"
  /\ CodeManager.changeFilePathForBashOnWindows "win32" "cmd.exe" EmptyString
       "cd C:\Users\me"
     = "cd C:\Users\me".
Proof.
  split; [|split; [|split]].
  - destruct (path_adapter "win32" "C:\Program Files\Git\bin\bash.exe" "/"
                "cd C:\Users\me && D:\x\y.exe") as (_ & H & _).
    destruct H as [H _]; [reflexivity | discriminate | discriminate|].
    rewrite H. reflexivity.
  - destruct (path_adapter "win32" "C:\Windows\System32\bash.exe" EmptyString
                "cd C:\Users\me") as (_ & _ & H & _).
    rewrite H; [reflexivity | reflexivity | discriminate | reflexivity | reflexivity].
  - destruct (path_adapter "linux" "/bin/bash" "/" "cd C:\Users\me") as (H & _).
    apply H. discriminate.
  - destruct (path_adapter "win32" "cmd.exe" EmptyString "cd C:\Users\me")
      as (_ & _ & _ & H & _).
    apply H; [reflexivity|]. right. split; reflexivity.
Defined.



End PipelineFacts.

(** * More of the code *)

(** ** What the path helpers return *)

Module PathValueFacts.
Import Str StrFacts Regex RegexFacts MatcherFacts Js CodeManager Notions PathFacts.
Import MoreNotions.

Lemma StarMatches_shorter (c : cclass) (s t : string) :
  StarMatches c s t -> len t <= len s.
Proof.
  intros H. apply StarMatches_suffix in H as (x & -> & _). rewrite len_app. lia.
Qed.

(** The greedy repetition stops where the continuation succeeds first,
    coming from the longest run. *)
Lemma star_greedy {R : Type} (c : cclass) (x s' : string)
  (k : string -> option R) (r : R) :
  all (cclass_match c) x = true ->
  k s' = Some r ->
  (forall t, StarMatches c s' t -> t <> s' -> k t = None) ->
  star c (x ++ s') k = Some r.
Proof.
  intros Hx Hk Hlonger. induction x as [|a x IH].
  - cbn [String.append]. destruct s' as [|a s'']; [exact Hk|].
    cbn [star]. destruct (cclass_match c a) eqn:Ea; [|exact Hk].
    assert (E : star c s'' k = None).
    { apply star_None. intros t Ht. apply Hlonger; [now constructor|].
      intros ->. apply StarMatches_shorter in Ht. unfold len in Ht; simpl in Ht; lia. }
    now rewrite E.
  - cbn [all] in Hx. apply andb_true_iff in Hx as [Ha Hx].
    change (String a x ++ s') with (String a (x ++ s')).
    cbn [star]. rewrite Ha, (IH Hx). reflexivity.
Qed.

Lemma star_all {R : Type} (c : cclass) (x : string) (k : string -> option R) (r : R) :
  all (cclass_match c) x = true -> k EmptyString = Some r -> star c x k = Some r.
Proof.
  intros Hx Hk. rewrite <- (app_nil_r x).
  apply star_greedy; [assumption | assumption|].
  intros t Ht Hne. inversion Ht; subst. contradiction.
Qed.

Lemma star_constant {R : Type} (c : cclass) (s : string) (r : R) :
  star c s (fun _ => Some r) = Some r.
Proof.
  induction s as [|a s IH]; cbn [star]; [reflexivity|].
  destruct (cclass_match c a); [now rewrite IH | reflexivity].
Qed.

Lemma search_here (r : regex) (before s : string) (m : match_result) :
  match_here r before s = Some m -> search r before s = Some m.
Proof. intros H. destruct s; cbn [search]; now rewrite H. Qed.

Lemma none_cons (f : ascii -> bool) (a : ascii) (s : string) :
  none f (String a s) = negb (f a) && none f s.
Proof. reflexivity. Qed.

(** After the last separator, no later position starts with a separator. *)
Lemma after_last_separator (a : ascii) (b t : string) :
  none is_separator b = true ->
  StarMatches CDot (String a b) t -> t <> String a b ->
  match t with
  | String c _ => is_separator c = false
  | EmptyString => True
  end.
Proof.
  intros Hb Ht Hne. apply StarMatches_suffix in Ht as (x & E & _).
  destruct x as [|c x]; [simpl in E; congruence|].
  simpl in E. injection E as _ ->.
  destruct t as [|e t]; [trivial|]. now apply none_true_app in Hb.
Qed.

Lemma split_no_line_terminator (codeFile d : string) (a : ascii) (b : string) :
  lastSeparatorSplit codeFile d a b ->
  all (cclass_match CDot) d = true /\ all (cclass_match CDot) b = true.
Proof.
  intros (-> & _ & _ & H). rewrite none_app, none_cons in H.
  apply andb_true_iff in H as [Hd H]. apply andb_true_iff in H as [_ Hb].
  split; assumption.
Qed.

Lemma getCodeFileDir_split (codeFile d : string) (a : ascii) (b : string) :
  lastSeparatorSplit codeFile d a b ->
  getCodeFileDir codeFile = Return (d ++ String a EmptyString).
Proof.
  intros H. destruct (split_no_line_terminator _ _ _ _ H) as [Hd Hb].
  destruct H as (-> & Ha & Hsep & _).
  unfold getCodeFileDir, js_match.
  rewrite (search_here dirRegex EmptyString (d ++ String a b)
             (MatchResult EmptyString (d ++ String a b) EmptyString
                [(1, d ++ String a EmptyString)])).
  - reflexivity.
  - unfold match_here, dirRegex. cbn [exec].
    apply star_greedy; [exact Hd | |].
    + rewrite separator_match, Ha.
      apply star_all; [exact Hb|]. f_equal. f_equal.
      * rewrite <- (app_nil_r (d ++ String a b)) at 1. apply consumed_app.
      * f_equal. f_equal.
        change (d ++ String a b) with (d ++ String a EmptyString ++ b).
        rewrite <- app_assoc. apply consumed_app.
    + intros t Ht Hne. pose proof (after_last_separator a b t Hsep Ht Hne) as Hc.
      destruct t as [|c t]; [reflexivity|]. now rewrite separator_match, Hc.
Qed.

Lemma getCodeBaseFile_split (codeFile d : string) (a : ascii) (b : string) :
  lastSeparatorSplit codeFile d a b ->
  getCodeBaseFile codeFile = Return b.
Proof.
  intros H. destruct (split_no_line_terminator _ _ _ _ H) as [Hd Hb].
  destruct H as (-> & Ha & Hsep & _).
  unfold getCodeBaseFile, js_match.
  rewrite (search_here baseFileRegex EmptyString (d ++ String a b)
             (MatchResult EmptyString (d ++ String a b) EmptyString [(1, b)])).
  - reflexivity.
  - unfold match_here, baseFileRegex. cbn [exec].
    apply star_greedy; [exact Hd | |].
    + rewrite separator_match, Ha.
      apply star_all; [exact Hb|]. f_equal. f_equal.
      * rewrite <- (app_nil_r (d ++ String a b)) at 1. apply consumed_app.
      * f_equal. f_equal.
        rewrite <- (app_nil_r b) at 1. apply consumed_app.
    + intros t Ht Hne. pose proof (after_last_separator a b t Hsep Ht Hne) as Hc.
      destruct t as [|c t]; [reflexivity|]. now rewrite separator_match, Hc.
Qed.

(** X3: on a path with a separator and without line terminator, the
    directory is the path up to its last separator, this included, and the
    base name is what follows it: the two make up the path, and the base
    name has no separator. *)
Theorem directory_and_base_name (codeFile d : string) (a : ascii) (b : string) :
  lastSeparatorSplit codeFile d a b ->
  exists dir base,
    getCodeFileDir codeFile = Return dir
    /\ getCodeBaseFile codeFile = Return base
    /\ dir = d ++ String a EmptyString /\ base = b
    /\ codeFile = dir ++ base
    /\ none is_separator base = true.
Proof.
  intros H. exists (d ++ String a EmptyString), b.
  split; [exact (getCodeFileDir_split _ _ _ _ H)|].
  split; [exact (getCodeBaseFile_split _ _ _ _ H)|].
  destruct H as (-> & _ & Hsep & _).
  repeat split; [|exact Hsep].
  rewrite app_assoc. reflexivity.
Qed.

Lemma directory_and_base_name_witness :
  getCodeFileDir "C:\Users\me/a.tar.gz" = Return "C:\Users\me/"
  /\ getCodeBaseFile "C:\Users\me/a.tar.gz" = Return "a.tar.gz".
Proof.
  destruct (directory_and_base_name "C:\Users\me/a.tar.gz" "C:\Users\me" "/" "a.tar.gz")
    as (dir & base & H1 & H2 & -> & -> & _); [repeat split; reflexivity|].
  split; assumption.
Defined.

(** *** The extension *)

Lemma from_last_dot_None (s : string) :
  none is_dot s = true -> from_last_dot s = None.
Proof.
  induction s as [|a s IH]; [reflexivity|].
  rewrite none_cons. intros H. apply andb_true_iff in H as [Ha Hs].
  cbn [from_last_dot]. rewrite (IH Hs).
  unfold is_dot in Ha. apply negb_true_iff in Ha. now rewrite Ha.
Qed.

Lemma from_last_dot_Some (pre e : string) :
  none is_dot e = true ->
  from_last_dot (pre ++ String "." e) = Some (String "." e).
Proof.
  intros He. induction pre as [|c pre IH].
  - cbn [String.append from_last_dot]. now rewrite (from_last_dot_None e He).
  - change (String c pre ++ String "." e) with (String c (pre ++ String "." e)).
    cbn [from_last_dot]. now rewrite IH.
Qed.

Lemma last_dot_split (s : string) :
  none is_dot s = false ->
  exists pre e, s = pre ++ String "." e /\ none is_dot e = true.
Proof.
  induction s as [|a s IH]; [discriminate|].
  rewrite none_cons. destruct (none is_dot s) eqn:Es.
  - rewrite andb_true_r. intros Ha. apply negb_false_iff in Ha.
    unfold is_dot in Ha. apply Ascii.eqb_eq in Ha as ->.
    exists EmptyString, s. auto.
  - intros _. destruct (IH eq_refl) as (pre & e & -> & He).
    exists (String a pre), e. auto.
Qed.

(** X2: the extension of a file name is empty exactly when the name has no
    dot, and otherwise the text from its last dot on: a dot and a text
    without dot, which ends the file name. *)
Theorem file_extension (fileName : string) :
  (getFileExtension fileName = EmptyString <-> none is_dot fileName = true)
  /\ (forall pre e,
        fileName = pre ++ String "." e -> none is_dot e = true ->
        getFileExtension fileName = String "." e)
  /\ (none is_dot fileName = false ->
      exists pre e,
        fileName = pre ++ getFileExtension fileName
        /\ getFileExtension fileName = String "." e /\ none is_dot e = true).
Proof.
  split; [|split].
  - unfold getFileExtension. split.
    + intros H. destruct (none is_dot fileName) eqn:E; [reflexivity|].
      destruct (last_dot_split _ E) as (pre & e & -> & He).
      rewrite (from_last_dot_Some pre e He) in H. discriminate.
    + intros H. now rewrite (from_last_dot_None _ H).
  - intros pre e -> He. unfold getFileExtension. now rewrite from_last_dot_Some.
  - intros H. destruct (last_dot_split _ H) as (pre & e & -> & He).
    exists pre, e. unfold getFileExtension. rewrite (from_last_dot_Some pre e He). auto.
Qed.

(** *** The stem *)

(** After the last dot of the base name, no later position starts with a dot. *)
Lemma after_last_dot (e t : string) :
  none is_dot e = true ->
  StarMatches CDot (String "." e) t -> t <> String "." e ->
  match t with
  | String c _ => Ascii.eqb c "." = false
  | EmptyString => True
  end.
Proof.
  intros He Ht Hne. apply StarMatches_suffix in Ht as (x & E & _).
  destruct x as [|c x]; [simpl in E; congruence|].
  simpl in E. injection E as _ ->.
  destruct t as [|c' t]; [trivial|]. now apply none_true_app in He.
Qed.

(** X4: on a path without line terminator whose base name has a dot, the
    stem is the base name up to its last dot, and directory, stem and
    extension make up the path. *)
Theorem stem_and_extension (codeFile d : string) (a : ascii) (stem e : string) :
  lastSeparatorSplit codeFile d a (stem ++ String "." e) ->
  none is_dot e = true ->
  getCodeFileWithoutDirAndExt codeFile = Return stem
  /\ getFileExtension codeFile = String "." e
  /\ codeFile = (d ++ String a EmptyString) ++ stem ++ getFileExtension codeFile.
Proof.
  intros H He. destruct (split_no_line_terminator _ _ _ _ H) as [Hd Hb].
  destruct H as (-> & Ha & Hsep & _).
  assert (Hext : getFileExtension (d ++ String a (stem ++ String "." e)) = String "." e).
  { change (d ++ String a (stem ++ String "." e))
      with (d ++ String a EmptyString ++ stem ++ String "." e).
    rewrite <- !app_assoc.
    unfold getFileExtension. now rewrite from_last_dot_Some. }
  split; [|split; [exact Hext|]].
  - unfold getCodeFileWithoutDirAndExt, js_match.
    rewrite (search_here withoutDirAndExtRegex EmptyString _
               (MatchResult EmptyString (d ++ String a stem) (String "." e)
                  [(1, stem)])).
    + reflexivity.
    + unfold match_here, withoutDirAndExtRegex. cbn [exec].
      apply star_greedy; [exact Hd | |].
      * rewrite separator_match, Ha.
        rewrite all_app in Hb. apply andb_true_iff in Hb as [Hst _].
        apply star_greedy; [exact Hst | |].
        -- cbn [cclass_match]. rewrite Ascii.eqb_refl, star_constant.
           f_equal. f_equal.
           ++ assert (E : d ++ String a (stem ++ String "." e)
                          = (d ++ String a stem) ++ String "." e)
                by (now rewrite app_assoc).
              rewrite E. apply consumed_app.
           ++ now rewrite consumed_app.
        -- intros t Ht Hne. pose proof (after_last_dot e t He Ht Hne) as Hc.
           destruct t as [|c t]; [reflexivity|]. cbn [cclass_match]. now rewrite Hc.
      * intros t Ht Hne. pose proof (after_last_separator a _ t Hsep Ht Hne) as Hc.
        destruct t as [|c t]; [reflexivity|]. now rewrite separator_match, Hc.
  - rewrite Hext. rewrite app_assoc. reflexivity.
Qed.

Lemma stem_and_extension_witness :
  getCodeFileWithoutDirAndExt "/home/u/a.tar.gz" = Return "a.tar"
  /\ getFileExtension "/home/u/a.tar.gz" = ".gz".
Proof.
  destruct (stem_and_extension "/home/u/a.tar.gz" "/home/u" "/" "a.tar" "gz")
    as (H1 & H2 & _); [repeat split; reflexivity | reflexivity|].
  split; assumption.
Defined.

(** *** The directory without its trailing separator *)

Lemma search_trailing_separator (a : ascii) (d : string) :
  is_separator a = true ->
  forall before,
    search trailingSlashRegex before (d ++ String a EmptyString)
    = Some (MatchResult (before ++ d) (String a EmptyString) EmptyString []).
Proof.
  intros Ha. induction d as [|c d IH]; intros before.
  - cbn [String.append]. apply search_here.
    unfold match_here, trailingSlashRegex. cbn [exec].
    rewrite separator_match, Ha, app_nil_r. reflexivity.
  - change (String c d ++ String a EmptyString)
      with (String c (d ++ String a EmptyString)).
    cbn [search].
    assert (E : match_here trailingSlashRegex before
                  (String c (d ++ String a EmptyString)) = None).
    { unfold match_here, trailingSlashRegex. cbn [exec].
      destruct (cclass_match separator c); [|reflexivity].
      now destruct d. }
    rewrite E, IH, snoc_app. reflexivity.
Qed.

(** X5: on a path with a separator and without line terminator, the
    directory without trailing slash is the path before its last
    separator: exactly that one separator is removed, and nothing is left
    for a file of the root directory. *)
Theorem directory_without_trailing_slash (codeFile d : string) (a : ascii) (b : string) :
  lastSeparatorSplit codeFile d a b ->
  getCodeFileDirWithoutTrailingSlash codeFile = Return d.
Proof.
  intros H. unfold getCodeFileDirWithoutTrailingSlash, mbind, completion_bind.
  rewrite (getCodeFileDir_split _ _ _ _ H). cbn [bind].
  destruct H as (_ & Ha & _). unfold replace_first.
  rewrite (search_trailing_separator a d Ha). cbn [m_before m_after get_substitution].
  now rewrite app_nil_r.
Qed.

Lemma directory_without_trailing_slash_witness :
  getCodeFileDirWithoutTrailingSlash "/home/u//a.py" = Return "/home/u/"
  /\ getCodeFileDirWithoutTrailingSlash "/a.py" = Return EmptyString.
Proof.
  split.
  - apply (directory_without_trailing_slash "/home/u//a.py" "/home/u/" "/" "a.py").
    repeat split; reflexivity.
  - apply (directory_without_trailing_slash "/a.py" EmptyString "/" "a.py").
    repeat split; reflexivity.
Defined.

(** *** When the command builder throws *)

Lemma separator_then_dot_separator (s : string) :
  separator_then_dot s -> none is_separator s = false.
Proof.
  intros (a & c & b & d & -> & Hc & _).
  destruct (none is_separator (a ++ String c (b ++ String "." d))) eqn:E; [|reflexivity].
  apply none_true_app in E. congruence.
Qed.

Lemma placeholders_throw (rootPath : option string) (codeFile : string) :
  placeholders rootPath codeFile = ThrowTypeError <-> ~ separator_then_dot codeFile.
Proof.
  unfold placeholders, getCodeFileDirWithoutTrailingSlash, mbind, completion_bind.
  split.
  - intros H Hs.
    pose proof (separator_then_dot_separator _ Hs) as Hsep.
    destruct (getCodeFileDir codeFile) as [d|] eqn:Ed.
    2:{ apply getCodeFileDir_throws in Ed. congruence. }
    destruct (getCodeFileWithoutDirAndExt codeFile) as [e|] eqn:Ee.
    2:{ apply getCodeFileWithoutDirAndExt_throws in Ee. contradiction. }
    destruct (getCodeBaseFile codeFile) as [b|] eqn:Eb.
    2:{ apply getCodeBaseFile_throws in Eb. congruence. }
    cbn [bind] in H. discriminate.
  - intros Hn. apply getCodeFileWithoutDirAndExt_throws in Hn.
    destruct (getCodeFileDir codeFile); cbn [bind]; [|reflexivity].
    now rewrite Hn.
Qed.

(** X6: the command builder throws exactly when a code file is set and no
    separator of its path is followed on its line by a dot, whatever the
    template is and whether the file is to be appended or not. *)
Theorem command_builder_throws (rootPath codeFile : option string)
  (executor : string) (appendFile : bool) :
  getFinalCommandToRunCodeFile rootPath codeFile executor appendFile = ThrowTypeError
  <-> exists f, codeFile = Some f /\ f <> EmptyString /\ ~ separator_then_dot f.
Proof.
  unfold getFinalCommandToRunCodeFile, mbind, completion_bind.
  destruct codeFile as [[|c f]|]; cbn [truthy_string is_empty negb bind to_string].
  - split; [discriminate|]. intros (f & E & Hne & _). injection E as <-. contradiction.
  - destruct (placeholders rootPath (String c f)) as [ps|] eqn:E; cbn [bind].
    + split; [discriminate|]. intros (f' & E' & _ & Hn). injection E' as <-.
      apply (placeholders_throw rootPath) in Hn. congruence.
    + split; [|reflexivity]. intros _. exists (String c f).
      split; [reflexivity|]. split; [discriminate|].
      now apply (placeholders_throw rootPath).
  - split; [discriminate|]. intros (f & E & _). discriminate.
Qed.

End PathValueFacts.

(** ** More of the session *)

Module LifecycleFacts.
Import Str StrFacts Regex Js CodeManager Notions Session SessionNotions SessionFacts.
Import RunnerFacts PipelineFacts MoreNotions PathFacts PathValueFacts.

(** *** The working directory *)

Lemma initialize_run (env : Env) (editor : option Editor) (w : World) :
  initialize env editor w
  = (Return tt,
     withThis (fun s => set_cwd (Some (workingDirectory env editor))
                          (set_config (Some (config env)) s)) w).
Proof.
  destruct w as [[t r p cf tmp l cw cfg] ns tel out tin tn fs ch sp kr rc pd].
  unfold initialize, workingDirectory, setting, bindM, get, set, ret, withThis. cbn.
  destruct (cwd (config env)) as [|c0 cwd0]; cbn; [|reflexivity].
  destruct editor as [e|]; cbn.
  - destruct ((fileDirectoryAsCwd (config env) || negb (truthy_string (rootPath env)))
              && negb (isUntitled e)); cbn.
    + now destruct (dirname env (fileName e)).
    + now destruct (rootPath env) as [[|]|].
  - now destruct (rootPath env) as [[|]|].
Qed.

(** X1: [initialize] changes the fields [_config] and [_cwd] only and always
    leaves a working directory: the configured [cwd] when it is not
    empty; else the folder of the workspace when there is one and
    [fileDirectoryAsCwd] is not set; and in every case a non-empty
    directory when the temporary directory of the host is not empty. *)
Theorem initialize_leaves_cwd (env : Env) (editor : option Editor) (w : World) :
  exists dir,
    initialize env editor w
    = (Return tt,
       withThis (fun s => set_cwd (Some dir) (set_config (Some (config env)) s)) w)
    /\ (cwd (config env) <> EmptyString -> dir = cwd (config env))
    /\ (cwd (config env) = EmptyString -> truthy_string (rootPath env) = true ->
        fileDirectoryAsCwd (config env) = false -> Some dir = rootPath env)
    /\ (TmpDir env <> EmptyString -> dir <> EmptyString).
Proof.
  exists (workingDirectory env editor). split; [apply initialize_run|].
  unfold workingDirectory. split; [|split].
  - intros H. destruct (cwd (config env)); [contradiction | reflexivity].
  - intros -> Hr Hf. cbn. rewrite Hf, Hr. cbn.
    destruct editor; rewrite Hr; now destruct (rootPath env).
  - intros Ht. destruct (cwd (config env)) eqn:Ec; cbn; [|discriminate].
    match goal with
    | |- (if truthy_string ?c then _ else _) <> _ =>
        destruct c as [[|]|]; cbn; try assumption; discriminate
    end.
Qed.

(** *** Terminal mode *)

(** X13: a run in the terminal starts no child process, requests no kill,
    writes no file and no output, and leaves the running flag and the
    tracked process as they are; so does the sending that follows the
    clearing of the terminal. *)
Theorem terminal_starts_no_process (env : Env) (executor command : string)
  (appendFile : bool) :
  preserves outputChannelView (executeCommandInTerminal env executor appendFile)
  /\ preserves outputChannelView (sendToTerminal env command).
Proof.
  assert (Hs : forall cmd, preserves outputChannelView (sendToTerminal env cmd)).
  { intros cmd. unfold sendToTerminal.
    preserved; try apply changeFilePath_preserves; preserved. }
  split; [|apply Hs].
  unfold executeCommandInTerminal.
  preserved;
    try apply getFinalCommand_preserves;
    try apply changeFilePath_preserves;
    try apply Hs; preserved.
Qed.

(** *** The close of a child *)

(** X16: when a child closes, it leaves the process table and the
    running flag is cleared; no process is started or killed.  With
    [_isTmpFile] clear no file is touched.  With [_isTmpFile] set, the
    file named by [_codeFile] is deleted where the host accepts
    [fs.unlink] without callback; where it requires the callback, the
    handler throws and the file stays.  A close for a process that is not
    a child changes nothing. *)
Theorem child_closed (env : Env) (w : World) (pid : nat) (code elapsedTime : string) :
  (forall child,
     children w !! pid = Some child ->
     let w' := step env w (ChildClosed pid code elapsedTime) in
     let completion := fst (react env (ChildClosed pid code elapsedTime) w) in
     children w' = delete pid (children w)
     /\ _isRunning (this w') = false
     /\ spawned w' = spawned w
     /\ killRequests w' = killRequests w
     /\ (_isTmpFile (this w) = false -> files w' = files w /\ completion = Return tt)
     /\ (forall f, _isTmpFile (this w) = true -> _codeFile (this w) = Some f ->
          (unlinkNeedsCallback env = false ->
           files w' = delete f (files w) /\ completion = Return tt)
          /\ (unlinkNeedsCallback env = true ->
              files w' = files w /\ completion = ThrowTypeError)))
  /\ (children w !! pid = None -> step env w (ChildClosed pid code elapsedTime) = w).
Proof.
  split.
  - intros child Hc. unfold step, react. rewrite Hc.
    destruct w as [[t r p cf tmp l cw cfg] ns tel out tin tn fs ch sp kr rc pd].
    unfold onClose, reap, bindM, set, get, ret, throw, unlink, withFiles,
      outputAppendLine, withOutput, withThis.
    cbn.
    assert (Hsplit : forall A B C D E F : Prop,
               A -> B -> C -> D -> E -> F -> A /\ B /\ C /\ D /\ E /\ F) by tauto.
    destruct (childShowsDone child); cbn;
      (destruct tmp; cbn;
       [destruct cf as [f|]; cbn;
        [destruct (unlinkNeedsCallback env); cbn|]|]);
      (apply Hsplit; try reflexivity;
       [ intros E; try discriminate E; split; reflexivity
       | intros f' E1 E2; try discriminate E1; try discriminate E2;
         try (injection E2 as <-);
         (split; intros E3; try discriminate E3; split; reflexivity) ]).
  - intros Hc. unfold step, react. now rewrite Hc.
Qed.

Lemma child_closed_witness :
  let w := steps phpEnv (initialWorld ∅) [Run] in
  let w2 := steps callbackPhpEnv (initialWorld ∅) [Run] in
  files w !! "/home/u/tempfzyomvyr.php" = Some ("<?php" ++ String "013" (String "010" "echo 1;"))
  /\ files (step phpEnv w (ChildClosed 0 "0" "0.03")) = delete "/home/u/tempfzyomvyr.php" (files w)
  /\ _isRunning (this (step phpEnv w (ChildClosed 0 "0" "0.03"))) = false
  /\ files (step callbackPhpEnv w2 (ChildClosed 0 "0" "0.03")) = files w2.
Proof.
  intros w w2. split; [vm_compute; reflexivity|].
  destruct (child_closed phpEnv w 0 "0" "0.03") as [H _].
  assert (Hc : children w !! 0
               = Some {| childCommand := "php " ++ quoteFileName "/home/u/tempfzyomvyr.php";
                         childCwd := Some "/home/u"; childShowsDone := true |})
    by (vm_compute; reflexivity).
  destruct (H _ Hc) as (_ & Hr & _ & _ & _ & Hf).
  assert (Ht : _isTmpFile (this w) = true) by (vm_compute; reflexivity).
  assert (Hcf : _codeFile (this w) = Some "/home/u/tempfzyomvyr.php")
    by (vm_compute; reflexivity).
  destruct (Hf _ Ht Hcf) as [Hd _].
  split; [exact (proj1 (Hd eq_refl))|]. split; [exact Hr|].
  destruct (child_closed callbackPhpEnv w2 0 "0" "0.03") as [H2 _].
  assert (Hc2 : children w2 !! 0
               = Some {| childCommand := "php " ++ quoteFileName "/home/u/tempfzyomvyr.php";
                         childCwd := Some "/home/u"; childShowsDone := true |})
    by (vm_compute; reflexivity).
  destruct (H2 _ Hc2) as (_ & _ & _ & _ & _ & Hf2).
  assert (Ht2 : _isTmpFile (this w2) = true) by (vm_compute; reflexivity).
  assert (Hcf2 : _codeFile (this w2) = Some "/home/u/tempfzyomvyr.php")
    by (vm_compute; reflexivity).
  destruct (Hf2 _ Ht2 Hcf2) as [_ Hk].
  exact (proj1 (Hk eq_refl)).
Defined.

(** *** A run that finds nothing to run *)

(** X7: a run of an idle session without active editor only shows its
    notice, and a run for which the resolver finds no executor only shows
    its notice after the initialization: nothing is written, sent,
    started or scheduled, and the session stays idle. *)
Theorem run_without_executor (env : Env) (w : World) (languageId : option string) :
  _isRunning (this w) = false ->
  (activeTextEditor env = None ->
   run env languageId w = showInformationMessage "No code found or selected." w)
  /\ (forall e lang,
        activeTextEditor env = Some e ->
        requestedLanguage env languageId = Some lang ->
        is_nullish
          (fst (CodeManager.getExecutor (executorMap (config env))
                  (executorMapByFileExtension (config env))
                  (defaultLanguage (config env)) lang (Some lang)
                  (getFileExtension (fileName e)))) = true ->
        let w' := snd (run env languageId w) in
        fst (run env languageId w) = Return tt
        /\ notices w' = (notices w ++ ["Code language not supported or defined."])%list
        /\ hostView w' = hostView w
        /\ _isRunning (this w') = false
        /\ _codeFile (this w') = _codeFile (this w)).
Proof.
  intros Hr. split.
  - intros He. unfold run, bindM, get. cbn. now rewrite Hr, He.
  - intros e lang He Hl Hn.
    assert (E : exists effective,
                run env languageId w
                = showInformationMessage "Code language not supported or defined."
                    (withThis (set_languageId (Some effective))
                       (withThis (fun s => set_cwd (Some (workingDirectory env (Some e)))
                                             (set_config (Some (config env)) s)) w))).
    { unfold run. unfold bindM at 1. unfold get at 1.
      cbn [fst snd]. rewrite Hr, He. cbv iota.
      unfold bindM at 1. rewrite initialize_run.
      set (w1 := withThis _ w).
      unfold bindM at 1.
      rewrite (ResolverFacts.getExecutor_run env w1 (config env) languageId _ lang eq_refl Hl).
      destruct (CodeManager.getExecutor _ _ _ _ _ _) as [executor effective].
      cbn [fst] in Hn. exists effective.
      destruct executor as [[|x|x]|]; try discriminate Hn; reflexivity. }
    destruct E as [effective E].
    cbv zeta. rewrite E. destruct w as [[] ]. cbn in Hr |- *. repeat split; assumption || reflexivity.
Qed.

Lemma run_without_executor_witness :
  let w := initialWorld ∅ in
  notices (snd (run phpEnv (Some "cobol") w)) = ["Code language not supported or defined."]
  /\ children (snd (run phpEnv (Some "cobol") w)) = ∅.
Proof.
  intros w.
  destruct (run_without_executor phpEnv w (Some "cobol") eq_refl) as [_ H].
  assert (Hm : is_nullish
                 (fst (CodeManager.getExecutor (executorMap (config phpEnv))
                         (executorMapByFileExtension (config phpEnv))
                         (defaultLanguage (config phpEnv)) "cobol" (Some "cobol")
                         (getFileExtension (fileName phpEditor)))) = true)
    by (vm_compute; reflexivity).
  destruct (H phpEditor "cobol" eq_refl eq_refl Hm) as (_ & Hn & Hv & _).
  split; [exact Hn|].
  exact (f_equal (fun v => snd (fst (fst (fst (fst v))))) Hv).
Defined.

(** *** A command builder that throws in the output channel *)

(** X14: when the command builder throws, the run in the output channel
    has already set the running flag: the method throws with the flag
    set and no child started, and a run on that state is rejected with
    the notice.  The flag is then cleared by [stop], which throws when no
    process is tracked, and by the close of any child that is still
    there. *)
Theorem output_channel_throw_leaves_running (env : Env) (w : World) (c : Config)
  (executor : string) (appendFile : bool) :
  _config (this w) = Some c ->
  CodeManager.getFinalCommandToRunCodeFile (rootPath env) (_codeFile (this w))
    executor appendFile = ThrowTypeError ->
  let w' := snd (executeCommandInOutputChannel env executor appendFile w) in
  fst (executeCommandInOutputChannel env executor appendFile w) = ThrowTypeError
  /\ _isRunning (this w') = true
  /\ children w' = children w
  /\ spawned w' = spawned w
  /\ _process (this w') = _process (this w)
  /\ (forall languageId,
        run env languageId w' = showInformationMessage "Code is already running!" w')
  /\ _isRunning (this (snd (stop w'))) = false
  /\ (_process (this w) = None -> fst (stop w') = ThrowTypeError)
  /\ (forall pid child code elapsedTime,
        children w !! pid = Some child ->
        _isRunning (this (step env w' (ChildClosed pid code elapsedTime))) = false).
Proof.
  intros Hc Hf.
  assert (H : fst (executeCommandInOutputChannel env executor appendFile w) = ThrowTypeError
              /\ _isRunning (this (snd (executeCommandInOutputChannel env executor appendFile w))) = true
              /\ children (snd (executeCommandInOutputChannel env executor appendFile w)) = children w
              /\ spawned (snd (executeCommandInOutputChannel env executor appendFile w)) = spawned w
              /\ _process (this (snd (executeCommandInOutputChannel env executor appendFile w)))
                 = _process (this w)).
  { destruct w as [[t r p cf tmp l cw cfg] ns tel out tin tn fs ch sp kr rc pd].
    cbn in Hc, Hf. subst cfg.
    unfold executeCommandInOutputChannel, Session.getFinalCommandToRunCodeFile,
      setting, bindM, get, set, lift, ret, outputClear, withOutput.
    cbn -[CodeManager.getFinalCommandToRunCodeFile].
    destruct (clearPreviousOutput c); cbn -[CodeManager.getFinalCommandToRunCodeFile];
      rewrite Hf; cbn; auto. }
  destruct H as (H1 & H2 & H3 & H4 & H5).
  cbv zeta.
  set (w' := snd (executeCommandInOutputChannel env executor appendFile w)) in *.
  clearbody w'.
  split; [exact H1|]. split; [exact H2|]. split; [exact H3|]. split; [exact H4|].
  split; [exact H5|].
  split; [intros languageId; now apply run_while_running|].
  split; [|split].
  - destruct w' as [[t r p cf tmp l cw cfg] ns tel out tin tn fs ch sp kr rc pd].
    cbn in H2. subst r.
    unfold stop, bindM, sendEvent, get, set, kill, throw. cbn.
    now destruct p.
  - intros Hp. rewrite Hp in H5.
    destruct w' as [[t r p cf tmp l cw cfg] ns tel out tin tn fs ch sp kr rc pd].
    cbn in H2, H5. subst r p.
    unfold stop, bindM, sendEvent, get, set, kill, throw. reflexivity.
  - intros pid child code elapsedTime Hch. rewrite <- H3 in Hch.
    unfold step, react. rewrite Hch.
    destruct w' as [[t r p cf tmp l cw cfg] ns tel out tin tn fs ch sp kr rc pd].
    unfold onClose, reap, bindM, set, get, ret, throw, unlink, withFiles,
      outputAppendLine, withOutput, withThis.
    cbn. destruct (childShowsDone child); cbn;
      (destruct tmp; cbn;
       [destruct cf as [f|]; cbn; [destruct (unlinkNeedsCallback env)|]|]);
      reflexivity.
Qed.

Lemma output_channel_throw_leaves_running_witness :
  let w := snd ((initialize (pythonEnv pythonConfig) (Some pythonEditor) ;;;
                 set (set_codeFile (Some "/home/u/Makefile"))) (initialWorld ∅)) in
  let w' := snd (executeCommandInOutputChannel (pythonEnv pythonConfig) "make -f" true w) in
  _isRunning (this w') = true /\ children w' = children w
  /\ fst (stop w') = ThrowTypeError.
Proof.
  intros w w'.
  assert (Hc : _config (this w) = Some pythonConfig) by (vm_compute; reflexivity).
  assert (Hf : CodeManager.getFinalCommandToRunCodeFile (rootPath (pythonEnv pythonConfig))
                 (_codeFile (this w)) "make -f" true = ThrowTypeError)
    by (vm_compute; reflexivity).
  assert (Hp : _process (this w) = None) by (vm_compute; reflexivity).
  destruct (output_channel_throw_leaves_running (pythonEnv pythonConfig) w pythonConfig
              "make -f" true Hc Hf) as (_ & H2 & H3 & _ & _ & _ & _ & H8 & _).
  split; [exact H2|]. split; [exact H3 | exact (H8 Hp)].
Defined.

End LifecycleFacts.
(** ** The terminal, the custom command and the output of a child *)

Module EntryFacts.
Import Str StrFacts Regex Js CodeManager Notions Session SessionNotions SessionFacts.
Import RunnerFacts PipelineFacts MoreNotions LifecycleFacts.

(** *** The terminal *)

(** X11: a run in the terminal creates a terminal exactly when none is
    tracked and keeps the tracked one otherwise; it sends text to the
    tracked terminal only; with [clearPreviousOutput] set it sends
    nothing to a terminal that was there before and waits for the
    clearing instead, while a terminal just created is never cleared; and
    after the terminal was closed, the next run creates a new one. *)
Theorem terminal_reuse (env : Env) (executor : string) (appendFile : bool) (w : World) :
  let w' := snd (executeCommandInTerminal env executor appendFile w) in
  (_terminal (this w) = None ->
   _terminal (this w') = Some (terminals w)
   /\ terminals w' = S (terminals w)
   /\ pending w' = pending w)
  /\ (forall t, _terminal (this w) = Some t ->
        _terminal (this w') = Some t
        /\ terminals w' = terminals w
        /\ (forall c, _config (this w) = Some c -> clearPreviousOutput c = true ->
              terminalInput w' = terminalInput w))
  /\ (forall t x, In (t, x) (terminalInput w') ->
        In (t, x) (terminalInput w) \/ _terminal (this w') = Some t)
  /\ terminals (snd (executeCommandInTerminal env executor appendFile
                       (step env w TerminalClosed)))
     = S (terminals w).
Proof.
  assert (H : forall w,
    let w' := snd (executeCommandInTerminal env executor appendFile w) in
    (_terminal (this w) = None ->
     _terminal (this w') = Some (terminals w)
     /\ terminals w' = S (terminals w)
     /\ pending w' = pending w)
    /\ (forall t, _terminal (this w) = Some t ->
          _terminal (this w') = Some t
          /\ terminals w' = terminals w
          /\ (forall c, _config (this w) = Some c -> clearPreviousOutput c = true ->
                terminalInput w' = terminalInput w))
    /\ (forall t x, In (t, x) (terminalInput w') ->
          In (t, x) (terminalInput w) \/ _terminal (this w') = Some t)).
  { clear w. intros w.
    destruct w as [[t r p cf tmp l cw cfg] ns tel out tin tn fs ch sp kr rc pd].
    unfold executeCommandInTerminal, sendToTerminal,
      Session.getFinalCommandToRunCodeFile, Session.changeFilePathForBashOnWindows,
      Session.changeExecutorFromCmdToPs, setting, bindM, get, set, lift, ret, throw,
      createTerminal, sendEvent, sendText, andThen.
    cbn.
    destruct t as [t|]; cbn;
      (destruct (CodeManager.getFinalCommandToRunCodeFile _ _ _ _) as [command|]; cbn;
       [destruct cfg as [c|]; cbn;
        [destruct (clearPreviousOutput c) eqn:Ec; cbn;
         destruct (fileDirectoryAsCwd c); cbn|]|]);
      (split; [intros E; try discriminate E; repeat split; reflexivity|]);
      (split; [intros t0 E; try discriminate E; injection E as <-;
               repeat split; try reflexivity;
               intros c0 E0 E1; try reflexivity; try discriminate E0;
               injection E0 as <-; congruence|]);
      intros t' x Hin; rewrite ?in_app_iff in Hin; cbn in Hin;
      intuition congruence. }
  cbv zeta. destruct (H w) as (H1 & H2 & H3).
  split; [exact H1|]. split; [exact H2|]. split; [exact H3|].
  destruct (H (step env w TerminalClosed)) as (H4 & _).
  destruct w as [[t r p cf tmp l cw cfg] ns tel out tin tn fs ch sp kr rc pd].
  now destruct (H4 eq_refl) as (_ & E & _).
Qed.


Lemma terminal_reuse_witness :
  let env := pythonEnv terminalConfig in
  let w := step env (initialWorld ∅) Run in
  let w' := snd (executeCommandInTerminal env "python -u" true w) in
  _terminal (this w) = Some 0
  /\ terminals w' = terminals w
  /\ terminalInput w' = terminalInput w
  /\ terminals (snd (executeCommandInTerminal env "python -u" true
                       (step env w TerminalClosed))) = S (terminals w).
Proof.
  intros env w w'.
  assert (E0 : _terminal (this w) = Some 0) by (vm_compute; reflexivity).
  assert (Ec : _config (this w) = Some terminalConfig) by (vm_compute; reflexivity).
  split; [exact E0|].
  destruct (terminal_reuse env "python -u" true w) as (_ & H & _ & H').
  destruct (H 0 E0) as (_ & H1 & H2).
  split; [exact H1|]. split; [exact (H2 terminalConfig Ec eq_refl)|].
  exact H'.
Defined.

(** X12: if the terminal is closed while its clearing is awaited, the command
    is sent nowhere: the run that resumes after the clearing finds no
    terminal and throws, and no terminal is created for it. *)
Theorem terminal_closed_while_clearing (env : Env) (w : World) (i : nat)
  (command : string) (c : Config) (value : option string) :
  nth_error (pending w) i = Some (ThenSendToTerminal command) ->
  _config (this w) = Some c ->
  let w1 := step env w TerminalClosed in
  fst (react env (Fulfilled i value) w1) = ThrowTypeError
  /\ terminalInput (step env w1 (Fulfilled i value)) = terminalInput w
  /\ terminals (step env w1 (Fulfilled i value)) = terminals w
  /\ _terminal (this (step env w1 (Fulfilled i value))) = None.
Proof.
  intros Hp Hc.
  destruct w as [[t r p cf tmp l cw cfg] ns tel out tin tn fs ch sp kr rc pd].
  cbn in Hp, Hc. subst cfg.
  unfold step, react, onDidCloseTerminal, takePending, bindM, set. cbn.
  rewrite Hp. cbn.
  unfold sendToTerminal, setting, bindM, get, ret, throw. cbn. auto.
Qed.

Lemma terminal_closed_while_clearing_witness :
  let env := pythonEnv terminalConfig in
  let w := steps env (initialWorld ∅) [Run; Run] in
  pending w = [ThenSendToTerminal ("python -u " ++ quoteFileName "/home/u/a.py")]
  /\ terminalInput (step env (step env w TerminalClosed) (Fulfilled 0 None))
     = terminalInput w.
Proof.
  intros env w.
  assert (Hp : pending w = [ThenSendToTerminal ("python -u " ++ quoteFileName "/home/u/a.py")])
    by (vm_compute; reflexivity).
  split; [exact Hp|].
  assert (Hn : nth_error (pending w) 0
               = Some (ThenSendToTerminal ("python -u " ++ quoteFileName "/home/u/a.py")))
    by (rewrite Hp; reflexivity).
  assert (Hc : _config (this w) = Some terminalConfig) by (vm_compute; reflexivity).
  exact (proj1 (proj2 (terminal_closed_while_clearing env w 0 _ terminalConfig None Hn Hc))).
Defined.

(** *** The custom command *)

(** The two outcomes of a run in the output channel. *)
Lemma output_channel_outcome (env : Env) (w : World) (c : Config)
  (executor : string) (appendFile : bool) :
  _config (this w) = Some c ->
  let w' := snd (executeCommandInOutputChannel env executor appendFile w) in
  let built :=
    CodeManager.getFinalCommandToRunCodeFile (rootPath env) (_codeFile (this w))
      executor appendFile in
  _isRunning (this w') = true
  /\ codeFileView w' = codeFileView w
  /\ (forall final,
        built = Return final ->
        fst (executeCommandInOutputChannel env executor appendFile w) = Return tt
        /\ children w'
           = <[spawned w := {| childCommand := final; childCwd := _cwd (this w);
                               childShowsDone := showExecutionMessage c |}]>
               (children w)
        /\ _process (this w') = Some (spawned w))
  /\ (built = ThrowTypeError ->
      fst (executeCommandInOutputChannel env executor appendFile w) = ThrowTypeError
      /\ processView w' = processView w
      /\ _process (this w') = _process (this w)).
Proof.
  intros Hc.
  destruct w as [[t r p cf tmp l cw cfg] ns tel out tin tn fs ch sp kr rc pd].
  cbn in Hc. subst cfg. cbv zeta.
  unfold executeCommandInOutputChannel, Session.getFinalCommandToRunCodeFile,
    setting, bindM, get, set, lift, ret, throw,
    outputClear, outputAppendLine, withOutput, sendEvent, spawn.
  cbn -[CodeManager.getFinalCommandToRunCodeFile].
  destruct (clearPreviousOutput c);
    cbn -[CodeManager.getFinalCommandToRunCodeFile];
    (destruct (CodeManager.getFinalCommandToRunCodeFile (rootPath env) cf executor
                 appendFile) as [final|]; cbn);
    destruct (showExecutionMessage c); cbn;
    (split; [reflexivity|]); (split; [reflexivity|]);
    (split; [intros final' E; try discriminate E; try (injection E as <-);
             repeat split; reflexivity
            |intros E; try discriminate E; repeat split; reflexivity]).
Qed.

(** X9: without active editor, the custom command of an idle session
    that does not run in the terminal goes to the output channel on the
    code file left by the last run, with no file appended: the running
    flag is set, no file is written and the code file stays as it was.
    When the command builder returns, one child is started with the
    command built, in the working directory chosen without editor; when
    it throws, the call throws and no child is started.  With no code
    file left, the command built is the custom command as it is
    written. *)
Theorem custom_command_without_editor (env : Env) (w : World) :
  activeTextEditor env = None ->
  _isRunning (this w) = false ->
  runInTerminal (config env) && negb (_isTmpFile (this w)) = false ->
  let w' := snd (runCustomCommand env w) in
  let built :=
    CodeManager.getFinalCommandToRunCodeFile (rootPath env) (_codeFile (this w))
      (customCommand (config env)) false in
  _isRunning (this w') = true
  /\ codeFileView w' = codeFileView w
  /\ (forall final,
        built = Return final ->
        fst (runCustomCommand env w) = Return tt
        /\ children w'
           = <[spawned w := {| childCommand := final;
                               childCwd := Some (workingDirectory env None);
                               childShowsDone := showExecutionMessage (config env) |}]>
               (children w)
        /\ _process (this w') = Some (spawned w))
  /\ (built = ThrowTypeError ->
      fst (runCustomCommand env w) = ThrowTypeError
      /\ processView w' = processView w
      /\ _process (this w') = _process (this w))
  /\ (_codeFile (this w) = None -> built = Return (customCommand (config env))).
Proof.
  intros He Hr Ht.
  set (w1 := withThis (fun s => set_cwd (Some (workingDirectory env None))
                                  (set_config (Some (config env)) s)) w).
  assert (E : runCustomCommand env w
              = executeCommandInOutputChannel env (customCommand (config env)) false w1).
  { unfold runCustomCommand. unfold bindM at 1. unfold get at 1. cbn [fst snd].
    rewrite Hr, He. cbv iota.
    unfold bindM at 1. rewrite initialize_run. fold w1.
    assert (Hc1 : _config (this w1) = Some (config env)) by reflexivity.
    rewrite (bindM_run _ _ _ _ _ (setting_run _ w1 (config env) Hc1)).
    unfold executeCommand.
    rewrite (bindM_run _ _ _ _ _ (setting_run _ w1 (config env) Hc1)).
    unfold bindM at 1. unfold get at 1. cbn [fst snd].
    assert (Ht1 : _isTmpFile (this w1) = _isTmpFile (this w)) by (now destruct w as [[] ]).
    now rewrite Ht1, Ht. }
  cbv zeta. rewrite E.
  assert (Hc1 : _config (this w1) = Some (config env)) by reflexivity.
  destruct (output_channel_outcome env w1 (config env) (customCommand (config env))
              false Hc1) as (H1 & H2 & H3 & H4).
  assert (Hcf : _codeFile (this w1) = _codeFile (this w)) by (now destruct w as [[] ]).
  assert (Hv : codeFileView w1 = codeFileView w) by (now destruct w as [[] ]).
  assert (Hp : processView w1 = processView w /\ _process (this w1) = _process (this w)
               /\ spawned w1 = spawned w /\ children w1 = children w
               /\ _cwd (this w1) = Some (workingDirectory env None))
    by (now destruct w as [[] ]).
  destruct Hp as (Hp1 & Hp2 & Hp3 & Hp4 & Hp5).
  rewrite Hcf, Hp3, Hp4, Hp5 in H3. rewrite Hcf, Hp1, Hp2 in H4. rewrite Hv in H2.
  split; [exact H1|]. split; [exact H2|]. split; [exact H3|]. split; [exact H4|].
  intros En. rewrite En. cbn. rewrite String.eqb_refl. cbn. now rewrite app_nil_r.
Qed.

Lemma custom_command_without_editor_witness :
  let env := noEditorEnv terminalConfig in
  let w := withThis (set_isTmpFile true) (initialWorld ∅) in
  let w2 := withThis (set_codeFile (Some "/home/u/Makefile")) w in
  children (snd (runCustomCommand env w))
  = <[0 := {| childCommand := "echo $fileName"; childCwd := Some "/home/u";
              childShowsDone := true |}]> (children w)
  /\ fst (runCustomCommand env w2) = ThrowTypeError
  /\ _isRunning (this (snd (runCustomCommand env w2))) = true.
Proof.
  intros env w w2.
  assert (Hf : CodeManager.getFinalCommandToRunCodeFile (rootPath env) (_codeFile (this w))
                 (customCommand (config env)) false = Return "echo $fileName")
    by (vm_compute; reflexivity).
  assert (Hf2 : CodeManager.getFinalCommandToRunCodeFile (rootPath env)
                  (_codeFile (this w2)) (customCommand (config env)) false
                = ThrowTypeError)
    by (vm_compute; reflexivity).
  destruct (custom_command_without_editor env w eq_refl eq_refl eq_refl)
    as (_ & _ & H3 & _).
  destruct (custom_command_without_editor env w2 eq_refl eq_refl eq_refl)
    as (H1 & _ & _ & H4 & _).
  split; [exact (proj1 (proj2 (H3 _ Hf)))|].
  split; [exact (proj1 (H4 Hf2)) | exact H1].
Defined.

(** *** The language picked from the list *)

Lemma pending_round_trip {A : Type} (l : list A) (k : A) :
  nth_error (l ++ [k]) (List.length l) = Some k
  /\ (firstn (List.length l) (l ++ [k]) ++ skipn (S (List.length l)) (l ++ [k]))%list = l.
Proof.
  split.
  - rewrite nth_error_app2, Nat.sub_diag; [reflexivity | lia].
  - rewrite firstn_app, Nat.sub_diag, firstn_all. cbn [firstn].
    rewrite skipn_all2; [now rewrite !List.app_nil_r|].
    rewrite List.length_app. cbn. lia.
Qed.

(** X10: the command to run by language checks nothing and only asks for a
    language; when one is picked it is run as a run of that language
    would, and when the list is dismissed nothing more happens. *)
Theorem language_picked (env : Env) (w : World) :
  let asked := step env w RunByLanguage in
  let i := List.length (pending w) in
  asked = snd (andThen ThenRunPicked (snd (sendEvent "runByLanguage" w)))
  /\ (forall languageId,
        step env asked (Fulfilled i (Some languageId))
        = snd (run env (Some languageId) (snd (sendEvent "runByLanguage" w))))
  /\ step env asked (Fulfilled i None) = snd (sendEvent "runByLanguage" w).
Proof.
  cbv zeta.
  destruct w as [[t r p cf tmp l cw cfg] ns tel out tin tn fs ch sp kr rc pd].
  destruct (pending_round_trip pd ThenRunPicked) as [Hn Hl].
  split; [reflexivity|].
  split; [intros languageId|];
    unfold step, react, runByLanguage, takePending, andThen, sendEvent, bindM;
    cbn; rewrite Hn, Hl; reflexivity.
Qed.

(** *** The output of a child *)

Lemma data_steps (env : Env) (pid : nat) (child : Child) (ds : list string) :
  forall w, children w !! pid = Some child ->
    steps env w (List.map (ChildData pid) ds) = snd (outputAppend (concatData ds) w).
Proof.
  induction ds as [|d ds IH]; intros w Hc.
  - destruct w as [[t r p cf tmp l cw cfg] ns tel out tin tn fs ch sp kr rc pd].
    unfold steps, outputAppend, withOutput. cbn. now rewrite app_nil_r.
  - change (steps env w (List.map (ChildData pid) (d :: ds)))
      with (steps env (step env w (ChildData pid d)) (List.map (ChildData pid) ds)).
    assert (E : step env w (ChildData pid d) = snd (outputAppend d w)).
    { unfold step, react. now rewrite Hc. }
    rewrite E, IH; [|exact Hc].
    destruct w as [[t r p cf tmp l cw cfg] ns tel out tin tn fs ch sp kr rc pd].
    unfold outputAppend, withOutput. cbn. now rewrite app_assoc.
Qed.

(** X15: what a child writes reaches the output channel in the order it is
    written, and its close adds an empty line and, when the execution
    message is shown, the line with the exit code and the elapsed time
    and one more empty line; the data leave all but the channel as it
    was. *)
Theorem output_transcript (env : Env) (w : World) (pid : nat) (child : Child)
  (ds : list string) (code elapsedTime : string) :
  children w !! pid = Some child ->
  outputChannel (steps env w (List.map (ChildData pid) ds
                              ++ [ChildClosed pid code elapsedTime])%list)
  = outputChannel w ++ concatData ds ++ doneLines (childShowsDone child) code elapsedTime
  /\ steps env w (List.map (ChildData pid) ds) = snd (outputAppend (concatData ds) w).
Proof.
  intros Hc. split; [|exact (data_steps env pid child ds w Hc)].
  unfold steps at 1. rewrite fold_left_app. fold (steps env w (List.map (ChildData pid) ds)).
  rewrite (data_steps env pid child ds w Hc).
  destruct w as [[t r p cf tmp l cw cfg] ns tel out tin tn fs ch sp kr rc pd].
  cbn in Hc.
  unfold outputAppend, withOutput. cbn. unfold step, react. cbn. rewrite Hc.
  unfold onClose, reap, bindM, set, get, ret, throw, unlink, withFiles,
    outputAppendLine, withOutput, withThis, doneLines, newline.
  cbn. destruct (childShowsDone child); cbn;
    (destruct tmp; cbn; [destruct cf; cbn; [destruct (unlinkNeedsCallback env); cbn|]|]);
    repeat (progress (rewrite ?app_assoc; cbn)); reflexivity.
Qed.

Lemma output_transcript_witness :
  let env := pythonEnv pythonConfig in
  let w := step env (initialWorld ∅) Run in
  outputChannel (steps env w [ChildData 0 "a"; ChildData 0 "b"; ChildClosed 0 "1" "2.5"])
  = outputChannel w ++ "ab" ++ newline ++ "[Done] exited with code=1 in 2.5 seconds"
    ++ newline ++ newline.
Proof.
  intros env w.
  assert (Hc : children w !! 0
               = Some {| childCommand := "python -u " ++ quoteFileName "/home/u/a.py";
                         childCwd := Some "/home/u"; childShowsDone := true |})
    by (vm_compute; reflexivity).
  exact (proj1 (output_transcript env w 0 _ ["a"; "b"] "1" "2.5" Hc)).
Defined.


(** *** A saved file is run in place *)

Lemma executeCommand_in_place (env : Env) (executor : json) (appendFile : bool) :
  preserves (fun w => (files w, randomCalls w, _codeFile (this w), _isTmpFile (this w)))
    (executeCommand env executor appendFile).
Proof.
  assert (Hs : forall cmd,
             preserves (fun w => (files w, randomCalls w, _codeFile (this w),
                                  _isTmpFile (this w)))
               (sendToTerminal env cmd)).
  { intros cmd. unfold sendToTerminal.
    preserved; try apply changeFilePath_preserves; preserved. }
  unfold executeCommand, executeCommandInTerminal, executeCommandInOutputChannel.
  preserved;
    try apply getFinalCommand_preserves;
    try apply changeFilePath_preserves;
    try apply Hs; preserved.
Qed.


Lemma getCodeFileAndExecute_in_place (env : Env) (w : World) (c : Config) (e : Editor)
  (fileExtension : string) (executor : json) (appendFile : bool) :
  _config (this w) = Some c ->
  (selectionIsEmpty e || ignoreSelection c) && negb (isUntitled e) = true ->
  getCodeFileAndExecute env e fileExtension executor appendFile w
  = let w1 := withThis (set_codeFile (Some (fileName e)))
                (withThis (set_isTmpFile false) w) in
    if saveAllFilesBeforeRun c || saveFileBeforeRun c
    then andThen (ThenExecuteCommand executor appendFile) w1
    else executeCommand env executor appendFile w1.
Proof.
  intros Hc Hs. cbv zeta.
  set (w1 := withThis (set_codeFile (Some (fileName e)))
               (withThis (set_isTmpFile false) w)).
  unfold getCodeFileAndExecute.
  rewrite (bindM_run _ _ _ _ _ (setting_run _ w c Hc)), Hs.
  unfold bindM at 1. unfold set at 1. cbn [fst snd].
  unfold bindM at 1. unfold set at 1. cbn [fst snd]. fold w1.
  assert (Hc1 : _config (this w1) = Some c)
    by (destruct w as [[] ]; exact Hc).
  rewrite (bindM_run _ _ _ _ _ (setting_run _ w1 c Hc1)).
  destruct (saveAllFilesBeforeRun c); [reflexivity|].
  rewrite (bindM_run _ _ _ _ _ (setting_run _ w1 c Hc1)).
  now destruct (saveFileBeforeRun c).
Qed.




(** *** A run from the editor to the child *)

(** X19: a run of an idle session on a saved document whose selection is
    empty or ignored, with an executor found, no save asked for and the
    output channel chosen, tracks the document as its code file, writes
    no file and sets the running flag.  When the command builder
    returns, the run returns and starts exactly one child: its command
    is what the builder makes of the executor and the document's file
    name, its directory the one [initialize] chooses, and the session
    tracks that child; when the builder throws, the run throws and no
    child is started. *)
Theorem run_saved_file (env : Env) (w : World) (e : Editor)
  (languageId : option string) (lang executor : string) :
  _isRunning (this w) = false ->
  activeTextEditor env = Some e ->
  requestedLanguage env languageId = Some lang ->
  (selectionIsEmpty e || ignoreSelection (config env)) && negb (isUntitled e) = true ->
  saveAllFilesBeforeRun (config env) || saveFileBeforeRun (config env) = false ->
  runInTerminal (config env) = false ->
  fst (CodeManager.getExecutor (executorMap (config env))
         (executorMapByFileExtension (config env))
         (defaultLanguage (config env)) lang (Some lang)
         (getFileExtension (fileName e))) = Some (JString executor) ->
  let w' := snd (run env languageId w) in
  let built :=
    CodeManager.getFinalCommandToRunCodeFile (rootPath env) (Some (fileName e))
      executor true in
  _isRunning (this w') = true
  /\ _codeFile (this w') = Some (fileName e)
  /\ _isTmpFile (this w') = false
  /\ files w' = files w
  /\ (forall command,
        built = Return command ->
        fst (run env languageId w) = Return tt
        /\ children w'
           = <[spawned w := {| childCommand := command;
                               childCwd := Some (workingDirectory env (Some e));
                               childShowsDone := showExecutionMessage (config env) |}]>
               (children w)
        /\ _process (this w') = Some (spawned w))
  /\ (built = ThrowTypeError ->
      fst (run env languageId w) = ThrowTypeError
      /\ processView w' = processView w
      /\ _process (this w') = _process (this w)).
Proof.
  intros Hr He Hl Hs Hsave Ht Hx.
  set (w3 := withThis (set_codeFile (Some (fileName e)))
               (withThis (set_isTmpFile false)
                  (withThis (set_languageId
                               (Some (snd (CodeManager.getExecutor
                                             (executorMap (config env))
                                             (executorMapByFileExtension (config env))
                                             (defaultLanguage (config env)) lang
                                             (Some lang)
                                             (getFileExtension (fileName e))))))
                     (withThis (fun s => set_cwd (Some (workingDirectory env (Some e)))
                                           (set_config (Some (config env)) s)) w)))).
  assert (E : run env languageId w = executeCommandInOutputChannel env executor true w3).
  { unfold run. unfold bindM at 1. unfold get at 1.
    cbn [fst snd]. rewrite Hr, He. cbv iota.
    unfold bindM at 1. rewrite initialize_run.
    set (w1 := withThis _ w) in *.
    unfold bindM at 1.
    rewrite (ResolverFacts.getExecutor_run env w1 (config env) languageId _ lang eq_refl Hl).
    subst w3.
    destruct (CodeManager.getExecutor _ _ _ _ _ _) as [x effective].
    cbn [fst snd] in Hx |- *. subst x.
    set (w2 := withThis (set_languageId (Some effective)) w1).
    assert (Hc2 : _config (this w2) = Some (config env)) by reflexivity.
    rewrite (getCodeFileAndExecute_in_place env w2 (config env) e _ _ _ Hc2 Hs).
    cbv zeta. rewrite Hsave.
    unfold executeCommand.
    set (w3 := withThis (set_codeFile (Some (fileName e))) _).
    assert (Hc3 : _config (this w3) = Some (config env)) by reflexivity.
    rewrite (bindM_run _ _ _ _ _ (setting_run _ w3 (config env) Hc3)).
    unfold bindM at 1. unfold get at 1. cbn [fst snd]. now rewrite Ht. }
  cbv zeta. rewrite E.
  assert (Hc3 : _config (this w3) = Some (config env)) by reflexivity.
  destruct (output_channel_outcome env w3 (config env) executor true Hc3)
    as (H1 & H2 & H3 & H4).
  assert (Hw : _codeFile (this w3) = Some (fileName e)
               /\ codeFileView w3 = (files w, Some (fileName e), false)
               /\ processView w3 = processView w /\ _process (this w3) = _process (this w)
               /\ spawned w3 = spawned w /\ children w3 = children w
               /\ _cwd (this w3) = Some (workingDirectory env (Some e)))
    by (now destruct w as [[] ]).
  destruct Hw as (Hcf & Hv & Hp1 & Hp2 & Hp3 & Hp4 & Hp5).
  rewrite Hcf, Hp3, Hp4, Hp5 in H3. rewrite Hcf, Hp1, Hp2 in H4. rewrite Hv in H2.
  unfold codeFileView in H2. injection H2 as Hf1 Hf2 Hf3.
  split; [exact H1|]. split; [exact Hf2|]. split; [exact Hf3|]. split; [exact Hf1|].
  split; [exact H3 | exact H4].
Qed.

Lemma run_saved_file_witness :
  let env := pythonEnv pythonConfig in
  let w := initialWorld ∅ in
  children (snd (run env None w))
  = <[spawned w := {| childCommand := "python -u " ++ quoteFileName "/home/u/a.py";
                      childCwd := Some (workingDirectory env (Some pythonEditor));
                      childShowsDone := showExecutionMessage (config env) |}]>
      (children w)
  /\ fst (run makefileEnv None w) = ThrowTypeError
  /\ _isRunning (this (snd (run makefileEnv None w))) = true.
Proof.
  intros env w.
  assert (Hx : fst (CodeManager.getExecutor (executorMap (config env))
                      (executorMapByFileExtension (config env))
                      (defaultLanguage (config env)) "python" (Some "python")
                      (getFileExtension (fileName pythonEditor)))
               = Some (JString "python -u")) by (vm_compute; reflexivity).
  assert (Hf : CodeManager.getFinalCommandToRunCodeFile (rootPath env)
                 (Some (fileName pythonEditor)) "python -u" true
               = Return ("python -u " ++ quoteFileName "/home/u/a.py"))
    by (vm_compute; reflexivity).
  assert (Hx2 : fst (CodeManager.getExecutor (executorMap (config makefileEnv))
                       (executorMapByFileExtension (config makefileEnv))
                       (defaultLanguage (config makefileEnv)) "makefile" (Some "makefile")
                       (getFileExtension (fileName makefileEditor)))
                = Some (JString "make -f")) by (vm_compute; reflexivity).
  assert (Hf2 : CodeManager.getFinalCommandToRunCodeFile (rootPath makefileEnv)
                  (Some (fileName makefileEditor)) "make -f" true
                = ThrowTypeError)
    by (vm_compute; reflexivity).
  destruct (run_saved_file env w pythonEditor None "python" "python -u"
              eq_refl eq_refl eq_refl eq_refl eq_refl eq_refl Hx)
    as (_ & _ & _ & _ & H5 & _).
  destruct (run_saved_file makefileEnv w makefileEditor None "makefile" "make -f"
              eq_refl eq_refl eq_refl eq_refl eq_refl eq_refl Hx2)
    as (H1 & _ & _ & _ & _ & H6).
  split; [exact (proj1 (proj2 (H5 _ Hf)))|].
  split; [exact (proj1 (H6 Hf2)) | exact H1].
Defined.

End EntryFacts.
(** ** The adapters of the shells *)

Module ShellFacts.
Import Str StrFacts Regex RegexFacts MatcherFacts Js CodeManager Notions MoreNotions.
Import PathFacts AdapterFacts PathAdapterFacts.

(** *** The path adapter *)

Lemma slashes_no_backslash (s : string) : none is_backslash (slashes s) = true.
Proof.
  induction s as [|a s IH]; [reflexivity|].
  unfold none, slashes in *. cbn [map all]. rewrite IH, andb_true_r.
  unfold slash, is_backslash. now destruct (Ascii.eqb a "\") eqn:E; [|rewrite E].
Qed.

Lemma shellPath_no_backslash (prefix s : string) :
  none is_backslash (shellPath (slashes prefix) s) = true.
Proof.
  rewrite <- (replace_drives prefix (len s) s EmptyString (le_n _)).
  apply slashes_no_backslash.
Qed.

(** A text without backslash has no drive-letter prefix to rewrite. *)
Lemma shellPath_fixed (prefix : string) :
  forall s, none is_backslash s = true -> shellPath prefix s = s.
Proof.
  induction s as [|a s1 IH]; [reflexivity|].
  unfold none. cbn [all]. intros H. apply andb_true_iff in H as [Ha H1].
  apply negb_true_iff in Ha.
  assert (Hstep : String (slash a) (shellPath prefix s1) = String a s1).
  { unfold slash. unfold is_backslash in Ha. rewrite Ha. f_equal. now apply IH. }
  destruct s1 as [|b [|c s3]]; try exact Hstep.
  cbn [shellPath]. 
  assert (Hc : Ascii.eqb c "\" = false).
  { unfold none in H1. cbn [all] in H1.
    apply andb_true_iff in H1 as [_ H1]. apply andb_true_iff in H1 as [H1 _].
    now apply negb_true_iff in H1. }
  rewrite Hc, andb_false_r. exact Hstep.
Qed.

(** On every host, either the adapter changes no command, or it rewrites
    every command with one prefix that has no backslash. *)
Lemma path_adapter_cases (platform windowsShell terminalRoot : string) :
  (forall command,
     changeFilePathForBashOnWindows platform windowsShell terminalRoot command = command)
  \/ (exists prefix,
        forall command,
          changeFilePathForBashOnWindows platform windowsShell terminalRoot command
          = shellPath (slashes prefix) command).
Proof.
  destruct (String.eqb_spec platform "win32") as [Hp|Hp].
  - destruct (String.eqb_spec windowsShell EmptyString) as [Hs|Hs].
    + left. intros command.
      destruct (path_adapter_rewrite platform windowsShell terminalRoot command)
        as (_ & _ & _ & H4).
      apply H4; auto.
    + destruct (String.eqb_spec terminalRoot EmptyString) as [Hr|Hr].
      * destruct (contains "bash" (toLowerCase windowsShell)
                  && contains "windows" (toLowerCase windowsShell)) eqn:Hb.
        -- right. exists "/mnt/". intros command.
           destruct (path_adapter_rewrite platform windowsShell terminalRoot command)
             as (_ & _ & H3 & _).
           apply H3; auto.
        -- left. intros command.
           destruct (path_adapter_rewrite platform windowsShell terminalRoot command)
             as (_ & _ & _ & H4).
           apply H4; auto.
      * right. exists terminalRoot. intros command.
        destruct (path_adapter_rewrite platform windowsShell terminalRoot command)
          as (_ & H2 & _ & _).
        apply H2; auto.
  - left. intros command.
    destruct (path_adapter_rewrite platform windowsShell terminalRoot command)
      as (H1 & _ & _ & _).
    apply H1; auto.
Qed.

(** X18: the path adapter is idempotent; a command it changes comes out
    without backslash, and a command without backslash is not changed. *)
Theorem path_adapter_idempotent (platform windowsShell terminalRoot command : string) :
  let adapt := changeFilePathForBashOnWindows platform windowsShell terminalRoot in
  adapt (adapt command) = adapt command
  /\ (adapt command = command \/ none is_backslash (adapt command) = true)
  /\ (none is_backslash command = true -> adapt command = command).
Proof.
  cbv zeta.
  destruct (path_adapter_cases platform windowsShell terminalRoot) as [H|[prefix H]].
  - rewrite !H. auto.
  - rewrite !H. split; [|split].
    + apply shellPath_fixed, shellPath_no_backslash.
    + right. apply shellPath_no_backslash.
    + apply shellPath_fixed.
Qed.

Lemma path_adapter_idempotent_witness :
  changeFilePathForBashOnWindows "win32" "C:\Windows\bash.exe" EmptyString
    "cd C:\Users\me\a b"
  = "cd /mnt/c/Users/me/a b"
  /\ changeFilePathForBashOnWindows "win32" "C:\Windows\bash.exe" EmptyString
       "cd /mnt/c/Users/me/a b"
     = "cd /mnt/c/Users/me/a b".
Proof.
  split; [vm_compute; reflexivity|].
  exact (proj2 (proj2 (path_adapter_idempotent "win32" "C:\Windows\bash.exe" EmptyString
                         "cd /mnt/c/Users/me/a b")) eq_refl).
Defined.


(** *** The PowerShell chain *)

Lemma powershell_converted (platform windowsShell executor : string) :
  platform = "win32" ->
  contains "powershell" (toLowerCase windowsShell) = true ->
  contains " && " executor = true ->
  changeExecutorFromCmdToPs platform windowsShell executor
  = relativeForm (conditionalChain true executor) ++ " }".
Proof.
  intros -> Hs He. unfold changeExecutorFromCmdToPs.
  rewrite (powershell_named _ Hs), Hs, He.
  change (String.eqb "win32" "win32" && negb false && true && true) with true.
  cbv iota. rewrite replace_first_ampersands.
  unfold relativeForm. f_equal. f_equal.
  unfold replace_all_lit at 1. unfold replace_all.
  apply replace_chain. reflexivity.
Qed.

Lemma starts_amp_cons (a : ascii) (s : string) :
  starts_with (String a s) "&" = is_ampersand a.
Proof.
  unfold starts_with, is_ampersand. cbn [strip]. rewrite (Ascii.eqb_sym a).
  now destruct (Ascii.eqb "&" a).
Qed.

Lemma starts_pair_cons (a : ascii) (s : string) :
  starts_with (String a s) "&&" = is_ampersand a && starts_with s "&".
Proof.
  unfold starts_with. rewrite strip_ampersands. unfold is_ampersand.
  destruct s as [|b s]; [now rewrite andb_false_r|].
  cbn [strip]. rewrite (Ascii.eqb_sym b).
  now destruct (Ascii.eqb a "&"), (Ascii.eqb "&" b).
Qed.

Lemma contains_pair_cons (a : ascii) (s : string) :
  contains "&&" (String a s)
  = is_ampersand a && starts_with s "&" || contains "&&" s.
Proof. cbn [contains]. now rewrite starts_pair_cons. Qed.

Lemma no_ampersand_prefix (x y : string) :
  none is_ampersand x = true -> contains "&&" (x ++ y) = contains "&&" y.
Proof.
  induction x as [|a x IH]; [reflexivity|].
  unfold none. cbn [all]. intros H. apply andb_true_iff in H as [Ha Hx].
  apply negb_true_iff in Ha.
  change (String a x ++ y) with (String a (x ++ y)).
  rewrite contains_pair_cons, Ha. cbn [andb orb]. now apply IH.
Qed.

Lemma no_ampersand_no_pair (y : string) :
  none is_ampersand y = true -> contains "&&" y = false.
Proof.
  intros H. rewrite <- (app_nil_r y), (no_ampersand_prefix y EmptyString H).
  reflexivity.
Qed.

Lemma append_no_pair (x y : string) :
  contains "&&" x = false -> none is_ampersand y = true ->
  contains "&&" (x ++ y) = false.
Proof.
  intros Hx Hy. induction x as [|a x IH].
  - now apply no_ampersand_no_pair.
  - change (String a x ++ y) with (String a (x ++ y)).
    rewrite contains_pair_cons in Hx |- *.
    apply orb_false_iff in Hx as [Ha Hx]. rewrite (IH Hx), orb_false_r.
    destruct x as [|c x].
    + destruct y as [|c y]; [now rewrite andb_false_r|].
      cbn [String.append]. rewrite starts_amp_cons.
      unfold none in Hy. cbn [all] in Hy. apply andb_true_iff in Hy as [Hc _].
      apply negb_true_iff in Hc. now rewrite Hc, andb_false_r.
    + change (String c x ++ y) with (String c (x ++ y)).
      rewrite starts_amp_cons. now rewrite starts_amp_cons in Ha.
Qed.

(** The conditional chain leaves no [&&]. *)
Lemma chain_no_pair :
  forall n s first, len s <= n ->
    contains "&&" (conditionalChain first s) = false
    /\ (starts_with (conditionalChain first s) "&" = true ->
        starts_with s "&" = true /\ starts_with s "&&" = false).
Proof.
  induction n as [|n IH]; intros s first Hn.
  - destruct s; [split; [reflexivity | discriminate]
                | unfold len in Hn; simpl in Hn; lia].
  - destruct s as [|a [|b s2]].
    + split; [reflexivity | discriminate].
    + cbn [conditionalChain]. rewrite contains_pair_cons, starts_pair_cons.
      cbn. rewrite !andb_false_r. auto.
    + rewrite conditionalChain_cons.
      destruct (Ascii.eqb a "&" && Ascii.eqb b "&") eqn:E.
      * assert (H2 : len s2 <= n) by (unfold len in *; simpl in *; lia).
        destruct (IH s2 false H2) as [Hc _].
        destruct first.
        -- rewrite (no_ampersand_prefix "; if ($?) {" _ eq_refl). split; [exact Hc|].
           cbn. discriminate.
        -- rewrite (no_ampersand_prefix "} ; if ($?) {" _ eq_refl). split; [exact Hc|].
           cbn. discriminate.
      * assert (H1 : len (String b s2) <= n) by (unfold len in *; simpl in *; lia).
        destruct (IH (String b s2) first H1) as [Hc Hs].
        rewrite contains_pair_cons, Hc, orb_false_r, !starts_amp_cons, starts_pair_cons.
        rewrite starts_amp_cons. unfold is_ampersand in *.
        split.
        -- destruct (Ascii.eqb a "&"); [|reflexivity]. cbn [andb] in E |- *.
           destruct (starts_with (conditionalChain first (String b s2)) "&") eqn:Es;
             [|reflexivity].
           destruct (Hs eq_refl) as [Hb _]. rewrite starts_amp_cons in Hb.
           unfold is_ampersand in Hb. congruence.
        -- intros Ha. split; [exact Ha|exact E].
Qed.

(** Writing the relative form into a text without [&&] makes none. *)
Lemma relative_no_pair (f : replaceFunction) :
  (forall m, f m = ".\$fileNameWithoutExt") ->
  forall n s before, len s <= n ->
    contains "&&" s = false ->
    contains "&&" (replace_from (lit "$dir$fileNameWithoutExt") f before s 0) = false
    /\ (starts_with (replace_from (lit "$dir$fileNameWithoutExt") f before s 0) "&" = true ->
        starts_with s "&" = true).
Proof.
  intros Hf. induction n as [|n IH]; intros s before Hn Hs;
    rewrite (replace_from_lit "$dir$fileNameWithoutExt" f before s ltac:(discriminate)).
  - destruct s; [|unfold len in Hn; simpl in Hn; lia].
    cbn. split; [reflexivity | discriminate].
  - destruct (strip "$dir$fileNameWithoutExt" s) as [s'|] eqn:E.
    + apply strip_Some in E as ->.
      assert (Hl : len s' <= n).
      { rewrite len_app in Hn. unfold len in *; simpl in *; lia. }
      rewrite (no_ampersand_prefix "$dir$fileNameWithoutExt" s' eq_refl) in Hs.
      destruct (IH s' (before ++ "$dir$fileNameWithoutExt") Hl Hs) as [Hc _].
      rewrite Hf, (no_ampersand_prefix ".\$fileNameWithoutExt" _ eq_refl).
      split; [exact Hc|]. cbn. discriminate.
    + destruct s as [|a s1]; [cbn; split; [reflexivity | discriminate]|].
      assert (Hl : len s1 <= n) by (unfold len in *; simpl in *; lia).
      rewrite contains_pair_cons in Hs. apply orb_false_iff in Hs as [Ha Hs].
      destruct (IH s1 (snoc before a) Hl Hs) as [Hc Hh].
      rewrite contains_pair_cons, Hc, orb_false_r, !starts_amp_cons.
      split; [|auto].
      destruct (is_ampersand a); [|reflexivity]. cbn [andb] in Ha |- *.
      destruct (starts_with (replace_from _ f (snoc before a) s1 0) "&") eqn:Es;
        [|reflexivity].
      rewrite (Hh eq_refl) in Ha. discriminate.
Qed.

(** A global replacement of a literal by a text with as many characters
    of a kind keeps their number. *)
Lemma replace_lit_count (g : ascii -> bool) (p : string) (f : replaceFunction) :
  p <> EmptyString -> (forall m, count g (f m) = count g p) ->
  forall n s before, len s <= n ->
    count g (replace_from (lit p) f before s 0) = count g s.
Proof.
  intros Hp Hf. induction n as [|n IH]; intros s before Hn;
    rewrite (replace_from_lit p f before s Hp).
  - destruct s; [|unfold len in Hn; simpl in Hn; lia].
    destruct p; [contradiction | reflexivity].
  - destruct (strip p s) as [s'|] eqn:E.
    + apply strip_Some in E as ->.
      assert (Hl : len s' <= n).
      { rewrite len_app in Hn. destruct p; [contradiction|].
        unfold len in *; simpl in *; lia. }
      now rewrite !count_app, Hf, (IH s' _ Hl).
    + destruct s as [|a s]; [reflexivity|].
      assert (Hl : len s <= n) by (unfold len in *; simpl in *; lia).
      cbn [count]. now rewrite (IH s _ Hl).
Qed.

(** The blocks of a chain: one is opened at every [&&] and one closed at
    every [&&] but the first. *)
Lemma chain_braces :
  forall n s, len s <= n ->
    count is_open_brace (conditionalChain false s) + count is_close_brace s
    = count is_close_brace (conditionalChain false s) + count is_open_brace s
    /\ (contains "&&" s = true ->
        count is_open_brace (conditionalChain true s) + count is_close_brace s
        = count is_close_brace (conditionalChain true s) + count is_open_brace s + 1).
Proof.
  induction n as [|n IH]; intros s Hn.
  - destruct s; [split; [reflexivity | discriminate]
                | unfold len in Hn; simpl in Hn; lia].
  - destruct s as [|a [|b s2]].
    + split; [reflexivity | discriminate].
    + cbn [conditionalChain]. split; [lia|].
      rewrite contains_pair_cons. cbn. rewrite andb_false_r. discriminate.
    + rewrite !conditionalChain_cons, contains_pair_cons, starts_amp_cons.
      unfold is_ampersand.
      destruct (Ascii.eqb a "&" && Ascii.eqb b "&") eqn:E.
      * assert (H2 : len s2 <= n) by (unfold len in *; simpl in *; lia).
        destruct (IH s2 H2) as [Hc _].
        apply andb_true_iff in E as [Ea Eb].
        apply Ascii.eqb_eq in Ea, Eb. subst a b.
        rewrite !count_app. cbn - [conditionalChain]. split; [lia|]. intros _. lia.
      * assert (H1 : len (String b s2) <= n) by (unfold len in *; simpl in *; lia).
        destruct (IH (String b s2) H1) as [Hc Ht].
        cbn [orb]. cbn [count] in *.
        split; [lia|]. intros H. specialize (Ht H). lia.
Qed.

(** X17: on a PowerShell host, a converted command has no [&&] left, and the
    conversion opens as many blocks as it closes. *)
Theorem powershell_blocks_closed (platform windowsShell executor : string) :
  platform = "win32" ->
  contains "powershell" (toLowerCase windowsShell) = true ->
  contains " && " executor = true ->
  let converted := changeExecutorFromCmdToPs platform windowsShell executor in
  contains "&&" converted = false
  /\ count is_open_brace converted + count is_close_brace executor
     = count is_close_brace converted + count is_open_brace executor.
Proof.
  intros Hp Hs He. cbv zeta. rewrite (powershell_converted _ _ _ Hp Hs He).
  split.
  - apply append_no_pair; [|reflexivity].
    unfold relativeForm, replace_all_lit, replace_all.
    apply (relative_no_pair _ (fun _ => eq_refl) _ _ EmptyString (le_n _)).
    apply (chain_no_pair _ _ true (le_n _)).
  - assert (Ha : contains "&&" executor = true).
    { apply contains_true in He as (x & y & ->).
      change (x ++ " && " ++ y) with (x ++ " " ++ "&&" ++ " " ++ y).
      rewrite <- app_assoc. apply contains_app. }
    destruct (chain_braces _ executor (le_n _)) as [_ H]. specialize (H Ha).
    rewrite !count_app. unfold relativeForm, replace_all_lit, replace_all.
    rewrite (replace_lit_count is_open_brace "$dir$fileNameWithoutExt"
               (fun m => get_substitution m ".\$fileNameWithoutExt")
               ltac:(discriminate) (fun _ => eq_refl) _ _ EmptyString (le_n _)).
    rewrite (replace_lit_count is_close_brace "$dir$fileNameWithoutExt"
               (fun m => get_substitution m ".\$fileNameWithoutExt")
               ltac:(discriminate) (fun _ => eq_refl) _ _ EmptyString (le_n _)).
    cbn [count is_open_brace is_close_brace]. cbn. lia.
Qed.

Lemma powershell_blocks_closed_witness :
  let executor :=
    "cd $dir && gcc $fileName -o $dir$fileNameWithoutExt && $dir$fileNameWithoutExt" in
  contains "&&" (changeExecutorFromCmdToPs "win32" "powershell.exe" executor) = false
  /\ count is_open_brace (changeExecutorFromCmdToPs "win32" "powershell.exe" executor)
     = count is_close_brace (changeExecutorFromCmdToPs "win32" "powershell.exe" executor).
Proof.
  intros executor.
  destruct (powershell_blocks_closed "win32" "powershell.exe" executor
              eq_refl eq_refl eq_refl) as [H1 H2].
  split; [exact H1|].
  change (count is_close_brace executor) with 0 in H2.
  change (count is_open_brace executor) with 0 in H2.
  now rewrite !Nat.add_0_r in H2.
Defined.

End ShellFacts.
(** ** The files a session touches *)

Module FileFacts.
Import Str StrFacts Regex Js CodeManager Notions Session SessionNotions SessionFacts.
Import RunnerFacts PipelineFacts MoreNotions LifecycleFacts EntryFacts.

Lemma executeCommand_files (env : Env) (executor : json) (appendFile : bool) :
  preserves files (executeCommand env executor appendFile).
Proof.
  intros w.
  exact (f_equal (fun v => fst (fst (fst v)))
           (executeCommand_in_place env executor appendFile w)).
Qed.

Lemma sendToTerminal_files (env : Env) (command : string) :
  preserves files (sendToTerminal env command).
Proof.
  unfold sendToTerminal. preserved; try apply changeFilePath_preserves; preserved.
Qed.

Lemma initialize_files (env : Env) (editor : option Editor) :
  preserves files (initialize env editor).
Proof. intros w. now rewrite initialize_run. Qed.

Lemma getExecutor_files (env : Env) (languageId : option string) (fileExtension : string) :
  preserves files (Session.getExecutor env languageId fileExtension).
Proof. unfold Session.getExecutor. preserved. Qed.

Lemma writesTemporary_from (w0 w w' : World) :
  files w0 = files w -> writesTemporary w0 w' -> writesTemporary w w'.
Proof. intros E (f & content & H1 & H2 & H3). exists f, content. now rewrite <- E. Qed.

(** What comes after a method that leaves the files as they are. *)
Lemma bindM_files {A B : Type} (c : M A) (k : A -> M B) (w w0 : World) :
  files w0 = files w ->
  preserves files c ->
  (forall a w1, files w1 = files w ->
     files (snd (k a w1)) = files w \/ writesTemporary w (snd (k a w1))) ->
  files (snd (bindM c k w0)) = files w \/ writesTemporary w (snd (bindM c k w0)).
Proof.
  intros H0 Hc Hk. unfold bindM. specialize (Hc w0).
  destruct (c w0) as [[a|] w1]; cbn [snd] in *.
  - apply Hk. congruence.
  - left. congruence.
Qed.

Lemma getCodeFileAndExecute_files (env : Env) (e : Editor)
  (fileExtension : string) (executor : json) (appendFile : bool) (w : World) :
  files (snd (getCodeFileAndExecute env e fileExtension executor appendFile w)) = files w
  \/ writesTemporary w (snd (getCodeFileAndExecute env e fileExtension executor appendFile w)).
Proof.
  destruct (_config (this w)) as [c|] eqn:Hc.
  2: { left. unfold getCodeFileAndExecute, setting, bindM, get. cbn. now rewrite Hc. }
  destruct ((selectionIsEmpty e || ignoreSelection c) && negb (isUntitled e)) eqn:Hs.
  - left. rewrite (getCodeFileAndExecute_in_place env w c e _ _ _ Hc Hs). cbv zeta.
    destruct (saveAllFilesBeforeRun c || saveFileBeforeRun c).
    + now destruct w as [[] ].
    + rewrite executeCommand_files. now destruct w as [[] ].
  - destruct (getCodeFileAndExecute env e fileExtension executor appendFile w)
      as [r w'] eqn:E. cbn [snd]. revert E.
    unfold getCodeFileAndExecute.
    rewrite (bindM_run _ _ _ _ _ (setting_run _ w c Hc)), Hs.
    unfold bindM at 1. unfold get at 1. cbn [fst snd].
    set (text := textToRun _ _).
    unfold bindM at 1. unfold set at 1. cbn [fst snd].
    set (w1 := withThis (set_isTmpFile true) w).
    assert (Hc1 : _config (this w1) = Some c) by (destruct w as [[] ]; exact Hc).
    assert (Hf1 : files w1 = files w) by (now destruct w as [[] ]).
    assert (Ht1 : _isTmpFile (this w1) = true) by (now destruct w as [[] ]).
    assert (Hfolder : exists folder,
               (if isUntitled e then get _cwd else ret (Some (dirname env (fileName e)))) w1
               = (Return folder, w1)).
    { destruct (isUntitled e); eexists; reflexivity. }
    destruct Hfolder as [folder Hfolder].
    rewrite (bindM_run _ _ _ _ _ Hfolder).
    destruct folder as [folder|].
    + destruct (createRandomFile_run env w1 c text folder fileExtension Hc1)
        as (Hr & Hcf & Hfs & Htmp).
      unfold bindM.
      destruct (createRandomFile env text (Some folder) fileExtension w1)
        as [r2 w2] eqn:E2.
      cbn [fst snd] in Hr, Hcf, Hfs, Htmp. subst r2. cbv beta iota.
      pose proof (executeCommand_codeFile env executor appendFile w2) as Hp.
      intros E. rewrite E in Hp. cbn [snd] in Hp.
      unfold codeFileView in Hp. injection Hp as Hp1 Hp2 Hp3.
      right. eexists _, text. rewrite Hp1, Hp2, Hp3, Hfs, Hcf, Htmp, Hf1, Ht1.
      repeat split.
    + unfold bindM.
      assert (Hn : files (snd (createRandomFile env text None fileExtension w1)) = files w1
                   /\ fst (createRandomFile env text None fileExtension w1) = ThrowTypeError).
      { unfold createRandomFile.
        rewrite (bindM_run _ _ _ _ _ (setting_run _ w1 c Hc1)).
        unfold bindM, get, nextRandom36, throw. cbn. auto. }
      destruct (createRandomFile env text None fileExtension w1) as [r2 w2].
      cbn [fst snd] in Hn. destruct Hn as [Hn ->]. cbv beta iota.
      intros E. injection E as _ <-. left. congruence.
Qed.

Lemma getCodeFileAndExecute_from (env : Env) (e : Editor)
  (fileExtension : string) (executor : json) (appendFile : bool) (w w0 : World) :
  files w0 = files w ->
  files (snd (getCodeFileAndExecute env e fileExtension executor appendFile w0)) = files w
  \/ writesTemporary w
       (snd (getCodeFileAndExecute env e fileExtension executor appendFile w0)).
Proof.
  intros H0.
  destruct (getCodeFileAndExecute_files env e fileExtension executor appendFile w0)
    as [H|H].
  - left. congruence.
  - right. now apply (writesTemporary_from w0).
Qed.

Lemma run_files (env : Env) (languageId : option string) (w w0 : World) :
  files w0 = files w ->
  files (snd (run env languageId w0)) = files w
  \/ writesTemporary w (snd (run env languageId w0)).
Proof.
  intros H0. unfold run.
  apply (bindM_files _ _ w w0 H0); [intros ?; reflexivity|].
  intros [|] w1 H1; [left; exact H1|].
  destruct (activeTextEditor env) as [e|]; [|left; exact H1].
  apply (bindM_files _ _ w w1 H1); [apply initialize_files|].
  intros _ w2 H2.
  apply (bindM_files _ _ w w2 H2); [apply getExecutor_files|].
  intros [[|x|x]|] w3 H3; try (left; exact H3);
    now apply getCodeFileAndExecute_from.
Qed.

Lemma runCustomCommand_files (env : Env) (w : World) :
  files (snd (runCustomCommand env w)) = files w
  \/ writesTemporary w (snd (runCustomCommand env w)).
Proof.
  unfold runCustomCommand.
  apply (bindM_files _ _ w w eq_refl); [intros ?; reflexivity|].
  intros [|] w1 H1; [left; exact H1|].
  apply (bindM_files _ _ w w1 H1); [apply initialize_files|].
  intros _ w2 H2.
  apply (bindM_files _ _ w w2 H2); [apply preserves_setting|].
  intros executor w3 H3.
  destruct (activeTextEditor env) as [e|].
  - now apply getCodeFileAndExecute_from.
  - left. rewrite executeCommand_files. exact H3.
Qed.

(** X20: whatever the event, a step of the session leaves the files as
    they are, or writes one file that it then tracks as its temporary
    file, or, at the close of a child only, deletes the file it tracks as
    its temporary file: it deletes no other file and writes no other
    file. *)
Theorem only_temporary_files_touched (env : Env) (w : World) (e : event) :
  let w' := step env w e in
  files w' = files w
  \/ writesTemporary w w'
  \/ (deletesTemporary w w'
      /\ exists pid code elapsedTime, e = ChildClosed pid code elapsedTime).
Proof.
  cbv zeta. unfold step.
  assert (Hor : forall A B C : Prop, A \/ B -> A \/ B \/ C) by tauto.
  destruct e as [| | | | |i value|pid data|pid code elapsedTime]; cbn [react].
  - apply Hor, run_files. reflexivity.
  - apply Hor, runCustomCommand_files.
  - left. reflexivity.
  - left. unfold stop. 
    assert (H : preserves files stop) by (unfold stop; preserved).
    apply H.
  - left. reflexivity.
  - apply Hor. apply (bindM_files _ _ w w eq_refl); [intros ?; reflexivity|].
    intros [[executor appendFile|command|]|] w1 H1; cbn [resume].
    + left. now rewrite executeCommand_files.
    + left. now rewrite sendToTerminal_files.
    + destruct value as [languageId|]; [now apply run_files | left; exact H1].
    + left. exact H1.
  - left. destruct (children w !! pid); reflexivity.
  - destruct (children w !! pid) as [child|] eqn:Hc; [|left; reflexivity].
    destruct w as [[t r p cf tmp l cw cfg] ns tel out tin tn fs ch sp kr rc pd].
    unfold onClose, reap, bindM, set, get, ret, throw, unlink, withFiles,
      outputAppendLine, withOutput, withThis, deletesTemporary.
    cbn. destruct (childShowsDone child); cbn;
      (destruct tmp; cbn;
       [destruct cf as [f|]; cbn; [destruct (unlinkNeedsCallback env); cbn|]|]);
      try (left; reflexivity);
      right; right; (split; [exists f; auto | eauto]).
Qed.

Lemma only_temporary_files_touched_witness :
  let env := phpEnv in
  let w := step env (initialWorld ∅) Run in
  writesTemporary (initialWorld ∅) w
  /\ deletesTemporary w (step env w (ChildClosed 0 "0" "0.03")).
Proof.
  intros env w. split.
  - destruct (only_temporary_files_touched env (initialWorld ∅) Run) as [H|[H|[_ H]]].
    + exfalso. assert (E : files w !! "/home/u/tempfzyomvyr.php" = None)
        by (fold w in H; rewrite H; reflexivity).
      vm_compute in E. discriminate E.
    + exact H.
    + destruct H as (pid & code & elapsedTime & H). discriminate H.
  - destruct (only_temporary_files_touched env w (ChildClosed 0 "0" "0.03"))
      as [H|[H|[H _]]].
    + exfalso.
      assert (E : files (step env w (ChildClosed 0 "0" "0.03"))
                    !! "/home/u/tempfzyomvyr.php"
                  = files w !! "/home/u/tempfzyomvyr.php") by (now rewrite H).
      vm_compute in E. discriminate E.
    + exfalso. destruct H as (f & content & H & _).
      assert (E : size (files (step env w (ChildClosed 0 "0" "0.03"))) = 0)
        by (vm_compute; reflexivity).
      rewrite H in E. 
      assert (E' : <[f := content]> (files w) !! f = Some content)
        by apply lookup_insert_eq.
      apply map_size_empty_iff in E. rewrite E in E'. discriminate E'.
    + exact H.
Defined.

End FileFacts.
